(** * SmartLife Agent: the web client, embedded and verified

    The development follows the TypeScript sources of the front end:

    - [Js]: the fragments of the JavaScript run time the client relies on
      (truthiness, [trim], [toLowerCase], [includes], promises that resolve
      or reject);
    - [Client]: services/api.ts as the pages see it, every client function
      at its declared TypeScript type, with the state-and-effects monad in
      which the React handlers run;
    - [GoalChat], [Chat], [Home], [Settings], [OAuthCallback],
      [AuthContext]: one module per component, each handler a function from
      the component state to a computation returning the next state;
    - [Api]: services/api.ts underneath, the [request] helper over [fetch],
      [Headers] and [localStorage] on JSON values, and the request each
      client function passes to it;
    - [Backend]: the project store behind [/projects], which is not part of
      the sources and is modelled from the specification;
    - [Browser], [Workspace], [Preferences]: the remaining handlers of the
      project workspace and of the settings page, with the confirmations
      and alerts they raise.

    A handler runs from its first statement to its last without another
    handler interleaving at an [await]; the state it closes over is the
    state it is started in.  What the server answers is a parameter of
    every run. *)

From Stdlib Require Import Ascii.
From stdpp Require Import gmap strings list pretty.

Set Default Proof Using "Type".

(** ** JavaScript run-time fragments *)

Module Js.

(** Strings are sequences of code units; [ascii] covers U+0000..U+00FF. *)

(** White space in the sense of [String.prototype.trim], within that range:
    TAB, LF, VT, FF, CR, SPACE and NBSP. *)
Definition is_white_space (c : ascii) : bool :=
  let n := nat_of_ascii c in
  (Nat.leb 9 n && Nat.leb n 13) || Nat.eqb n 32 || Nat.eqb n 160.

Fixpoint trimStart (s : string) : string :=
  match s with
  | String c s' => if is_white_space c then trimStart s' else s
  | EmptyString => EmptyString
  end.

Definition trimEnd (s : string) : string :=
  String.rev (trimStart (String.rev s)).

Definition trim (s : string) : string := trimEnd (trimStart s).

(** [toLowerCase] on a code unit: A..Z and the Latin-1 capitals. *)
Definition lower_char (c : ascii) : ascii :=
  let n := nat_of_ascii c in
  if (Nat.leb 65 n && Nat.leb n 90)
     || (Nat.leb 192 n && Nat.leb n 222 && negb (Nat.eqb n 215))
  then ascii_of_nat (n + 32) else c.

Fixpoint toLowerCase (s : string) : string :=
  match s with
  | String c s' => String (lower_char c) (toLowerCase s')
  | EmptyString => EmptyString
  end.

(** [s.includes(p)] *)
Fixpoint includes (s p : string) : bool :=
  String.prefix p s
  || match s with
     | String _ s' => includes s' p
     | EmptyString => false
     end.

(** [s.substring(0, n)] *)
Definition substring0 (n : nat) (s : string) : string := String.substring 0 n s.

(** Truthiness of a string, and of a [string | null]. *)
Definition truthy (s : string) : bool := negb (String.eqb s "").

Definition truthy_opt (o : option string) : bool :=
  match o with
  | Some s => truthy s
  | None => false
  end.

(** A [string | null | undefined] as a truthiness test sees it, as in
    [if (x)] and [x || undefined]: the string, unless it is empty. *)
Definition given (o : option string) : option string :=
  match o with
  | Some s => if truthy s then Some s else None
  | None => None
  end.

(** What a rejected promise or a [throw] carries.  All three are instances
    of [Error]. *)
Inductive Exn :=
  | Error (message : string)
  | TypeError (message : string)
  | SyntaxError (message : string).

Definition message (e : Exn) : string :=
  match e with
  | Error m | TypeError m | SyntaxError m => m
  end.

(** A settled promise (equivalently, a call that returns or throws). *)
Inductive Settled (A : Type) :=
  | Resolved (a : A)
  | Rejected (e : Exn).
Arguments Resolved {A} a.
Arguments Rejected {A} e.

Definition is_resolved {A} (r : Settled A) : bool :=
  match r with
  | Resolved _ => true
  | Rejected _ => false
  end.

End Js.

(** ** The API client as the pages see it (services/api.ts, typed) *)

Module Client.
Import Js.

(** *** Payload types of services/api.ts *)

Record User := {
  user_id : string;
  user_email : string;
  user_name : option string;
}.

Record AuthResult := {
  auth_user : User;
  auth_token : string;
}.

(** A property declared [?: string | null]: absent, [null], or a string. *)
Inductive Nullable :=
  | Absent
  | Null
  | Present (s : string).

(** The string, if there is one. *)
Definition as_string (v : Nullable) : option string :=
  match v with
  | Present s => Some s
  | Absent | Null => None
  end.

Record ProposedProject := {
  pp_title : string;
  pp_description : string;
  pp_due_date : Nullable;
}.

Record ChatResponse := {
  response : string;
  proposed_projects : option (list ProposedProject);
  requires_confirmation : option bool;
}.

(** A time stamp is either the string the server sent or the rendering
    [new Date(t).toISOString()] of an instant [t], kept as that instant. *)
Inductive Timestamp :=
  | ServerTime (s : string)
  | ISOString (epoch_ms : N).

Record ChatMessage := {
  cm_id : string;
  cm_message : string;
  cm_response : string;
  cm_timestamp : Timestamp;
}.

Record TodoItem := {
  todo_id : string;
  todo_text : string;
  completed : bool;
  order_index : option string;
  todo_created_at : string;
}.

(** [plan] is read and written by the project workspace; the revision of
    api.ts that declares it is not among the sources. *)
Record Project := {
  project_id : string;
  title : string;
  description : option string;
  due_date : option string;
  plan : option string;
  created_at : string;
  updated_at : string;
  todos : list TodoItem;
}.

(** Request body of [projectsApi.create]. *)
Record ProjectData := {
  data_title : string;
  data_description : option string;
  data_due_date : option string;
}.

Record ProjectChatResponse := {
  pc_response : string;
  plan_updated : bool;
}.

(** Result of [projectsApi.generatePlan], as the workspace reads it. *)
Record PlanResult := {
  result_plan : string;
  needs_clarification : bool;
}.

Record OAuthResult := {
  oauth_message : string;
  oauth_email : option string;
}.

(** *** The client functions, one constructor per function the pages call;
    the index is the type argument of [request<T>]. *)
Inductive ApiCall : Type -> Type :=
  | authApi_signup (email password : string) (name : option string) : ApiCall AuthResult
  | authApi_login (email password : string) : ApiCall AuthResult
  | authApi_verifyToken : ApiCall User
  | chatApi_sendMessage (message : string)
      (existingProjects : option (list ProposedProject)) : ApiCall ChatResponse
  | chatApi_getHistory : ApiCall (list ChatMessage)
  | projectsApi_create (data : ProjectData) : ApiCall Project
  | projectsApi_get (projectId : string) : ApiCall Project
  | projectsApi_sendChatMessage (projectId message : string) : ApiCall ProjectChatResponse
  | projectsApi_generatePlan (projectId : string) (clarification : option string)
      : ApiCall PlanResult
  | settingsApi_updatePassword (currentPassword newPassword : string) : ApiCall string
  | settingsApi_completeGoogleCalendarOAuth (code state redirectUri : string)
      : ApiCall OAuthResult.

(** A call that was made, with its type argument. *)
Definition Call : Type := sigT ApiCall.

Definition mkCall {T} (c : ApiCall T) : Call := existT T c.

(** *** The browser around a component *)

Inductive TimerAction :=
  | NavigateTo (path : string)
  | DispatchSubmit.

Inductive UiEffect :=
  | Alert (text : string)
  | SetTimeout (action : TimerAction) (ms : N).

(** The server and the network, seen from the client: what a call settles
    to, and after how many milliseconds, given the calls made before it. *)
Definition Remote : Type := forall T, list Call -> ApiCall T -> N * Settled T.

Record World := {
  localStorage : gmap string string;
  clock : N;                      (* Date.now() *)
  origin : string;                (* window.location.origin *)
  remote : Remote;
  calls : list Call;              (* API calls made, oldest first *)
  effects : list UiEffect;        (* alerts, navigation, timers, oldest first *)
}.

(** *** Computations of a handler *)

Definition M (A : Type) : Type := World -> A * World.

Definition ret {A} (a : A) : M A := fun w => (a, w).

Definition bind {A B} (m : M A) (k : A -> M B) : M B :=
  fun w => let (a, w') := m w in k a w'.

Declare Scope js_scope.
Delimit Scope js_scope with js.
Notation "'let*' x ':=' m 'in' k" := (bind m (fun x => k))
  (at level 10, x pattern, m at level 100, k at level 200) : js_scope.
Notation "m ';;' k" := (bind m (fun _ => k))
  (at level 100, k at level 200, right associativity) : js_scope.

Definition getItem (key : string) : M (option string) :=
  fun w => (localStorage w !! key, w).

Definition setItem (key value : string) : M unit :=
  fun w => (tt, {| localStorage := <[key := value]> (localStorage w);
                   clock := clock w; origin := origin w; remote := remote w;
                   calls := calls w; effects := effects w |}).

Definition removeItem (key : string) : M unit :=
  fun w => (tt, {| localStorage := delete key (localStorage w);
                   clock := clock w; origin := origin w; remote := remote w;
                   calls := calls w; effects := effects w |}).

Definition Date_now : M N := fun w => (clock w, w).

Definition location_origin : M string := fun w => (origin w, w).

Definition effect (e : UiEffect) : M unit :=
  fun w => (tt, {| localStorage := localStorage w;
                   clock := clock w; origin := origin w; remote := remote w;
                   calls := calls w; effects := effects w ++ [e] |}).

(** [await api.f(...)]: the call is recorded, time passes, and the promise
    settles. *)
Definition await {T} (c : ApiCall T) : M (Settled T) :=
  fun w =>
    let (elapsed, r) := remote w T (calls w) c in
    (r, {| localStorage := localStorage w;
           clock := (clock w + elapsed)%N; origin := origin w; remote := remote w;
           calls := calls w ++ [mkCall c]; effects := effects w |}).

(** Is this call a [projectsApi.create]? *)
Definition is_create (c : Call) : bool :=
  match projT2 c with
  | projectsApi_create _ => true
  | _ => false
  end.

End Client.

(** ** pages/Chat.tsx, goal conversations with project proposals *)

Module GoalChat.
Import Js Client.
Local Open Scope js_scope.

Record EditableProject := {
  ep_title : string;
  ep_description : string;
  ep_due_date : Nullable;
  ep_id : string;
  selected : bool;
  conversationId : string;
}.

Record Message := {
  msg_id : string;
  message : string;
  msg_response : string;
  timestamp : Timestamp;
  proposedProjects : option (list EditableProject);
  requiresConfirmation : option bool;
}.

Record Conversation := {
  conv_id : string;
  conv_title : string;
  messages : list Message;
  createdAt : Timestamp;
}.

Record State := {
  conversations : list Conversation;
  currentConversationId : option string;
  input : string;
  loading : bool;
  creatingProjects : option string;
}.

Definition initial : State :=
  {| conversations := []; currentConversationId := None; input := "";
     loading := false; creatingProjects := None |}.

(** The [useState] setters. *)
Definition setConversations (f : list Conversation -> list Conversation) (st : State) : State :=
  {| conversations := f (conversations st);
     currentConversationId := currentConversationId st;
     input := input st; loading := loading st;
     creatingProjects := creatingProjects st |}.

Definition setCurrentConversationId (c : option string) (st : State) : State :=
  {| conversations := conversations st; currentConversationId := c;
     input := input st; loading := loading st;
     creatingProjects := creatingProjects st |}.

Definition setInput (s : string) (st : State) : State :=
  {| conversations := conversations st;
     currentConversationId := currentConversationId st;
     input := s; loading := loading st;
     creatingProjects := creatingProjects st |}.

Definition setLoading (b : bool) (st : State) : State :=
  {| conversations := conversations st;
     currentConversationId := currentConversationId st;
     input := input st; loading := b;
     creatingProjects := creatingProjects st |}.

Definition setCreatingProjects (c : option string) (st : State) : State :=
  {| conversations := conversations st;
     currentConversationId := currentConversationId st;
     input := input st; loading := loading st;
     creatingProjects := c |}.

(** [{ ...conv, messages }] and [{ ...msg, proposedProjects }] *)
Definition with_messages (ms : list Message) (conv : Conversation) : Conversation :=
  {| conv_id := conv_id conv; conv_title := conv_title conv;
     messages := ms; createdAt := createdAt conv |}.

Definition with_proposedProjects (ps : option (list EditableProject)) (msg : Message) : Message :=
  {| msg_id := msg_id msg; message := message msg;
     msg_response := msg_response msg; timestamp := timestamp msg;
     proposedProjects := ps; requiresConfirmation := requiresConfirmation msg |}.

(** [conv.id === id] against a [string | null]. *)
Definition conv_is (id : option string) (conv : Conversation) : bool :=
  match id with
  | Some c => String.eqb (conv_id conv) c
  | None => false
  end.

(** [prev.map(conv => conv.id === id ? { ...conv, messages: f(conv.messages) } : conv)] *)
Definition in_conversation (id : option string)
    (f : list Message -> list Message) (prev : list Conversation) : list Conversation :=
  map (fun conv => if conv_is id conv then with_messages (f (messages conv)) conv else conv) prev.

(** [conv.messages.map(msg => ({ ...msg, proposedProjects: msg.proposedProjects?.g }))] *)
Definition on_proposals (g : list EditableProject -> list EditableProject)
    (ms : list Message) : list Message :=
  map (fun msg => with_proposedProjects (g <$> proposedProjects msg) msg) ms.

Definition currentConversation (st : State) : option Conversation :=
  find (conv_is (currentConversationId st)) (conversations st).

Definition with_conversationId (c : string) (p : EditableProject) : EditableProject :=
  {| ep_title := ep_title p; ep_description := ep_description p;
     ep_due_date := ep_due_date p; ep_id := ep_id p; selected := selected p;
     conversationId := c |}.

Definition allProjects (st : State) : list EditableProject :=
  match currentConversation st with
  | Some conv =>
      flat_map (fun msg =>
          map (with_conversationId (default "" (currentConversationId st)))
              (default [] (proposedProjects msg)))
        (messages conv)
  | None => []
  end.

Definition hasProjects (st : State) : bool :=
  negb (Nat.eqb (length (allProjects st)) 0).

Definition handleQuickAction (prompt : string) (st : State) : M State :=
  effect (SetTimeout DispatchSubmit 100);;
  ret (setInput prompt st).

(** The fields the proposal form edits. *)
Inductive Field := F_title | F_description | F_due_date.

Definition set_field (field : Field) (value : string) (p : EditableProject) : EditableProject :=
  {| ep_title := match field with F_title => value | _ => ep_title p end;
     ep_description := match field with F_description => value | _ => ep_description p end;
     ep_due_date := match field with F_due_date => Present value | _ => ep_due_date p end;
     ep_id := ep_id p; selected := selected p; conversationId := conversationId p |}.

Definition handleProjectFieldChange (projectId : string) (field : Field) (value : string)
    (st : State) : State :=
  if negb (truthy_opt (currentConversationId st)) then st else
  setConversations
    (in_conversation (currentConversationId st)
       (on_proposals (map (fun proj =>
          if String.eqb (ep_id proj) projectId then set_field field value proj else proj))))
    st.

Definition toggle_selected (p : EditableProject) : EditableProject :=
  {| ep_title := ep_title p; ep_description := ep_description p;
     ep_due_date := ep_due_date p; ep_id := ep_id p;
     selected := negb (selected p); conversationId := conversationId p |}.

Definition handleToggleProjectSelection (projectId : string) (st : State) : State :=
  if negb (truthy_opt (currentConversationId st)) then st else
  setConversations
    (in_conversation (currentConversationId st)
       (on_proposals (map (fun proj =>
          if String.eqb (ep_id proj) projectId then toggle_selected proj else proj))))
    st.

Definition create_data (project : EditableProject) : ProjectData :=
  {| data_title := ep_title project;
     data_description := given (Some (ep_description project));
     data_due_date := given (as_string (ep_due_date project)) |}.

(** The [for ... of] loop of [handleMoveSelectedProjects]: one awaited
    [projectsApi.create] per project, a rejection logged and skipped. *)
Fixpoint create_each (selectedProjects : list EditableProject)
    (createdProjects : list Project) : M (list Project) :=
  match selectedProjects with
  | [] => ret createdProjects
  | project :: rest =>
      let* r := await (projectsApi_create (create_data project)) in
      match r with
      | Resolved created => create_each rest (createdProjects ++ [created])
      | Rejected _ => create_each rest createdProjects
      end
  end.

Definition handleMoveSelectedProjects (st : State) : M State :=
  let selectedProjects := filter (fun p => selected p = true) (allProjects st) in
  if Nat.eqb (length selectedProjects) 0
  then effect (Alert "Please select at least one project to move");; ret st
  else
    let st1 := setCreatingProjects (Some "bulk") st in
    let* createdProjects := create_each selectedProjects [] in
    let st2 :=
      if truthy_opt (currentConversationId st)
      then setConversations
             (in_conversation (currentConversationId st)
                (on_proposals (filter (fun p => selected p = false))))
             st1
      else st1 in
    effect (Alert ("✅ Successfully created " +:+ pretty (length createdProjects)
                   +:+ " project(s)!"));;
    ret (setCreatingProjects None st2).

Definition to_proposed (p : EditableProject) : ProposedProject :=
  {| pp_title := ep_title p; pp_description := ep_description p;
     pp_due_date := ep_due_date p |}.

Definition editable (id_prefix : string) (conversationId : string)
    (idx : nat) (proj : ProposedProject) : EditableProject :=
  {| ep_title := pp_title proj; ep_description := pp_description proj;
     ep_due_date := pp_due_date proj;
     ep_id := id_prefix +:+ "-" +:+ pretty idx;
     selected := false; conversationId := conversationId |}.

Definition handleEditProjects (editPrompt : string) (st : State) : M State :=
  match currentConversationId st with
  | Some cid =>
      if negb (truthy (trim editPrompt)) || negb (truthy cid)
      then effect (Alert "Please enter an edit request");; ret st
      else
        let st1 := setLoading true st in
        let currentProjects := map to_proposed (allProjects st) in
        let* r := await (chatApi_sendMessage editPrompt (Some currentProjects)) in
        match r with
        | Resolved chatResponse =>
            let* now := Date_now in
            let newEditableProjects :=
              imap (editable ("proj-" +:+ pretty now) cid)
                   (default [] (proposed_projects chatResponse)) in
            let newMessage :=
              {| msg_id := "msg-" +:+ pretty now;
                 message := editPrompt;
                 msg_response := response chatResponse;
                 timestamp := ISOString now;
                 proposedProjects := Some newEditableProjects;
                 requiresConfirmation :=
                   Some (negb (Nat.eqb (length newEditableProjects) 0)) |} in
            ret (setLoading false
                   (setConversations
                      (in_conversation (Some cid) (fun ms => ms ++ [newMessage]))
                      st1))
        | Rejected _ => ret (setLoading false st1)
        end
  | None => effect (Alert "Please enter an edit request");; ret st
  end.

Definition error_text : string := "Sorry, I encountered an error. Please try again.".

(** The message update of the [try] branch and of the [catch] branch. *)
Definition resolve_message (finalId : string) (chatResponse : ChatResponse)
    (editableProjects : list EditableProject) (msg : Message) : Message :=
  {| msg_id := finalId; message := message msg;
     msg_response := response chatResponse;
     timestamp := timestamp msg;
     proposedProjects :=
       if Nat.ltb 0 (length editableProjects) then Some editableProjects else None;
     requiresConfirmation := requires_confirmation chatResponse |}.

Definition fail_message (msg : Message) : Message :=
  {| msg_id := msg_id msg; message := message msg;
     msg_response := error_text;
     timestamp := timestamp msg;
     proposedProjects := proposedProjects msg;
     requiresConfirmation := requiresConfirmation msg |}.

(** [conv.messages.map(msg => msg.id === tempId ? f(msg) : msg)] *)
Definition update_by_id (tempId : string) (f : Message -> Message)
    (ms : list Message) : list Message :=
  map (fun msg => if String.eqb (msg_id msg) tempId then f msg else msg) ms.

(** The conversation a submission goes to: the current one, or a new one
    named after the clock. *)
Definition target_conversation (now : N) (st : State) : string :=
  if truthy_opt (currentConversationId st)
  then default "" (currentConversationId st)
  else "conv-" +:+ pretty now.

Definition provisional (tempId userMessage : string) (now : N) : Message :=
  {| msg_id := tempId; message := userMessage; msg_response := "";
     timestamp := ISOString now;
     proposedProjects := None; requiresConfirmation := None |}.

(** The state rendered while the request is in flight. *)
Definition optimistic (userMessage : string) (now : N) (st : State) : State :=
  let st := setLoading true (setInput "" st) in
  (* Create new conversation if none exists *)
  let conversationId := target_conversation now st in
  let st :=
    if truthy_opt (currentConversationId st) then st
    else
      let newConversation :=
        {| conv_id := conversationId;
           conv_title := substring0 50 userMessage;
           messages := [];
           createdAt := ISOString now |} in
      setCurrentConversationId (Some conversationId)
        (setConversations (fun prev => prev ++ [newConversation]) st) in
  (* Add user message optimistically *)
  setConversations
    (in_conversation (Some conversationId)
       (fun ms => ms ++ [provisional ("msg-" +:+ pretty now) userMessage now]))
    st.

(** The state updates of the [try] branch, of the [catch] branch, and of
    [finally]. *)
Definition on_resolved (conversationId tempId : string) (chatResponse : ChatResponse)
    (now' : N) (st : State) : State :=
  let finalId := "msg-" +:+ pretty now' in
  let editableProjects :=
    imap (editable ("proj-" +:+ finalId) conversationId)
         (default [] (proposed_projects chatResponse)) in
  setLoading false
    (setConversations
       (in_conversation (Some conversationId)
          (update_by_id tempId (resolve_message finalId chatResponse editableProjects)))
       st).

Definition on_rejected (conversationId tempId : string) (st : State) : State :=
  setLoading false
    (setConversations
       (in_conversation (Some conversationId) (update_by_id tempId fail_message))
       st).

Definition handleSubmit (st : State) : M State :=
  if negb (truthy (trim (input st))) || loading st then ret st else
  let userMessage := trim (input st) in
  let* now := Date_now in
  let conversationId := target_conversation now st in
  let tempId := "msg-" +:+ pretty now in
  let st := optimistic userMessage now st in
  let* r := await (chatApi_sendMessage userMessage None) in
  match r with
  | Resolved chatResponse =>
      let* now' := Date_now in
      ret (on_resolved conversationId tempId chatResponse now' st)
  | Rejected _ => ret (on_rejected conversationId tempId st)
  end.

Definition startNewConversation (st : State) : State :=
  setInput "" (setCurrentConversationId None st).

(** Everything the page lets the user do. *)
Inductive Action :=
  | QuickAction (prompt : string)
  | Type_ (text : string)                    (* onChange of the chat input *)
  | Submit
  | SelectConversation (i : nat)             (* click on the i-th listed conversation *)
  | NewConversation
  | ProjectFieldChange (projectId : string) (field : Field) (value : string)
  | ToggleProjectSelection (projectId : string)
  | MoveSelectedProjects
  | EditProjects (editPrompt : string).

Definition dispatch (a : Action) (st : State) : M State :=
  match a with
  | QuickAction prompt => handleQuickAction prompt st
  | Type_ text => ret (setInput text st)
  | Submit => handleSubmit st
  | SelectConversation i =>
      match conversations st !! i with
      | Some conv => ret (setCurrentConversationId (Some (conv_id conv)) st)
      | None => ret st
      end
  | NewConversation => ret (startNewConversation st)
  | ProjectFieldChange projectId field value =>
      ret (handleProjectFieldChange projectId field value st)
  | ToggleProjectSelection projectId => ret (handleToggleProjectSelection projectId st)
  | MoveSelectedProjects => handleMoveSelectedProjects st
  | EditProjects editPrompt => handleEditProjects editPrompt st
  end.

End GoalChat.

(** ** pages/Chat.tsx, the single-thread chat *)

Module Chat.
Import Js Client.
Local Open Scope js_scope.

Record State := {
  messages : list ChatMessage;
  input : string;
  loading : bool;
}.

Definition initial : State := {| messages := []; input := ""; loading := false |}.

Definition setMessages (f : list ChatMessage -> list ChatMessage) (st : State) : State :=
  {| messages := f (messages st); input := input st; loading := loading st |}.

Definition setInput (s : string) (st : State) : State :=
  {| messages := messages st; input := s; loading := loading st |}.

Definition setLoading (b : bool) (st : State) : State :=
  {| messages := messages st; input := input st; loading := b |}.

Definition loadHistory (st : State) : M State :=
  let* r := await chatApi_getHistory in
  match r with
  | Resolved history => ret (setMessages (fun _ => history) st)
  | Rejected _ => ret st
  end.

Definition error_text : string := "Sorry, I encountered an error. Please try again.".

(** [{ ...msg, response, id }] and [{ ...msg, response }] *)
Definition resolve_message (id response : string) (msg : ChatMessage) : ChatMessage :=
  {| cm_id := id; cm_message := cm_message msg; cm_response := response;
     cm_timestamp := cm_timestamp msg |}.

Definition fail_message (text : string) (msg : ChatMessage) : ChatMessage :=
  {| cm_id := cm_id msg; cm_message := cm_message msg; cm_response := text;
     cm_timestamp := cm_timestamp msg |}.

(** [prev.map(msg => msg.id === tempId ? f(msg) : msg)] *)
Definition update_by_id (tempId : string) (f : ChatMessage -> ChatMessage)
    (prev : list ChatMessage) : list ChatMessage :=
  map (fun msg => if String.eqb (cm_id msg) tempId then f msg else msg) prev.

(** The message added optimistically, and the state rendered while the
    request is in flight. *)
Definition provisional (tempId userMessage : string) (now : N) : ChatMessage :=
  {| cm_id := tempId; cm_message := userMessage; cm_response := "";
     cm_timestamp := ISOString now |}.

Definition optimistic (tempId userMessage : string) (now : N) (st : State) : State :=
  setMessages (fun prev => prev ++ [provisional tempId userMessage now])
    (setLoading true (setInput "" st)).

(** The state updates of the [try] branch, of the [catch] branch, and of
    [finally]. *)
Definition on_resolved (tempId : string) (chatResponse : ChatResponse) (now' : N)
    (st : State) : State :=
  setLoading false
    (setMessages
       (update_by_id tempId
          (resolve_message ("msg-" +:+ pretty now') (response chatResponse)))
       st).

Definition on_rejected (tempId : string) (st : State) : State :=
  setLoading false (setMessages (update_by_id tempId (fail_message error_text)) st).

Definition handleSubmit (st : State) : M State :=
  if negb (truthy (trim (input st))) || loading st then ret st else
  let userMessage := trim (input st) in
  let* now := Date_now in
  let tempId := pretty now in
  let st := optimistic tempId userMessage now st in
  let* r := await (chatApi_sendMessage userMessage None) in
  match r with
  | Resolved chatResponse =>
      let* now' := Date_now in
      ret (on_resolved tempId chatResponse now' st)
  | Rejected _ => ret (on_rejected tempId st)
  end.

End Chat.

(** ** pages/Home.tsx, the project workspace (plan generation and chat) *)

Module Home.
Import Js Client.
Local Open Scope js_scope.

(** The part of the component state the chat and plan handlers touch. *)
Record State := {
  projects : list Project;
  selectedProject : option Project;
  chatMessages : list ChatMessage;
  chatInput : string;
  chatLoading : bool;
  planGenerating : bool;
}.

Definition setProjects (f : list Project -> list Project) (st : State) : State :=
  {| projects := f (projects st); selectedProject := selectedProject st;
     chatMessages := chatMessages st; chatInput := chatInput st;
     chatLoading := chatLoading st; planGenerating := planGenerating st |}.

Definition setSelectedProject (p : option Project) (st : State) : State :=
  {| projects := projects st; selectedProject := p;
     chatMessages := chatMessages st; chatInput := chatInput st;
     chatLoading := chatLoading st; planGenerating := planGenerating st |}.

Definition setChatMessages (f : list ChatMessage -> list ChatMessage) (st : State) : State :=
  {| projects := projects st; selectedProject := selectedProject st;
     chatMessages := f (chatMessages st); chatInput := chatInput st;
     chatLoading := chatLoading st; planGenerating := planGenerating st |}.

Definition setChatInput (s : string) (st : State) : State :=
  {| projects := projects st; selectedProject := selectedProject st;
     chatMessages := chatMessages st; chatInput := s;
     chatLoading := chatLoading st; planGenerating := planGenerating st |}.

Definition setChatLoading (b : bool) (st : State) : State :=
  {| projects := projects st; selectedProject := selectedProject st;
     chatMessages := chatMessages st; chatInput := chatInput st;
     chatLoading := b; planGenerating := planGenerating st |}.

Definition setPlanGenerating (b : bool) (st : State) : State :=
  {| projects := projects st; selectedProject := selectedProject st;
     chatMessages := chatMessages st; chatInput := chatInput st;
     chatLoading := chatLoading st; planGenerating := b |}.

(** [{ ...p, plan }] *)
Definition with_plan (text : string) (p : Project) : Project :=
  {| project_id := project_id p; title := title p; description := description p;
     due_date := due_date p; plan := Some text;
     created_at := created_at p; updated_at := updated_at p; todos := todos p |}.

(** [loadProjectDetails] reads [selectedProject] from the render it was
    created in, here the project the running handler was started with. *)
Definition loadProjectDetails (selected : option Project) (st : State) : M State :=
  match selected with
  | None => ret st
  | Some sel =>
      let* r := await (projectsApi_get (project_id sel)) in
      match r with
      | Resolved data =>
          ret (setProjects
                 (map (fun p => if String.eqb (project_id p) (project_id data)
                                then data else p))
                 (setSelectedProject (Some data) st))
      | Rejected _ => ret st
      end
  end.

Definition tempMessage (now : N) (text : string) : ChatMessage :=
  {| cm_id := "temp-" +:+ pretty now; cm_message := text; cm_response := "";
     cm_timestamp := ISOString now |}.

Definition settle_message (tempId : string) (f : ChatMessage -> ChatMessage)
    (st : State) : State :=
  setChatMessages (Chat.update_by_id tempId f) st.

Definition handleSendMessage (st : State) : M State :=
  match selectedProject st with
  | None => ret st
  | Some sel =>
      if negb (truthy (trim (chatInput st))) || chatLoading st then ret st else
      let userMessage := trim (chatInput st) in
      let st := setChatLoading true (setChatInput "" st) in
      let* now := Date_now in
      let temp := tempMessage now userMessage in
      let st := setChatMessages (fun prev => prev ++ [temp]) st in
      (* Check if this is a plan-related request *)
      let isPlanRequest :=
        includes (toLowerCase userMessage) "plan"
        || includes (toLowerCase userMessage) "execution"
        || planGenerating st in
      let* outcome :=
        if isPlanRequest && planGenerating st then
          (* Continue with plan generation using the specialized endpoint *)
          let* r := await (projectsApi_generatePlan (project_id sel) (Some userMessage)) in
          match r with
          | Resolved result =>
              if negb (needs_clarification result)
              then
                let* st := loadProjectDetails (Some sel) st in
                ret (Resolved (result_plan result, setPlanGenerating false st))
              else ret (Resolved (result_plan result, st))
          | Rejected e => ret (Rejected e)
          end
        else
          (* Regular chat message *)
          let* r := await (projectsApi_sendChatMessage (project_id sel) userMessage) in
          match r with
          | Resolved chatResponse =>
              if plan_updated chatResponse
              then
                let* st := loadProjectDetails (Some sel) st in
                ret (Resolved (pc_response chatResponse, st))
              else ret (Resolved (pc_response chatResponse, st))
          | Rejected e => ret (Rejected e)
          end in
      match outcome with
      | Resolved (response, st) =>
          let* now' := Date_now in
          ret (setChatLoading false
                 (settle_message (cm_id temp)
                    (Chat.resolve_message ("msg-" +:+ pretty now') response) st))
      | Rejected _ =>
          ret (setChatLoading false
                 (setPlanGenerating false
                    (settle_message (cm_id temp) (Chat.fail_message Chat.error_text) st)))
      end
  end.

Definition planRequestMessage : string :=
  "Please generate a detailed execution plan for this project.".

Definition plan_error_text : string :=
  "Sorry, I encountered an error generating the plan. Please try again.".

Definition handleGeneratePlan (st : State) : M State :=
  match selectedProject st with
  | None => ret st
  | Some sel =>
      if chatLoading st then ret st else
      let st := setChatLoading true (setPlanGenerating true st) in
      let* now := Date_now in
      let temp := tempMessage now planRequestMessage in
      let st := setChatMessages (fun prev => prev ++ [temp]) st in
      let* r := await (projectsApi_generatePlan (project_id sel) None) in
      match r with
      | Resolved result =>
          let* now' := Date_now in
          (* Add the interaction to chat history *)
          let st :=
            settle_message (cm_id temp)
              (Chat.resolve_message ("msg-" +:+ pretty now') (result_plan result)) st in
          (* If it's a complete plan (not a question), update the project *)
          let st :=
            if negb (needs_clarification result)
            then
              setProjects
                (map (fun p => if String.eqb (project_id p) (project_id sel)
                               then with_plan (result_plan result) p else p))
                (setSelectedProject (Some (with_plan (result_plan result) sel)) st)
            else st in
          ret (setChatLoading false (setPlanGenerating false st))
      | Rejected _ =>
          ret (setChatLoading false
                 (setPlanGenerating false
                    (settle_message (cm_id temp) (Chat.fail_message plan_error_text) st)))
      end
  end.

End Home.

(** ** pages/Settings.tsx, the password form *)

Module Settings.
Import Js Client.
Local Open Scope js_scope.

Record State := {
  loading : bool;
  error : string;
  success : string;
  currentPassword : string;
  newPassword : string;
  confirmPassword : string;
}.

Definition setError (s : string) (st : State) : State :=
  {| loading := loading st; error := s; success := success st;
     currentPassword := currentPassword st; newPassword := newPassword st;
     confirmPassword := confirmPassword st |}.

Definition setSuccess (s : string) (st : State) : State :=
  {| loading := loading st; error := error st; success := s;
     currentPassword := currentPassword st; newPassword := newPassword st;
     confirmPassword := confirmPassword st |}.

Definition setLoading (b : bool) (st : State) : State :=
  {| loading := b; error := error st; success := success st;
     currentPassword := currentPassword st; newPassword := newPassword st;
     confirmPassword := confirmPassword st |}.

Definition clearPasswords (st : State) : State :=
  {| loading := loading st; error := error st; success := success st;
     currentPassword := ""; newPassword := ""; confirmPassword := "" |}.

Definition handlePasswordUpdate (st : State) : M State :=
  let st := setSuccess "" (setError "" st) in
  if negb (String.eqb (newPassword st) (confirmPassword st))
  then ret (setError "New passwords do not match" st)
  else if Nat.ltb (String.length (newPassword st)) 6
  then ret (setError "New password must be at least 6 characters long" st)
  else
    let st := setLoading true st in
    let* r := await (settingsApi_updatePassword (currentPassword st) (newPassword st)) in
    match r with
    | Resolved _ =>
        ret (setLoading false
               (clearPasswords (setSuccess "Password updated successfully!" st)))
    | Rejected err => ret (setLoading false (setError (Js.message err) st))
    end.

End Settings.

(** ** pages/OAuthCallback.tsx *)

Module OAuthCallback.
Import Js Client.
Local Open Scope js_scope.

Inductive Status := processing | success | error.

Record State := {
  status : Status;
  message : string;
}.

Definition initial : State := {| status := processing; message := "" |}.

(** The query string, in order; [get] is [URLSearchParams.get]: the first
    value under the name, or null. *)
Definition SearchParams : Type := list (string * string).

Definition get (name : string) (searchParams : SearchParams) : option string :=
  snd <$> find (fun kv => String.eqb (fst kv) name) searchParams.

(** The body of the [useEffect]. *)
Definition onCallback (searchParams : SearchParams) (st : State) : M State :=
  let code := get "code" searchParams in
  let state := get "state" searchParams in
  let error_ := get "error" searchParams in
  if truthy_opt error_ then
    effect (SetTimeout (NavigateTo "/settings") 3000);;
    ret {| status := error; message := "Authentication failed. Please try again." |}
  else if negb (truthy_opt code) || negb (truthy_opt state) then
    effect (SetTimeout (NavigateTo "/settings") 3000);;
    ret {| status := error; message := "Missing authorization code. Please try again." |}
  else
    let* origin := location_origin in
    let redirectUri := origin +:+ "/settings/oauth/callback" in
    let* r := await (settingsApi_completeGoogleCalendarOAuth
                       (default "" code) (default "" state) redirectUri) in
    match r with
    | Resolved _ =>
        effect (SetTimeout (NavigateTo "/settings?connected=true") 2000);;
        ret {| status := success; message := "Google Calendar connected successfully!" |}
    | Rejected err =>
        effect (SetTimeout (NavigateTo "/settings") 3000);;
        ret {| status := error; message := Js.message err |}
    end.

End OAuthCallback.

(** ** contexts/AuthContext.tsx *)

Module AuthContext.
Import Js Client.
Local Open Scope js_scope.

Record State := {
  user : option User;
  loading : bool;
}.

Definition initial : State := {| user := None; loading := true |}.

Definition setUser (u : option User) (st : State) : State :=
  {| user := u; loading := loading st |}.

Definition setLoading (b : bool) (st : State) : State :=
  {| user := user st; loading := b |}.

(** [isAuthenticated: !!user] *)
Definition isAuthenticated (st : State) : bool :=
  match user st with
  | Some _ => true
  | None => false
  end.

(** The [useEffect] run once on mount. *)
Definition onMount (st : State) : M State :=
  let* token := getItem "token" in
  if truthy_opt token then
    let* r := await authApi_verifyToken in
    match r with
    | Resolved userData => ret (setLoading false (setUser (Some userData) st))
    | Rejected _ => removeItem "token";; ret (setLoading false st)
    end
  else ret (setLoading false st).


Definition login (email password : string) (st : State) : M (Settled State) :=
  let* r := await (authApi_login email password) in
  match r with
  | Resolved res =>
      setItem "token" (auth_token res);;
      ret (Resolved (setUser (Some (auth_user res)) st))
  | Rejected e => ret (Rejected e)
  end.

Definition logout (st : State) : M State :=
  removeItem "token";;
  ret (setUser None st).

End AuthContext.

(** ** services/api.ts over [fetch]: the [request] helper *)

Module Api.
Import Js.

(** JSON values.  A number is kept as the text [String(n)] gives for it
    ([1e+21], [0.5], [-3]), which determines the number up to the sign of
    zero; both zeros give [0]. *)
#[warnings="-register-all"]
Inductive json :=
  | JNull
  | JBool (b : bool)
  | JNum (text : string)
  | JStr (s : string)
  | JArr (items : list json)
  | JObj (fields : gmap string json).

(** [JSON.stringify] of an object literal: properties whose value is
    [undefined] are left out. *)
Definition obj (props : list (string * option json)) : json :=
  JObj (foldl (fun m kv =>
                 match kv.2 with
                 | Some v => <[kv.1 := v]> m
                 | None => m
                 end) ∅ props).

Definition opt_str (o : option string) : option json := JStr <$> o.

(** [v.prop] for a property name that is neither an index nor built in:
    a [TypeError] on [null], [undefined] on the other primitives and on
    arrays. *)
Definition null_read_message (prop : string) : string :=
  "Cannot read properties of null (reading '" +:+ prop +:+ "')".

Definition get_property (v : json) (prop : string) : Settled (option json) :=
  match v with
  | JNull => Rejected (TypeError (null_read_message prop))
  | JObj fields => Resolved (fields !! prop)
  | _ => Resolved None
  end.

(** The [error] property of a parsed body that is not [null]. *)
Definition error_field (v : json) : option json :=
  match v with
  | JObj fields => fields !! "error"
  | _ => None
  end.

Definition truthy_json (v : option json) : bool :=
  match v with
  | None | Some JNull => false
  | Some (JBool b) => b
  | Some (JNum text) => negb (String.eqb text "0")
  | Some (JStr s) => truthy s
  | Some (JArr _) | Some (JObj _) => true
  end.

(** [String(v)], as [new Error(v)] applies it to its argument.  An array
    joins its elements with commas, [null] elements giving the empty string.
    An object goes through its own [toString] property if it has one, which
    in a parsed body is never a function, so that the conversion fails;
    otherwise it is [Object.prototype.toString]. *)
Definition to_primitive_message : string := "Cannot convert object to primitive value".

Fixpoint ToString (v : json) : Settled string :=
  match v with
  | JNull => Resolved "null"
  | JBool true => Resolved "true"
  | JBool false => Resolved "false"
  | JNum text => Resolved text
  | JStr s => Resolved s
  | JArr items =>
      match (fix each (l : list json) : Settled (list string) :=
               match l with
               | [] => Resolved []
               | x :: rest =>
                   match match x with JNull => Resolved "" | _ => ToString x end with
                   | Rejected e => Rejected e
                   | Resolved part =>
                       match each rest with
                       | Rejected e => Rejected e
                       | Resolved parts => Resolved (part :: parts)
                       end
                   end
               end) items with
      | Rejected e => Rejected e
      | Resolved parts => Resolved (String.concat "," parts)
      end
  | JObj fields =>
      if bool_decide (is_Some (fields !! "toString"))
      then Rejected (TypeError to_primitive_message)
      else Resolved "[object Object]"
  end.

(** [new Error(v)] for a [v] that is not [undefined]. *)
Definition new_Error (v : json) : Exn :=
  match ToString v with
  | Resolved text => Error text
  | Rejected e => e
  end.

(** *** Headers *)

(** [let? x := r in k]: the rest runs if [r] returned and is skipped if it
    threw. *)
Definition and_then {A B} (r : Settled A) (k : A -> Settled B) : Settled B :=
  match r with
  | Resolved a => k a
  | Rejected e => Rejected e
  end.

Declare Scope settled_scope.
Delimit Scope settled_scope with settled.
Notation "'let?' x ':=' r 'in' k" := (and_then r (fun x => k))
  (at level 10, x pattern, r at level 100, k at level 200) : settled_scope.
Local Open Scope settled_scope.

Definition is_alphanumeric (c : ascii) : bool :=
  let n := nat_of_ascii c in
  (Nat.leb 48 n && Nat.leb n 57) || (Nat.leb 65 n && Nat.leb n 90)
  || (Nat.leb 97 n && Nat.leb n 122).

Definition one_of (chars : string) (c : ascii) : bool :=
  existsb (Ascii.eqb c) (String.list_ascii_of_string chars).

(** A header name is a token: one or more letters, digits and the marks
    below. *)
Definition is_header_name (name : string) : bool :=
  negb (String.eqb name "")
  && forallb (fun c => is_alphanumeric c || one_of "!#$%&'*+-.^_`|~" c)
       (String.list_ascii_of_string name).

(** HTTP white space: TAB, LF, CR and SPACE. *)
Definition is_http_whitespace (c : ascii) : bool :=
  let n := nat_of_ascii c in
  Nat.eqb n 9 || Nat.eqb n 10 || Nat.eqb n 13 || Nat.eqb n 32.

Fixpoint strip_start (l : list ascii) : list ascii :=
  match l with
  | c :: l' => if is_http_whitespace c then strip_start l' else l
  | [] => []
  end.

(** A value is normalized by removing leading and trailing HTTP white
    space. *)
Definition normalize (value : string) : string :=
  String.string_of_list_ascii
    (rev (strip_start (rev (strip_start (String.list_ascii_of_string value))))).

(** A normalized value is a header value unless it contains NUL, LF or
    CR. *)
Definition is_header_value (value : string) : bool :=
  forallb (fun c => let n := nat_of_ascii c in
                    negb (Nat.eqb n 0 || Nat.eqb n 10 || Nat.eqb n 13))
    (String.list_ascii_of_string value).

(** The value a header gets, if the name and the value are accepted. *)
Definition header_value (name value : string) : option string :=
  if is_header_name name && is_header_value (normalize value)
  then Some (normalize value) else None.

(** The [TypeError] of an operation given a name or a value that is not
    accepted; [operation] is how the browser names it in the message. *)
Definition invalid_header (operation name : string) : Exn :=
  TypeError (operation +:+ ": Invalid "
             +:+ (if is_header_name name then "value" else "name")).

(** A [Headers] object: values under lower-cased names, the values of a
    repeated name joined by a comma and a space. *)
Abbreviation Headers := (gmap string string).

(** [has] and [get], for a [name] that is a header name. *)
Definition Headers_has (name : string) (h : Headers) : bool :=
  bool_decide (is_Some (h !! toLowerCase name)).

Definition Headers_get (name : string) (h : Headers) : option string :=
  h !! toLowerCase name.

Definition Headers_set (name value : string) (h : Headers) : Settled Headers :=
  match header_value name value with
  | Some v => Resolved (<[toLowerCase name := v]> h)
  | None => Rejected (invalid_header "Failed to execute 'set' on 'Headers'" name)
  end.

(** Filling a header list from a record: each entry is appended. *)
Definition Headers_append (operation : string) (name value : string) (h : Headers)
    : Settled Headers :=
  match header_value name value with
  | Some v =>
      match h !! toLowerCase name with
      | Some old => Resolved (<[toLowerCase name := old +:+ ", " +:+ v]> h)
      | None => Resolved (<[toLowerCase name := v]> h)
      end
  | None => Rejected (invalid_header operation name)
  end.

Fixpoint Headers_fill (operation : string) (entries : list (string * string)) (h : Headers)
    : Settled Headers :=
  match entries with
  | [] => Resolved h
  | kv :: rest =>
      let? h' := Headers_append operation kv.1 kv.2 h in
      Headers_fill operation rest h'
  end.

(** [new Headers(init)], [init] the entries of a record, in property
    order. *)
Definition Headers_new (init : list (string * string)) : Settled Headers :=
  Headers_fill "Failed to construct 'Headers'" init ∅.

(** *** Plain objects with string values *)

(** The own properties of an object in property order: the array indices
    in ascending order, then the other names in the order they were
    added. *)
Definition PlainObject : Type := list (string * string).

Definition is_digit (c : ascii) : bool :=
  let n := nat_of_ascii c in Nat.leb 48 n && Nat.leb n 57.

Fixpoint digits_value (s : string) (acc : N) : option N :=
  match s with
  | EmptyString => Some acc
  | String c s' =>
      if is_digit c
      then digits_value s' (10 * acc + (N.of_nat (nat_of_ascii c) - 48))%N
      else None
  end.

(** An array index: the decimal text, without leading zeros, of an integer
    below 2^32 - 1. *)
Definition array_index (name : string) : option N :=
  match name with
  | EmptyString => None
  | String c rest =>
      if Ascii.eqb c "0" && negb (String.eqb rest "") then None
      else
        match digits_value name 0 with
        | Some n => if N.ltb n 4294967295 then Some n else None
        | None => None
        end
  end.

Definition comes_before (name name' : string) : bool :=
  match array_index name, array_index name' with
  | Some n, Some n' => N.ltb n n'
  | Some _, None => true
  | None, _ => false
  end.

Definition Object_has (name : string) (o : PlainObject) : bool :=
  existsb (fun kv => String.eqb kv.1 name) o.

Definition Object_get (name : string) (o : PlainObject) : option string :=
  snd <$> find (fun kv => String.eqb kv.1 name) o.

(** A new property takes its place in property order. *)
Fixpoint Object_define (name value : string) (o : PlainObject) : PlainObject :=
  match o with
  | [] => [(name, value)]
  | kv :: rest =>
      if comes_before name kv.1 then (name, value) :: o
      else kv :: Object_define name value rest
  end.

(** [o[name] = value]: an existing property keeps its place. *)
Definition Object_set (name value : string) (o : PlainObject) : PlainObject :=
  if Object_has name o
  then map (fun kv => if String.eqb kv.1 name then (name, value) else kv) o
  else Object_define name value o.

(** [{ ...base, ...entries }], [entries] the properties of a record in
    property order. *)
Definition spread (base : PlainObject) (entries : list (string * string)) : PlainObject :=
  foldl (fun o kv => Object_set kv.1 kv.2 o) base entries.

(** *** The request *)

Record RequestInit := {
  method : option string;
  body : option json;           (* the JSON text, kept as the value it denotes *)
  init_headers : list (string * string);
}.

Definition GET : RequestInit :=
  {| method := None; body := None; init_headers := [] |}.

Definition with_body (m : string) (b : json) : RequestInit :=
  {| method := Some m; body := Some b; init_headers := [] |}.

(** What [fetch] is asked for: the URL, the method, the body, and the
    headers the caller gives. *)
Record HttpRequest := {
  url : string;
  req_method : option string;
  req_headers : Headers;
  req_body : option json;
}.

(** A [Response]: [ok] is [status] in 200..299, [json()] resolves to the
    parsed body or rejects. *)
Record Response := {
  status : N;
  json_ : Settled json;
}.

Definition ok (r : Response) : bool :=
  N.leb 200 (status r) && N.leb (status r) 299.

Record Env := {
  storage : gmap string string;            (* localStorage *)
  VITE_API_BASE_URL : option string;       (* import.meta.env *)
  fetch : HttpRequest -> Settled Response;
}.

Definition API_BASE_URL (env : Env) : string :=
  match VITE_API_BASE_URL env with
  | Some u => if truthy u then u else "/api"
  | None => "/api"
  end.

(** The two branches after [fetch] has resolved. *)
Definition settle (response : Response) : Settled json :=
  if negb (ok response) then
    let error :=
      match json_ response with
      | Resolved v => v
      | Rejected _ => JObj {[ "error" := JStr "Request failed" ]}
      end in
    match get_property error "error" with
    | Rejected e => Rejected e
    | Resolved p =>
        if truthy_json p
        then Rejected (new_Error (default JNull p))
        else Rejected (Error ("HTTP error! status: " +:+ pretty (status response)))
    end
  else json_ response.

(** The request that [request] hands to [fetch] (current revision, with a
    [Headers] object), if building it does not throw. *)
Definition build (env : Env) (endpoint : string) (options : RequestInit)
    : Settled HttpRequest :=
  let token := storage env !! "token" in
  let? headers := Headers_new (init_headers options) in
  let? headers :=
    if negb (Headers_has "Content-Type" headers) && bool_decide (is_Some (body options))
    then Headers_set "Content-Type" "application/json" headers
    else Resolved headers in
  let? headers :=
    match token with
    | Some t => if truthy t then Headers_set "Authorization" ("Bearer " +:+ t) headers
                else Resolved headers
    | None => Resolved headers
    end in
  Resolved {| url := API_BASE_URL env +:+ endpoint;
              req_method := method options;
              req_headers := headers;
              req_body := body options |}.

Definition request (env : Env) (endpoint : string) (options : RequestInit) : Settled json :=
  let? sent := build env endpoint options in
  let? response := fetch env sent in
  settle response.

(** The earlier revision builds the headers as an object literal,
    [{ 'Content-Type': 'application/json', ...options.headers }], and sets
    [headers['Authorization']] on it. *)
Definition build_legacy_headers (env : Env) (options : RequestInit) : PlainObject :=
  let token := storage env !! "token" in
  let headers := spread [("Content-Type", "application/json")] (init_headers options) in
  match token with
  | Some t => if truthy t then Object_set "Authorization" ("Bearer " +:+ t) headers
              else headers
  | None => headers
  end.

(** [fetch] reads the object into the headers of its request, property by
    property, and rejects with a [TypeError] if it cannot. *)
Definition build_legacy (env : Env) (endpoint : string) (options : RequestInit)
    : Settled HttpRequest :=
  let? headers :=
    Headers_fill "Failed to execute 'fetch' on 'Window'"
      (build_legacy_headers env options) ∅ in
  Resolved {| url := API_BASE_URL env +:+ endpoint;
              req_method := method options;
              req_headers := headers;
              req_body := body options |}.

Definition request_legacy (env : Env) (endpoint : string) (options : RequestInit)
    : Settled json :=
  let? sent := build_legacy env endpoint options in
  let? response := fetch env sent in
  settle response.

(** *** URL encoding *)

Definition hex_digit (n : nat) : ascii :=
  nth n (String.list_ascii_of_string "0123456789ABCDEF") "0"%char.

Definition percent (byte : nat) : string :=
  String "%" (String (hex_digit (byte / 16)) (String (hex_digit (byte mod 16)) "")).

(** The UTF-8 bytes of a code unit below U+0100. *)
Definition utf8 (c : ascii) : list nat :=
  let n := nat_of_ascii c in
  if Nat.ltb n 128 then [n] else [192 + n / 64; 128 + n mod 64].

Fixpoint encode (keep : ascii -> bool) (space : string) (s : string) : string :=
  match s with
  | EmptyString => EmptyString
  | String c s' =>
      (if keep c then String c ""
       else if Ascii.eqb c " " then space
       else String.concat "" (map percent (utf8 c)))
      +:+ encode keep space s'
  end.

Definition encodeURIComponent (s : string) : string :=
  encode (fun c => is_alphanumeric c || one_of "-_.!~*'()" c) "%20" s.

(** [new URLSearchParams(record).toString()] *)
Definition form_urlencoded (s : string) : string :=
  encode (fun c => is_alphanumeric c || one_of "*-._" c) "+" s.

Definition URLSearchParams_toString (params : list (string * string)) : string :=
  String.concat "&"
    (map (fun kv => form_urlencoded kv.1 +:+ "=" +:+ form_urlencoded kv.2) params).

(** *** The client functions: the endpoint and options each passes to
    [request]. *)

Definition DELETE : RequestInit :=
  {| method := Some "DELETE"; body := None; init_headers := [] |}.

Definition authApi_signup (email password : string) (name : option string)
    : string * RequestInit :=
  ("/auth/signup",
   with_body "POST" (obj [("email", Some (JStr email)); ("password", Some (JStr password));
                          ("name", opt_str name)])).

Definition authApi_login (email password : string) : string * RequestInit :=
  ("/auth/login",
   with_body "POST" (obj [("email", Some (JStr email)); ("password", Some (JStr password))])).

Definition authApi_verifyToken : string * RequestInit := ("/auth/verify", GET).

(** [JSON.stringify] keeps a [null] and leaves an absent property out. *)
Definition nullable_json (v : Client.Nullable) : option json :=
  match v with
  | Client.Absent => None
  | Client.Null => Some JNull
  | Client.Present s => Some (JStr s)
  end.

Definition proposed_json (p : Client.ProposedProject) : json :=
  obj [("title", Some (JStr (Client.pp_title p)));
       ("description", Some (JStr (Client.pp_description p)));
       ("due_date", nullable_json (Client.pp_due_date p))].

Definition chatApi_sendMessage (message : string)
    (existingProjects : option (list Client.ProposedProject)) : string * RequestInit :=
  ("/chat",
   with_body "POST"
     (obj [("message", Some (JStr message));
           ("existing_projects", (fun ps => JArr (map proposed_json ps)) <$> existingProjects)])).

Definition chatApi_getHistory : string * RequestInit := ("/chat/history", GET).

Definition project_data (title : option string) (description due_date : option string) : json :=
  obj [("title", opt_str title); ("description", opt_str description);
       ("due_date", opt_str due_date)].

Definition projectsApi_getAll : string * RequestInit := ("/projects", GET).

Definition projectsApi_create (title : string) (description due_date : option string)
    : string * RequestInit :=
  ("/projects", with_body "POST" (project_data (Some title) description due_date)).

Definition projectsApi_get (projectId : string) : string * RequestInit :=
  ("/projects/" +:+ projectId, GET).

Definition projectsApi_update (projectId : string) (title description due_date : option string)
    : string * RequestInit :=
  ("/projects/" +:+ projectId, with_body "PUT" (project_data title description due_date)).

Definition projectsApi_delete (projectId : string) : string * RequestInit :=
  ("/projects/" +:+ projectId, DELETE).

Definition projectsApi_addTodo (projectId text : string) : string * RequestInit :=
  ("/projects/" +:+ projectId +:+ "/todos",
   with_body "POST" (obj [("text", Some (JStr text)); ("completed", Some (JBool false))])).

Definition projectsApi_updateTodo (projectId todoId : string)
    (text : option string) (completed : option bool) : string * RequestInit :=
  ("/projects/" +:+ projectId +:+ "/todos/" +:+ todoId,
   with_body "PUT" (obj [("text", opt_str text); ("completed", JBool <$> completed)])).

Definition projectsApi_deleteTodo (projectId todoId : string) : string * RequestInit :=
  ("/projects/" +:+ projectId +:+ "/todos/" +:+ todoId, DELETE).

Definition projectsApi_sendChatMessage (projectId message : string) : string * RequestInit :=
  ("/projects/" +:+ projectId +:+ "/chat",
   with_body "POST" (obj [("message", Some (JStr message))])).

Definition projectsApi_getChatHistory (projectId : string) : string * RequestInit :=
  ("/projects/" +:+ projectId +:+ "/chat/history", GET).

Record TimePreference := {
  weekdays : option string;
  weekends : option string;
  all_time : bool;
}.

Record UserPreferences := {
  work_study : TimePreference;
  gym_activity : TimePreference;
  personal_goals : TimePreference;
}.

Definition time_preference_json (t : TimePreference) : json :=
  obj [("weekdays", opt_str (weekdays t)); ("weekends", opt_str (weekends t));
       ("all_time", Some (JBool (all_time t)))].

Definition settingsApi_updatePassword (currentPassword newPassword : string)
    : string * RequestInit :=
  ("/settings/password",
   with_body "POST" (obj [("current_password", Some (JStr currentPassword));
                          ("new_password", Some (JStr newPassword))])).

Definition settingsApi_getGoogleCalendarStatus : string * RequestInit :=
  ("/settings/google-calendar/status", GET).

Definition settingsApi_getGoogleCalendarAuthUrl (redirectUri : option string)
    : string * RequestInit :=
  let params :=
    match redirectUri with
    | Some u => if truthy u then "?redirect_uri=" +:+ encodeURIComponent u else ""
    | None => ""
    end in
  ("/settings/google-calendar/authorize" +:+ params, GET).

Definition settingsApi_completeGoogleCalendarOAuth (code state redirectUri : string)
    : string * RequestInit :=
  let params :=
    URLSearchParams_toString
      [("code", code); ("state", state); ("redirect_uri", redirectUri)] in
  ("/settings/google-calendar/callback?" +:+ params, GET).

Definition settingsApi_disconnectGoogleCalendar : string * RequestInit :=
  ("/settings/google-calendar/disconnect", DELETE).

Definition settingsApi_getPreferences : string * RequestInit :=
  ("/settings/preferences", GET).

Definition settingsApi_updatePreferences (preferences : UserPreferences)
    : string * RequestInit :=
  ("/settings/preferences",
   with_body "PUT"
     (obj [("work_study", Some (time_preference_json (work_study preferences)));
           ("gym_activity", Some (time_preference_json (gym_activity preferences)));
           ("personal_goals", Some (time_preference_json (personal_goals preferences)))])).

(** The requests the client makes: every function of [authApi], [chatApi],
    [projectsApi] and [settingsApi]. *)
Inductive client_call : string * RequestInit -> Prop :=
  | cc_signup e p n : client_call (authApi_signup e p n)
  | cc_login e p : client_call (authApi_login e p)
  | cc_verifyToken : client_call authApi_verifyToken
  | cc_sendMessage m ps : client_call (chatApi_sendMessage m ps)
  | cc_getHistory : client_call chatApi_getHistory
  | cc_getAll : client_call projectsApi_getAll
  | cc_create t d dd : client_call (projectsApi_create t d dd)
  | cc_get i : client_call (projectsApi_get i)
  | cc_update i t d dd : client_call (projectsApi_update i t d dd)
  | cc_delete i : client_call (projectsApi_delete i)
  | cc_addTodo i t : client_call (projectsApi_addTodo i t)
  | cc_updateTodo i j t c : client_call (projectsApi_updateTodo i j t c)
  | cc_deleteTodo i j : client_call (projectsApi_deleteTodo i j)
  | cc_sendChatMessage i m : client_call (projectsApi_sendChatMessage i m)
  | cc_getChatHistory i : client_call (projectsApi_getChatHistory i)
  | cc_updatePassword c n : client_call (settingsApi_updatePassword c n)
  | cc_getGoogleCalendarStatus : client_call settingsApi_getGoogleCalendarStatus
  | cc_getGoogleCalendarAuthUrl u : client_call (settingsApi_getGoogleCalendarAuthUrl u)
  | cc_completeGoogleCalendarOAuth c s u :
      client_call (settingsApi_completeGoogleCalendarOAuth c s u)
  | cc_disconnectGoogleCalendar : client_call settingsApi_disconnectGoogleCalendar
  | cc_getPreferences : client_call settingsApi_getPreferences
  | cc_updatePreferences p : client_call (settingsApi_updatePreferences p).

(** The request behind each call the pages make.  [generatePlan] belongs
    to a revision of api.ts that is not among the sources. *)
Definition wire {T} (c : Client.ApiCall T) : option (string * RequestInit) :=
  match c with
  | Client.authApi_signup e p n => Some (authApi_signup e p n)
  | Client.authApi_login e p => Some (authApi_login e p)
  | Client.authApi_verifyToken => Some authApi_verifyToken
  | Client.chatApi_sendMessage m ps => Some (chatApi_sendMessage m ps)
  | Client.chatApi_getHistory => Some chatApi_getHistory
  | Client.projectsApi_create d =>
      Some (projectsApi_create (Client.data_title d) (Client.data_description d)
              (Client.data_due_date d))
  | Client.projectsApi_get i => Some (projectsApi_get i)
  | Client.projectsApi_sendChatMessage i m => Some (projectsApi_sendChatMessage i m)
  | Client.projectsApi_generatePlan _ _ => None
  | Client.settingsApi_updatePassword c n => Some (settingsApi_updatePassword c n)
  | Client.settingsApi_completeGoogleCalendarOAuth c s u =>
      Some (settingsApi_completeGoogleCalendarOAuth c s u)
  end.

End Api.

(** ** The project store behind [/projects] *)

Module Backend.
Import Js Api.

(** Modelled from the spec: the persistence layer's Project table and the
    API layer's create, get and update handlers for [/api/projects]; the
    Python back end is not among the sources.  The spec gives a Project an
    id, an owning user, a required title, an optional description, due date
    and plan text, and created/updated time stamps; create/get/update are
    "standard CRUD" with a bearer token and an ownership check on every
    operation, and errors are JSON error objects. *)
Record StoredProject := {
  owner : string;
  sp_title : string;
  sp_description : option string;
  sp_due_date : option string;
  sp_plan : option string;
  sp_created_at : N;
  sp_updated_at : N;
}.

(** Modelled from the spec: the relational store, as far as projects and
    bearer tokens go. *)
Record Store := {
  sessions : gmap string string;          (* token -> user id *)
  rows : gmap string StoredProject;       (* project id -> row *)
  next_id : N;
  time : N;
}.

(** Modelled from the spec: the fields a client may send. *)
Record Patch := {
  p_title : option string;
  p_description : option string;
  p_due_date : option string;
  p_plan : option string;
}.

(** Modelled from the spec: create persists a new row under a fresh id. *)
Definition create (user : string) (title : string) (description due_date : option string)
    (s : Store) : string * StoredProject * Store :=
  let id := pretty (next_id s) in
  let row := {| owner := user; sp_title := title; sp_description := description;
                sp_due_date := due_date; sp_plan := None;
                sp_created_at := time s; sp_updated_at := time s |} in
  (id, row,
   {| sessions := sessions s; rows := <[id := row]> (rows s);
      next_id := N.succ (next_id s); time := N.succ (time s) |}).

(** Modelled from the spec: get returns the caller's own row. *)
Definition get (user id : string) (s : Store) : option StoredProject :=
  match rows s !! id with
  | Some row => if String.eqb (owner row) user then Some row else None
  | None => None
  end.

(** Modelled from the spec: update replaces the fields the patch carries
    and leaves every other one as it is.  The spec attaches no behaviour to
    the two time stamps beyond their presence. *)
Definition apply_patch (p : Patch) (row : StoredProject) : StoredProject :=
  {| owner := owner row;
     sp_title := default (sp_title row) (p_title p);
     sp_description := match p_description p with Some d => Some d | None => sp_description row end;
     sp_due_date := match p_due_date p with Some d => Some d | None => sp_due_date row end;
     sp_plan := match p_plan p with Some t => Some t | None => sp_plan row end;
     sp_created_at := sp_created_at row;
     sp_updated_at := sp_updated_at row |}.

Definition update (user id : string) (p : Patch) (s : Store) : option (StoredProject * Store) :=
  match get user id s with
  | Some row =>
      let row' := apply_patch p row in
      Some (row', {| sessions := sessions s; rows := <[id := row']> (rows s);
                     next_id := next_id s; time := N.succ (time s) |})
  | None => None
  end.

(** Modelled from the spec: the HTTP face of the three operations. *)
Definition str_field (name : string) (v : json) : option string :=
  match v with
  | JObj fields =>
      match fields !! name with
      | Some (JStr s) => Some s
      | _ => None
      end
  | _ => None
  end.

Definition project_json (id : string) (row : StoredProject) : json :=
  obj [("id", Some (JStr id));
       ("title", Some (JStr (sp_title row)));
       ("description", opt_str (sp_description row));
       ("due_date", opt_str (sp_due_date row));
       ("plan", opt_str (sp_plan row));
       ("created_at", Some (JStr (pretty (sp_created_at row))));
       ("updated_at", Some (JStr (pretty (sp_updated_at row))));
       ("todos", Some (JArr []))].

Definition reply (code : N) (v : json) : Response :=
  {| status := code; json_ := Resolved v |}.

Definition error_reply (code : N) (text : string) : Response :=
  reply code (obj [("error", Some (JStr text))]).

Fixpoint strip_prefix (p s : string) : option string :=
  match p, s with
  | EmptyString, _ => Some s
  | String a p', String b s' => if Ascii.eqb a b then strip_prefix p' s' else None
  | String _ _, EmptyString => None
  end.

Definition authenticate (s : Store) (req : HttpRequest) : option string :=
  match Headers_get "Authorization" (req_headers req) with
  | Some h =>
      match strip_prefix "Bearer " h with
      | Some token => sessions s !! token
      | None => None
      end
  | None => None
  end.

Definition patch_of (v : json) : Patch :=
  {| p_title := str_field "title" v;
     p_description := str_field "description" v;
     p_due_date := str_field "due_date" v;
     p_plan := str_field "plan" v |}.

Definition serve (s : Store) (req : HttpRequest) : Response * Store :=
  match authenticate s req with
  | None => (error_reply 401 "Not authenticated", s)
  | Some user =>
      match strip_prefix "/api/projects" (url req) with
      | Some EmptyString =>
          match req_method req, req_body req with
          | Some "POST", Some b =>
              match str_field "title" b with
              | Some t =>
                  let '(id, row, s') :=
                    create user t (str_field "description" b) (str_field "due_date" b) s in
                  (reply 201 (project_json id row), s')
              | None => (error_reply 400 "title is required", s)
              end
          | _, _ => (error_reply 400 "Bad request", s)
          end
      | Some (String "/" id) =>
          match req_method req, req_body req with
          | None, _ =>
              match get user id s with
              | Some row => (reply 200 (project_json id row), s)
              | None => (error_reply 404 "Project not found", s)
              end
          | Some "PUT", Some b =>
              match update user id (patch_of b) s with
              | Some (row, s') => (reply 200 (project_json id row), s')
              | None => (error_reply 404 "Project not found", s)
              end
          | _, _ => (error_reply 400 "Bad request", s)
          end
      | _ => (error_reply 404 "Not found", s)
      end
  end.

(** A browser whose [fetch] reaches this server in state [s]. *)
Definition browser (token : option string) (s : Store) : Env :=
  {| storage := match token with Some t => {[ "token" := t ]} | None => ∅ end;
     VITE_API_BASE_URL := None;
     fetch := fun req => Resolved (serve s req).1 |}.

(** One client call against the server: what [request] settles to and the
    server's next state, which is [s] if no request is made. *)
Definition roundtrip (token : option string) (call : string * RequestInit) (s : Store)
    : Settled json * Store :=
  (request (browser token s) call.1 call.2,
   match build (browser token s) call.1 call.2 with
   | Resolved sent => (serve s sent).2
   | Rejected _ => s
   end).

End Backend.

(** ** Frame conditions used in the statements below *)

Module Frame.
Import Js Client.

(** [new] is [old] with [f] applied in place to the elements named
    [tempId], every other element, the length and the order unchanged. *)
Definition updated_in_place {A} (id_of : A -> string) (tempId : string) (f : A -> A)
    (old new : list A) : Prop :=
  length new = length old /\
  forall i m, old !! i = Some m ->
    new !! i = Some (if String.eqb (id_of m) tempId then f m else m).

(** A proposal that differs from [p] at most in its [selected] flag, which
    is flipped exactly when [p] is the proposal [projectId]. *)
Definition toggled (projectId : string) (p p' : GoalChat.EditableProject) : Prop :=
  GoalChat.ep_title p' = GoalChat.ep_title p /\
  GoalChat.ep_description p' = GoalChat.ep_description p /\
  GoalChat.ep_due_date p' = GoalChat.ep_due_date p /\
  GoalChat.ep_id p' = GoalChat.ep_id p /\
  GoalChat.conversationId p' = GoalChat.conversationId p /\
  GoalChat.selected p' =
    (if String.eqb (GoalChat.ep_id p) projectId
     then negb (GoalChat.selected p) else GoalChat.selected p).

(** A message that differs from [m] at most in its proposals, which are
    related one by one, in order, by [R]. *)
Definition same_message (R : GoalChat.EditableProject -> GoalChat.EditableProject -> Prop)
    (m m' : GoalChat.Message) : Prop :=
  GoalChat.msg_id m' = GoalChat.msg_id m /\
  GoalChat.message m' = GoalChat.message m /\
  GoalChat.msg_response m' = GoalChat.msg_response m /\
  GoalChat.timestamp m' = GoalChat.timestamp m /\
  GoalChat.requiresConfirmation m' = GoalChat.requiresConfirmation m /\
  option_Forall2 (Forall2 R) (GoalChat.proposedProjects m) (GoalChat.proposedProjects m').

Definition same_conversation (R : GoalChat.EditableProject -> GoalChat.EditableProject -> Prop)
    (c c' : GoalChat.Conversation) : Prop :=
  GoalChat.conv_id c' = GoalChat.conv_id c /\
  GoalChat.conv_title c' = GoalChat.conv_title c /\
  GoalChat.createdAt c' = GoalChat.createdAt c /\
  Forall2 (same_message R) (GoalChat.messages c) (GoalChat.messages c').

(** The [projectsApi.create] call made for a proposal. *)
Definition create_call (p : GoalChat.EditableProject) : Call :=
  mkCall (projectsApi_create (GoalChat.create_data p)).

(** The conversations [new] are the conversations [old], in order, each
    with its own id, title and creation time; the messages of those named
    [cid] are updated in place at [tempId] by [f], the messages of the
    others are unchanged. *)
Definition settled_in (cid tempId : string) (f : GoalChat.Message -> GoalChat.Message)
    (old new : list GoalChat.Conversation) : Prop :=
  Forall2 (fun c c' =>
      GoalChat.conv_id c' = GoalChat.conv_id c /\
      GoalChat.conv_title c' = GoalChat.conv_title c /\
      GoalChat.createdAt c' = GoalChat.createdAt c /\
      if String.eqb (GoalChat.conv_id c) cid
      then updated_in_place GoalChat.msg_id tempId f
             (GoalChat.messages c) (GoalChat.messages c')
      else GoalChat.messages c' = GoalChat.messages c)
    old new.

(** Every current conversation id names a conversation of the list: the
    page only ever selects a conversation it shows. *)
Definition well_formed (st : GoalChat.State) : Prop :=
  forall cid, GoalChat.currentConversationId st = Some cid -> cid <> "" ->
    exists conv, conv ∈ GoalChat.conversations st /\ GoalChat.conv_id conv = cid.

End Frame.

(** ** Sample runs *)

Module Example.
Import Js Client.

Definition chat_response : ChatResponse :=
  {| response := "Here are two projects.";
     proposed_projects :=
       Some [ {| pp_title := "Learn Go"; pp_description := "Read a book";
                 pp_due_date := Null |};
              {| pp_title := "Run 5k"; pp_description := "";
                 pp_due_date := Present "2026-01-31" |} ];
     requires_confirmation := Some true |}.

(** A server that proposes two projects for every chat message, delivers a
    plan when asked first and a question when asked again, rejects the
    stored token, and accepts a password change and an OAuth code. *)
Definition server : Remote := fun T _ c =>
  match c in ApiCall T return N * Settled T with
  | chatApi_sendMessage _ _ => (120%N, Resolved chat_response)
  | projectsApi_generatePlan _ None =>
      (300%N, Resolved {| result_plan := "1. Start"; needs_clarification := false |})
  | projectsApi_generatePlan _ (Some _) =>
      (300%N, Resolved {| result_plan := "Which language?"; needs_clarification := true |})
  | authApi_verifyToken => (40%N, Rejected (Error "Invalid token"))
  | settingsApi_updatePassword _ _ => (50%N, Resolved "Password updated successfully")
  | settingsApi_completeGoogleCalendarOAuth _ _ _ =>
      (80%N, Resolved {| oauth_message := "connected"; oauth_email := None |})
  | _ => (10%N, Rejected (Error "HTTP error! status: 404"))
  end.

Definition world : World :=
  {| localStorage := {[ "token" := "t0" ]};
     clock := 1700000000000%N;
     origin := "http://localhost:5173";
     remote := server;
     calls := [];
     effects := [] |}.

Definition chat_state : Chat.State :=
  {| Chat.messages :=
       [ {| cm_id := "41"; cm_message := "hi"; cm_response := "hello";
            cm_timestamp := ServerTime "2025-11-01T10:00:00" |} ];
     Chat.input := "  plan my week ";
     Chat.loading := false |}.

Definition proposal (id title : string) (sel : bool) : GoalChat.EditableProject :=
  {| GoalChat.ep_title := title; GoalChat.ep_description := "";
     GoalChat.ep_due_date := Absent; GoalChat.ep_id := id;
     GoalChat.selected := sel; GoalChat.conversationId := "conv-1" |}.

Definition goal_state : GoalChat.State :=
  {| GoalChat.conversations :=
       [ {| GoalChat.conv_id := "conv-1";
            GoalChat.conv_title := "I want to get fit";
            GoalChat.messages :=
              [ {| GoalChat.msg_id := "msg-1";
                   GoalChat.message := "I want to get fit";
                   GoalChat.msg_response := "Two ideas.";
                   GoalChat.timestamp := ISOString 1699999990000;
                   GoalChat.proposedProjects :=
                     Some [proposal "proj-msg-1-0" "Run 5k" true;
                           proposal "proj-msg-1-1" "Swim" false];
                   GoalChat.requiresConfirmation := Some true |} ];
            GoalChat.createdAt := ISOString 1699999980000 |} ];
     GoalChat.currentConversationId := Some "conv-1";
     GoalChat.input := "I want to travel";
     GoalChat.loading := false;
     GoalChat.creatingProjects := None |}.

Definition project (id title : string) : Project :=
  {| project_id := id; title := title; description := None; due_date := None;
     plan := Some "old plan"; created_at := "2025-11-01"; updated_at := "2025-11-01";
     todos := [] |}.

Definition home_state : Home.State :=
  {| Home.projects := [project "p1" "Learn Go"; project "p2" "Run 5k"];
     Home.selectedProject := Some (project "p1" "Learn Go");
     Home.chatMessages := [];
     Home.chatInput := "in Go, please";
     Home.chatLoading := false;
     Home.planGenerating := true |}.

Definition password_form (new confirm : string) : Settings.State :=
  {| Settings.loading := false; Settings.error := ""; Settings.success := "";
     Settings.currentPassword := "old-secret";
     Settings.newPassword := new; Settings.confirmPassword := confirm |}.

(** A server that answers every request with the given status and body. *)
Definition env (code : N) (body : Settled Api.json) : Api.Env :=
  {| Api.storage := {[ "token" := "t0" ]};
     Api.VITE_API_BASE_URL := None;
     Api.fetch := fun _ => Resolved {| Api.status := code; Api.json_ := body |} |}.

Definition store : Backend.Store :=
  {| Backend.sessions := {[ "t0" := "u1" ]};
     Backend.rows :=
       {[ "7" := {| Backend.owner := "u1"; Backend.sp_title := "Learn Go";
                    Backend.sp_description := Some "Read a book";
                    Backend.sp_due_date := None; Backend.sp_plan := None;
                    Backend.sp_created_at := 900; Backend.sp_updated_at := 900 |} ]};
     Backend.next_id := 8;
     Backend.time := 1000 |}.

End Example.

(** ** Sessions on the goal-conversation page *)

Module Session.
Import Js Client GoalChat.
Local Open Scope js_scope.

(** The user's actions, one after the other, each handler running to its
    end before the next starts. *)
Fixpoint run (actions : list Action) (st : State) : M State :=
  match actions with
  | [] => ret st
  | a :: rest =>
      let* st' := dispatch a st in
      run rest st'
  end.

(** What the user typed, and when. *)
Definition entry (m : Message) : string * Timestamp := (message m, timestamp m).

(** [c'] is the conversation [c] at a later time: it has the id, title and
    creation time of [c], and the user's messages of [c] are the first ones
    of [c'], in the same order. *)
Definition continues (c c' : Conversation) : Prop :=
  conv_id c' = conv_id c /\
  conv_title c' = conv_title c /\
  createdAt c' = createdAt c /\
  map entry (messages c) `prefix_of` map entry (messages c').

(** The conversations [new] are the conversations [old], each continued,
    in the same order, followed by any that were opened since. *)
Definition history_kept (old new : list Conversation) : Prop :=
  exists kept opened, new = kept ++ opened /\ Forall2 continues old kept.

End Session.

(** ** Editing proposals *)

Module Editing.
Import Js Client GoalChat.

(** A proposal that differs from [p] at most in the field [field], which
    is [value] exactly when [p] is the proposal [projectId]. *)
Definition edited (projectId : string) (field : Field) (value : string)
    (p p' : EditableProject) : Prop :=
  let hit := String.eqb (ep_id p) projectId in
  ep_id p' = ep_id p /\
  selected p' = selected p /\
  conversationId p' = conversationId p /\
  ep_title p'
  = match field with F_title => if hit then value else ep_title p | _ => ep_title p end /\
  ep_description p'
  = match field with
    | F_description => if hit then value else ep_description p
    | _ => ep_description p
    end /\
  ep_due_date p'
  = match field with
    | F_due_date => if hit then Present value else ep_due_date p
    | _ => ep_due_date p
    end.

End Editing.

(** ** Blank input *)

Module Blank.
Import Js.

(** A string of white space only (the empty string included). *)
Definition blank (s : string) : Prop :=
  Forall (fun c => is_white_space c = true) (String.list_ascii_of_string s).

End Blank.

(** ** Creations that succeed *)

Module Creation.
Import Js Client GoalChat.

(** Whether the server accepts the creation of the [i]-th proposal of
    [ps], the proposals before it having been sent for creation, one after
    the other, from [w]. *)
Definition succeeds (w : World) (ps : list EditableProject) (i : nat) : bool :=
  match ps !! i with
  | Some p =>
      is_resolved
        (remote w Project (calls w ++ map Frame.create_call (take i ps))
           (projectsApi_create (create_data p))).2
  | None => false
  end.

(** How many of the creations of [ps] the server accepts. *)
Definition successes (w : World) (ps : list EditableProject) : nat :=
  length (filter (fun i => succeeds w ps i = true) (seq 0 (length ps))).

End Creation.

(** ** The pages over the rest of the client: confirmations, alerts and
    the calls for projects, to-dos, the calendar and the preferences *)

Module Browser.
Import Js Client.

(** Request body of [projectsApi.update]; an absent property is [None]. *)
Record ProjectPatch := {
  patch_title : option string;
  patch_description : option string;
  patch_due_date : option string;
  patch_plan : option string;
}.

(** A result of which the pages read the [message]. *)
Record Notice := {
  notice_message : string;
}.

Record GoogleCalendarStatus := {
  connected : bool;
  calendar_email : option string;
}.

Record AuthorizationUrl := {
  authorization_url : string;
  authorization_state : string;
}.

(** The client functions these handlers call.  The pages pass [addTodo] a
    due date and call [generateTodos], [scheduleTodos] and [scheduleTodo];
    the revision of api.ts that declares them is not among the sources. *)
Inductive ApiCall : Type -> Type :=
  | projectsApi_getAll : ApiCall (list Project)
  | projectsApi_create (data : ProjectData) : ApiCall Project
  | projectsApi_get (projectId : string) : ApiCall Project
  | projectsApi_update (projectId : string) (data : ProjectPatch) : ApiCall Project
  | projectsApi_delete (projectId : string) : ApiCall unit
  | projectsApi_addTodo (projectId text : string) (dueDate : option string)
      : ApiCall TodoItem
  | projectsApi_updateTodo (projectId todoId : string) (completed : bool)
      : ApiCall TodoItem
  | projectsApi_deleteTodo (projectId todoId : string) : ApiCall unit
  | projectsApi_getChatHistory (projectId : string) : ApiCall (list ChatMessage)
  | projectsApi_generateTodos (projectId : string) : ApiCall Notice
  | projectsApi_scheduleTodos (projectId : string) : ApiCall Notice
  | projectsApi_scheduleTodo (projectId todoId : string) : ApiCall Notice
  | settingsApi_getGoogleCalendarStatus : ApiCall GoogleCalendarStatus
  | settingsApi_getGoogleCalendarAuthUrl (redirectUri : option string)
      : ApiCall AuthorizationUrl
  | settingsApi_disconnectGoogleCalendar : ApiCall Notice
  | settingsApi_getPreferences : ApiCall Api.UserPreferences
  | settingsApi_updatePreferences (preferences : Api.UserPreferences)
      : ApiCall Api.UserPreferences.

Definition Call : Type := sigT ApiCall.

Definition mkCall {T} (c : ApiCall T) : Call := existT T c.

(** What the user sees and answers: [alert], [confirm] with the answer
    given, and [window.location.href = url]. *)
Inductive UiEvent :=
  | Alert (text : string)
  | Confirm (text : string) (answer : bool)
  | Assign (url : string).

(** A step of a handler that the outside sees. *)
Inductive Step :=
  | Called (c : Call)
  | Shown (e : UiEvent).

Record World := {
  origin : string;                                  (* window.location.origin *)
  remote : forall T, list Call -> ApiCall T -> Settled T;
  answers : list UiEvent -> string -> bool;         (* the user at a [confirm] *)
  calls : list Call;                                (* API calls made, oldest first *)
  events : list UiEvent;                            (* oldest first *)
  trace : list Step;                                (* the calls and the events, in order *)
}.

Definition M (A : Type) : Type := World -> A * World.

Definition ret {A} (a : A) : M A := fun w => (a, w).

Definition bind {A B} (m : M A) (k : A -> M B) : M B :=
  fun w => let (a, w') := m w in k a w'.

Declare Scope page_scope.
Delimit Scope page_scope with page.
Notation "'let*' x ':=' m 'in' k" := (bind m (fun x => k))
  (at level 10, x pattern, m at level 100, k at level 200) : page_scope.
Notation "m ';;' k" := (bind m (fun _ => k))
  (at level 100, k at level 200, right associativity) : page_scope.

Definition location_origin : M string := fun w => (origin w, w).

Definition event (e : UiEvent) : M unit :=
  fun w => (tt, {| origin := origin w; remote := remote w; answers := answers w;
                   calls := calls w; events := events w ++ [e];
                   trace := trace w ++ [Shown e] |}).

Definition alert (text : string) : M unit := event (Alert text).

Definition confirm (text : string) : M bool :=
  fun w =>
    let answer := answers w (events w) text in
    (answer, {| origin := origin w; remote := remote w; answers := answers w;
                calls := calls w; events := events w ++ [Confirm text answer];
                trace := trace w ++ [Shown (Confirm text answer)] |}).

Definition await {T} (c : ApiCall T) : M (Settled T) :=
  fun w =>
    (remote w T (calls w) c,
     {| origin := origin w; remote := remote w; answers := answers w;
        calls := calls w ++ [mkCall c]; events := events w;
        trace := trace w ++ [Called (mkCall c)] |}).

(** [error.message || fallback] *)
Definition message_or (fallback : string) (e : Exn) : string :=
  if truthy (Js.message e) then Js.message e else fallback.

End Browser.

(** ** pages/Home.tsx, projects, to-dos and the plan editor *)

Module Workspace.
Import Js Client Browser.
Local Open Scope page_scope.

(** [page] holds the state shared with the chat and plan handlers. *)
Record State := {
  page : Home.State;
  loading : bool;
  showNewProjectModal : bool;
  projectTitle : string;
  projectDescription : string;
  projectDueDate : string;
  newTodoText : string;
  newTodoDueDate : string;
  planEditing : bool;
  editedPlan : string;
  generatingTodos : bool;
  schedulingTodos : bool;
}.

Definition projects (st : State) : list Project := Home.projects (page st).
Definition selectedProject (st : State) : option Project := Home.selectedProject (page st).
Definition chatMessages (st : State) : list ChatMessage := Home.chatMessages (page st).

Definition on_page (f : Home.State -> Home.State) (st : State) : State :=
  {| page := f (page st); loading := loading st;
     showNewProjectModal := showNewProjectModal st;
     projectTitle := projectTitle st; projectDescription := projectDescription st;
     projectDueDate := projectDueDate st;
     newTodoText := newTodoText st; newTodoDueDate := newTodoDueDate st;
     planEditing := planEditing st; editedPlan := editedPlan st;
     generatingTodos := generatingTodos st; schedulingTodos := schedulingTodos st |}.

Definition setProjects (f : list Project -> list Project) : State -> State :=
  on_page (Home.setProjects f).

Definition setSelectedProject (p : option Project) : State -> State :=
  on_page (Home.setSelectedProject p).

Definition setChatMessages (f : list ChatMessage -> list ChatMessage) : State -> State :=
  on_page (Home.setChatMessages f).

Definition setLoading (b : bool) (st : State) : State :=
  {| page := page st; loading := b;
     showNewProjectModal := showNewProjectModal st;
     projectTitle := projectTitle st; projectDescription := projectDescription st;
     projectDueDate := projectDueDate st;
     newTodoText := newTodoText st; newTodoDueDate := newTodoDueDate st;
     planEditing := planEditing st; editedPlan := editedPlan st;
     generatingTodos := generatingTodos st; schedulingTodos := schedulingTodos st |}.

(** [setShowNewProjectModal(false); setProjectTitle('');
    setProjectDescription(''); setProjectDueDate('')] *)
Definition closeNewProjectModal (st : State) : State :=
  {| page := page st; loading := loading st;
     showNewProjectModal := false;
     projectTitle := ""; projectDescription := ""; projectDueDate := "";
     newTodoText := newTodoText st; newTodoDueDate := newTodoDueDate st;
     planEditing := planEditing st; editedPlan := editedPlan st;
     generatingTodos := generatingTodos st; schedulingTodos := schedulingTodos st |}.

(** [setNewTodoText(''); setNewTodoDueDate('')] *)
Definition clearNewTodo (st : State) : State :=
  {| page := page st; loading := loading st;
     showNewProjectModal := showNewProjectModal st;
     projectTitle := projectTitle st; projectDescription := projectDescription st;
     projectDueDate := projectDueDate st;
     newTodoText := ""; newTodoDueDate := "";
     planEditing := planEditing st; editedPlan := editedPlan st;
     generatingTodos := generatingTodos st; schedulingTodos := schedulingTodos st |}.

Definition setPlanEditing (b : bool) (st : State) : State :=
  {| page := page st; loading := loading st;
     showNewProjectModal := showNewProjectModal st;
     projectTitle := projectTitle st; projectDescription := projectDescription st;
     projectDueDate := projectDueDate st;
     newTodoText := newTodoText st; newTodoDueDate := newTodoDueDate st;
     planEditing := b; editedPlan := editedPlan st;
     generatingTodos := generatingTodos st; schedulingTodos := schedulingTodos st |}.

Definition setEditedPlan (s : string) (st : State) : State :=
  {| page := page st; loading := loading st;
     showNewProjectModal := showNewProjectModal st;
     projectTitle := projectTitle st; projectDescription := projectDescription st;
     projectDueDate := projectDueDate st;
     newTodoText := newTodoText st; newTodoDueDate := newTodoDueDate st;
     planEditing := planEditing st; editedPlan := s;
     generatingTodos := generatingTodos st; schedulingTodos := schedulingTodos st |}.

Definition setGeneratingTodos (b : bool) (st : State) : State :=
  {| page := page st; loading := loading st;
     showNewProjectModal := showNewProjectModal st;
     projectTitle := projectTitle st; projectDescription := projectDescription st;
     projectDueDate := projectDueDate st;
     newTodoText := newTodoText st; newTodoDueDate := newTodoDueDate st;
     planEditing := planEditing st; editedPlan := editedPlan st;
     generatingTodos := b; schedulingTodos := schedulingTodos st |}.

Definition setSchedulingTodos (b : bool) (st : State) : State :=
  {| page := page st; loading := loading st;
     showNewProjectModal := showNewProjectModal st;
     projectTitle := projectTitle st; projectDescription := projectDescription st;
     projectDueDate := projectDueDate st;
     newTodoText := newTodoText st; newTodoDueDate := newTodoDueDate st;
     planEditing := planEditing st; editedPlan := editedPlan st;
     generatingTodos := generatingTodos st; schedulingTodos := b |}.

(** [{ ...p, todos }] *)
Definition with_todos (ts : list TodoItem) (p : Project) : Project :=
  {| project_id := project_id p; title := title p; description := description p;
     due_date := due_date p; plan := plan p;
     created_at := created_at p; updated_at := updated_at p; todos := ts |}.

(** [prev.map(p => p.id === data.id ? data : p)] *)
Definition replace_project (data : Project) (prev : list Project) : list Project :=
  map (fun p => if String.eqb (project_id p) (project_id data) then data else p) prev.

Definition loadProjects (st : State) : M State :=
  let* r := await projectsApi_getAll in
  match r with
  | Resolved data =>
      let st1 := setProjects (fun _ => data) st in
      match data, selectedProject st with
      | first :: _, None => ret (setSelectedProject (Some first) st1)
      | _, _ => ret st1
      end
  | Rejected _ => ret st
  end.

(** [loadProjectDetails] and [loadChatHistory] read [selectedProject] from
    the render they were created in, here the project the running handler
    was started with. *)
Definition loadProjectDetails (selected : option Project) (st : State) : M State :=
  match selected with
  | None => ret st
  | Some sel =>
      let* r := await (projectsApi_get (project_id sel)) in
      match r with
      | Resolved data =>
          ret (setProjects (replace_project data) (setSelectedProject (Some data) st))
      | Rejected _ => ret st
      end
  end.

Definition loadChatHistory (selected : option Project) (st : State) : M State :=
  match selected with
  | None => ret st
  | Some sel =>
      let* r := await (projectsApi_getChatHistory (project_id sel)) in
      match r with
      | Resolved history => ret (setChatMessages (fun _ => history) st)
      | Rejected _ => ret st
      end
  end.

Definition handleCreateProject (st : State) : M State :=
  if negb (truthy (trim (projectTitle st))) then ret st else
  let st1 := setLoading true st in
  let* r := await (projectsApi_create
                     {| data_title := projectTitle st;
                        data_description := Some (projectDescription st);
                        data_due_date := given (Some (projectDueDate st)) |}) in
  match r with
  | Resolved newProject =>
      ret (setLoading false
             (closeNewProjectModal
                (setSelectedProject (Some newProject)
                   (setProjects (fun prev => newProject :: prev) st1))))
  | Rejected _ => ret (setLoading false st1)
  end.

Definition handleUpdateProject (st : State) : M State :=
  match selectedProject st with
  | None => ret st
  | Some sel =>
      let* r := await (projectsApi_update (project_id sel)
                         {| patch_title := Some (title sel);
                            patch_description := description sel;
                            patch_due_date := due_date sel;
                            patch_plan := None |}) in
      match r with
      | Resolved updated =>
          ret (setProjects (replace_project updated)
                 (setSelectedProject (Some updated) st))
      | Rejected _ => ret st
      end
  end.

(** [p.id !== projectId] *)
Definition other_than (projectId : string) (p : Project) : bool :=
  negb (String.eqb (project_id p) projectId).

Definition handleDeleteProject (projectId : string) (st : State) : M State :=
  let* yes := confirm "Are you sure you want to delete this project?" in
  if negb yes then ret st else
  let* r := await (projectsApi_delete projectId) in
  match r with
  | Resolved _ =>
      let st1 := setProjects (List.filter (other_than projectId)) st in
      match selectedProject st with
      | Some sel =>
          if String.eqb (project_id sel) projectId
          then ret (setSelectedProject (find (other_than projectId) (projects st)) st1)
          else ret st1
      | None => ret st1
      end
  | Rejected _ => ret st
  end.

Definition handleAddTodo (st : State) : M State :=
  match selectedProject st with
  | None => ret st
  | Some sel =>
      if negb (truthy (trim (newTodoText st))) then ret st else
      let* r := await (projectsApi_addTodo (project_id sel) (newTodoText st)
                         (given (Some (newTodoDueDate st)))) in
      match r with
      | Resolved newTodo =>
          ret (clearNewTodo
                 (setSelectedProject (Some (with_todos (todos sel ++ [newTodo]) sel)) st))
      | Rejected _ => ret st
      end
  end.

Definition handleToggleTodo (todo : TodoItem) (st : State) : M State :=
  match selectedProject st with
  | None => ret st
  | Some sel =>
      let* r := await (projectsApi_updateTodo (project_id sel) (todo_id todo)
                         (negb (completed todo))) in
      match r with
      | Resolved updated =>
          ret (setSelectedProject
                 (Some (with_todos
                          (map (fun t => if String.eqb (todo_id t) (todo_id todo)
                                         then updated else t) (todos sel))
                          sel)) st)
      | Rejected _ => ret st
      end
  end.

Definition handleDeleteTodo (todoId : string) (st : State) : M State :=
  match selectedProject st with
  | None => ret st
  | Some sel =>
      let* r := await (projectsApi_deleteTodo (project_id sel) todoId) in
      match r with
      | Resolved _ =>
          ret (setSelectedProject
                 (Some (with_todos
                          (List.filter (fun t => negb (String.eqb (todo_id t) todoId))
                             (todos sel))
                          sel)) st)
      | Rejected _ => ret st
      end
  end.

Definition handleClearChat (st : State) : M State :=
  let* yes := confirm "Clear chat history for this project? This cannot be undone." in
  if yes then ret (setChatMessages (fun _ => []) st) else ret st.

(** [selectedProject?.plan], when it passes the test [!...]. *)
Definition current_plan (st : State) : option string :=
  match selectedProject st with
  | Some sel => given (plan sel)
  | None => None
  end.

Definition handleEditPlan (st : State) : State :=
  match current_plan st with
  | Some text => setPlanEditing true (setEditedPlan text st)
  | None => st
  end.

Definition handleSavePlan (st : State) : M State :=
  match selectedProject st with
  | None => ret st
  | Some sel =>
      let* r := await (projectsApi_update (project_id sel)
                         {| patch_title := None; patch_description := None;
                            patch_due_date := None;
                            patch_plan := Some (editedPlan st) |}) in
      match r with
      | Resolved updated =>
          ret (setPlanEditing false
                 (setProjects (replace_project updated)
                    (setSelectedProject (Some updated) st)))
      | Rejected _ =>
          alert "Failed to save plan. Please try again.";;
          ret st
      end
  end.

Definition handleCancelEdit (st : State) : State :=
  setEditedPlan "" (setPlanEditing false st).

Definition handleGenerateTodos (st : State) : M State :=
  match selectedProject st, current_plan st with
  | Some sel, Some _ =>
      if generatingTodos st then ret st else
      let st1 := setGeneratingTodos true st in
      let* r := await (projectsApi_generateTodos (project_id sel)) in
      match r with
      | Resolved result =>
          (* Reload project to get the new todos *)
          let* st2 := loadProjectDetails (Some sel) st1 in
          alert (notice_message result);;
          ret (setGeneratingTodos false st2)
      | Rejected error =>
          alert (message_or "Failed to generate todos. Please try again." error);;
          ret (setGeneratingTodos false st1)
      end
  | _, _ => ret st
  end.

Definition handleScheduleTodos (st : State) : M State :=
  match selectedProject st with
  | None => ret st
  | Some sel =>
      if schedulingTodos st then ret st else
      let incompleteTodos := List.filter (fun t => negb (completed t)) (todos sel) in
      if Nat.eqb (length incompleteTodos) 0
      then alert "No incomplete todos to schedule.";; ret st
      else
        let st1 := setSchedulingTodos true st in
        let* r := await (projectsApi_scheduleTodos (project_id sel)) in
        match r with
        | Resolved result =>
            alert (notice_message result);;
            (* Reload project to get updated calendar_event_ids *)
            let* st2 := loadProjectDetails (Some sel) st1 in
            ret (setSchedulingTodos false st2)
        | Rejected error =>
            alert (message_or "Failed to schedule todos. Please try again." error);;
            ret (setSchedulingTodos false st1)
        end
  end.

Definition handleScheduleSingleTodo (todoId : string) (st : State) : M State :=
  match selectedProject st with
  | None => ret st
  | Some sel =>
      let* r := await (projectsApi_scheduleTodo (project_id sel) todoId) in
      match r with
      | Resolved result =>
          alert (notice_message result);;
          loadProjectDetails (Some sel) st
      | Rejected error =>
          alert (message_or "Failed to schedule this task. Please try again." error);;
          ret st
      end
  end.

End Workspace.

(** ** pages/Settings.tsx, the calendar connection and the preferences *)

Module Preferences.
Import Js Browser.
Local Open Scope page_scope.

(** The part of the component state the calendar and preference handlers
    touch. *)
Record State := {
  calendarStatus : option GoogleCalendarStatus;
  preferences : option Api.UserPreferences;
  loading : bool;
  error : string;
  success : string;
}.

Definition setCalendarStatus (s : option GoogleCalendarStatus) (st : State) : State :=
  {| calendarStatus := s; preferences := preferences st; loading := loading st;
     error := error st; success := success st |}.

Definition setPreferences (p : option Api.UserPreferences) (st : State) : State :=
  {| calendarStatus := calendarStatus st; preferences := p; loading := loading st;
     error := error st; success := success st |}.

Definition setLoading (b : bool) (st : State) : State :=
  {| calendarStatus := calendarStatus st; preferences := preferences st; loading := b;
     error := error st; success := success st |}.

Definition setError (s : string) (st : State) : State :=
  {| calendarStatus := calendarStatus st; preferences := preferences st;
     loading := loading st; error := s; success := success st |}.

Definition setSuccess (s : string) (st : State) : State :=
  {| calendarStatus := calendarStatus st; preferences := preferences st;
     loading := loading st; error := error st; success := s |}.

Definition loadCalendarStatus (st : State) : M State :=
  let* r := await settingsApi_getGoogleCalendarStatus in
  match r with
  | Resolved status => ret (setCalendarStatus (Some status) st)
  | Rejected _ => ret st
  end.

Definition loadPreferences (st : State) : M State :=
  let* r := await settingsApi_getPreferences in
  match r with
  | Resolved prefs => ret (setPreferences (Some prefs) st)
  | Rejected _ => ret st
  end.

Definition handleConnectGoogleCalendar (st : State) : M State :=
  let st := setSuccess "" (setError "" (setLoading true st)) in
  (* Get redirect URI (current origin + callback path) *)
  let* origin := location_origin in
  let redirectUri := origin +:+ "/settings/oauth/callback" in
  let* r := await (settingsApi_getGoogleCalendarAuthUrl (Some redirectUri)) in
  match r with
  | Resolved res =>
      (* Redirect to Google OAuth *)
      event (Assign (authorization_url res));;
      ret st
  | Rejected err => ret (setLoading false (setError (Js.message err) st))
  end.

Definition handleDisconnect (st : State) : M State :=
  let* yes := confirm "Are you sure you want to disconnect Google Calendar?" in
  if negb yes then ret st else
  let st := setSuccess "" (setError "" (setLoading true st)) in
  let* r := await settingsApi_disconnectGoogleCalendar in
  match r with
  | Resolved _ =>
      let* st := loadCalendarStatus
                   (setSuccess "Google Calendar disconnected successfully" st) in
      ret (setLoading false st)
  | Rejected err => ret (setLoading false (setError (Js.message err) st))
  end.

Definition handlePreferencesUpdate (st : State) : M State :=
  match preferences st with
  | None => ret st
  | Some prefs =>
      let st := setSuccess "" (setError "" (setLoading true st)) in
      let* r := await (settingsApi_updatePreferences prefs) in
      match r with
      | Resolved _ => ret (setLoading false (setSuccess "Preferences updated successfully!" st))
      | Rejected err => ret (setLoading false (setError (Js.message err) st))
      end
  end.

Inductive Category := work_study | gym_activity | personal_goals.

(** A field of a time preference with the value the form gives it: the
    text of an input for the two ranges, the state of the check box for
    [all_time]. *)
Inductive FieldValue :=
  | weekdays (value : string)
  | weekends (value : string)
  | all_time (value : bool).

Definition category (c : Category) (p : Api.UserPreferences) : Api.TimePreference :=
  match c with
  | work_study => Api.work_study p
  | gym_activity => Api.gym_activity p
  | personal_goals => Api.personal_goals p
  end.

(** [{ ...t, [field]: value }] *)
Definition with_field (fv : FieldValue) (t : Api.TimePreference) : Api.TimePreference :=
  match fv with
  | weekdays v =>
      {| Api.weekdays := Some v; Api.weekends := Api.weekends t;
         Api.all_time := Api.all_time t |}
  | weekends v =>
      {| Api.weekdays := Api.weekdays t; Api.weekends := Some v;
         Api.all_time := Api.all_time t |}
  | all_time v =>
      {| Api.weekdays := Api.weekdays t; Api.weekends := Api.weekends t;
         Api.all_time := v |}
  end.

(** [{ ...p, [category]: t }] *)
Definition with_category (c : Category) (t : Api.TimePreference) (p : Api.UserPreferences)
    : Api.UserPreferences :=
  match c with
  | work_study =>
      {| Api.work_study := t; Api.gym_activity := Api.gym_activity p;
         Api.personal_goals := Api.personal_goals p |}
  | gym_activity =>
      {| Api.work_study := Api.work_study p; Api.gym_activity := t;
         Api.personal_goals := Api.personal_goals p |}
  | personal_goals =>
      {| Api.work_study := Api.work_study p; Api.gym_activity := Api.gym_activity p;
         Api.personal_goals := t |}
  end.

Definition updatePreference (c : Category) (fv : FieldValue) (st : State) : State :=
  match preferences st with
  | None => st
  | Some prefs =>
      setPreferences (Some (with_category c (with_field fv (category c prefs)) prefs)) st
  end.

End Preferences.

(** ** Further sample runs *)

Module Scenario.
Import Js Client.

Definition ada : User :=
  {| user_id := "u1"; user_email := "ada@example.org"; user_name := Some "Ada" |}.

(** A server that knows one account: it signs it in and up, and verifies
    its token. *)
Definition accounts : Remote := fun T _ c =>
  match c in ApiCall T return N * Settled T with
  | authApi_login _ _ | authApi_signup _ _ _ =>
      (60%N, Resolved {| auth_user := ada; auth_token := "t1" |})
  | authApi_verifyToken => (40%N, Resolved ada)
  | settingsApi_updatePassword _ _ =>
      (50%N, Rejected (Error "Current password is incorrect"))
  | _ => (10%N, Rejected (Error "HTTP error! status: 404"))
  end.

(** A browser with nothing stored. *)
Definition fresh : World :=
  {| localStorage := ∅;
     clock := 1700000000000%N;
     origin := "http://localhost:5173";
     remote := accounts;
     calls := [];
     effects := [] |}.

(** A server that creates every project it is asked for, and a browser
    before it. *)
Definition shelf : Remote := fun T _ c =>
  match c in ApiCall T return N * Settled T with
  | projectsApi_create data =>
      (90%N, Resolved {| project_id := "p9"; title := data_title data;
                         description := data_description data;
                         due_date := data_due_date data; plan := None;
                         created_at := "2025-11-02"; updated_at := "2025-11-02";
                         todos := [] |})
  | _ => (10%N, Rejected (Error "HTTP error! status: 404"))
  end.

Definition library : World :=
  {| localStorage := {[ "token" := "t0" ]};
     clock := 1700000000000%N;
     origin := "http://localhost:5173";
     remote := shelf;
     calls := [];
     effects := [] |}.

(** A server for the workspace that deletes and adds to-dos, saves plans
    and schedules, and fails every other call; and a user who confirms. *)
Definition office : forall T, list Browser.Call -> Browser.ApiCall T -> Settled T :=
  fun T _ c =>
    match c in Browser.ApiCall T return Settled T with
    | Browser.projectsApi_delete _ => Resolved tt
    | Browser.projectsApi_addTodo _ text _ =>
        Resolved {| todo_id := "t9"; todo_text := text; completed := false;
                    order_index := None; todo_created_at := "2025-11-02" |}
    | Browser.projectsApi_scheduleTodos _ =>
        Resolved {| Browser.notice_message := "Scheduled 1 task" |}
    | Browser.settingsApi_updatePreferences prefs => Resolved prefs
    | _ => Rejected (Error "HTTP error! status: 500")
    end.

Definition desk : Browser.World :=
  {| Browser.origin := "http://localhost:5173";
     Browser.remote := office;
     Browser.answers := fun _ _ => true;
     Browser.calls := [];
     Browser.events := [];
     Browser.trace := [] |}.

Definition todo (id text : string) (done : bool) : TodoItem :=
  {| todo_id := id; todo_text := text; completed := done;
     order_index := None; todo_created_at := "2025-11-01" |}.

Definition planned : Project :=
  {| project_id := "p1"; title := "Learn Go"; description := None; due_date := None;
     plan := Some "1. Read the tour"; created_at := "2025-11-01";
     updated_at := "2025-11-01";
     todos := [todo "t1" "Install Go" true; todo "t2" "Read the tour" false] |}.

(** The workspace with a project selected and the forms filled in. *)
Definition workspace : Workspace.State :=
  {| Workspace.page :=
       {| Home.projects := [planned; Example.project "p2" "Run 5k"];
          Home.selectedProject := Some planned;
          Home.chatMessages := [];
          Home.chatInput := "";
          Home.chatLoading := false;
          Home.planGenerating := false |};
     Workspace.loading := false;
     Workspace.showNewProjectModal := true;
     Workspace.projectTitle := "Learn Rust";
     Workspace.projectDescription := "";
     Workspace.projectDueDate := "";
     Workspace.newTodoText := "Write a server";
     Workspace.newTodoDueDate := "";
     Workspace.planEditing := false;
     Workspace.editedPlan := "";
     Workspace.generatingTodos := false;
     Workspace.schedulingTodos := false |}.

Definition prefs : Api.UserPreferences :=
  {| Api.work_study := {| Api.weekdays := Some "9-17"; Api.weekends := None;
                          Api.all_time := false |};
     Api.gym_activity := {| Api.weekdays := None; Api.weekends := Some "10-14";
                            Api.all_time := false |};
     Api.personal_goals := {| Api.weekdays := None; Api.weekends := None;
                              Api.all_time := true |} |}.

Definition settings : Preferences.State :=
  {| Preferences.calendarStatus := None;
     Preferences.preferences := Some prefs;
     Preferences.loading := false;
     Preferences.error := "";
     Preferences.success := "" |}.

End Scenario.

(** * Properties *)

Section JsFacts.
Import Js.

Lemma truthy_true s : truthy s = true <-> s <> "".
Proof.
  unfold truthy. rewrite negb_true_iff.
  destruct (String.eqb_spec s ""); split; congruence.
Qed.

Lemma truthy_false s : truthy s = false <-> s = "".
Proof.
  unfold truthy. rewrite negb_false_iff. apply String.eqb_eq.
Qed.

Lemma truthy_opt_true o : truthy_opt o = true <-> exists s, o = Some s /\ s <> "".
Proof.
  destruct o as [s|]; simpl.
  - rewrite truthy_true. split; [eauto|]. intros (s' & [= ->] & ?); done.
  - split; [done|]. intros (s' & ? & ?); done.
Qed.

Lemma truthy_opt_false o : truthy_opt o = false <-> o = None \/ o = Some "".
Proof.
  destruct o as [s|]; simpl.
  - rewrite truthy_false. split; [intros ->; auto|]. intros [|[= ->]]; done.
  - split; auto.
Qed.

End JsFacts.

(** ** Goal conversations: selecting proposals *)

Section GoalChatSelection.
Import Js Client GoalChat Frame.

Lemma toggle_selected_involutive p : toggle_selected (toggle_selected p) = p.
Proof. destruct p; unfold toggle_selected; simpl. by rewrite negb_involutive. Qed.

Lemma on_proposals_involutive g ms :
  (forall ps, g (g ps) = ps) -> on_proposals g (on_proposals g ms) = ms.
Proof.
  intros Hg. unfold on_proposals. rewrite map_map.
  rewrite <- (map_id ms) at 2. apply map_ext. intros [i m r t ps rc]; simpl.
  unfold with_proposedProjects; simpl. f_equal.
  destruct ps as [ps|]; simpl; [by rewrite Hg | done].
Qed.

Lemma in_conversation_involutive id f convs :
  (forall ms, f (f ms) = ms) -> in_conversation id f (in_conversation id f convs) = convs.
Proof.
  intros Hf. unfold in_conversation. rewrite map_map.
  rewrite <- (map_id convs) at 2. apply map_ext. intros [i t ms c]; simpl.
  destruct id as [cid|]; simpl; [|done].
  destruct (String.eqb i cid) eqn:E; simpl; rewrite E; [|done].
  unfold with_messages; simpl. by rewrite Hf.
Qed.

Lemma toggle_map_involutive projectId ps :
  map (fun proj => if String.eqb (ep_id proj) projectId then toggle_selected proj else proj)
    (map (fun proj => if String.eqb (ep_id proj) projectId then toggle_selected proj else proj)
       ps) = ps.
Proof.
  rewrite map_map. rewrite <- (map_id ps) at 2. apply map_ext. intros p.
  destruct (String.eqb (ep_id p) projectId) eqn:E.
  - replace (ep_id (toggle_selected p)) with (ep_id p) by (by destruct p).
    rewrite E. apply toggle_selected_involutive.
  - by rewrite E.
Qed.

Lemma toggled_spec projectId p :
  toggled projectId p
    (if String.eqb (ep_id p) projectId then toggle_selected p else p).
Proof.
  unfold toggled. destruct (String.eqb (ep_id p) projectId); destruct p; simpl; done.
Qed.

Lemma same_message_on_proposals (R : EditableProject -> EditableProject -> Prop) h ms :
  (forall p, R p (h p)) ->
  Forall2 (same_message R) ms (on_proposals (map h) ms).
Proof.
  intros HR. unfold on_proposals. apply Forall2_fmap_r, Forall_Forall2_diag, Forall_forall.
  intros m _. unfold same_message; simpl. repeat split.
  destruct (proposedProjects m) as [ps|]; simpl; constructor.
  apply Forall2_fmap_r, Forall_Forall2_diag, Forall_forall. auto.
Qed.

(** C10.  Toggling the selection of a proposed project twice with the same
    project id restores the conversations state; one application keeps the
    rest of the component state, every conversation other than the current
    one, and in the current one every field of every message and proposal,
    except that the [selected] flag of the proposals with that id is
    negated. *)
Theorem toggle_selection_involution (projectId : string) (st : State) :
  let st' := handleToggleProjectSelection projectId st in
  handleToggleProjectSelection projectId st' = st /\
  currentConversationId st' = currentConversationId st /\
  input st' = input st /\
  loading st' = loading st /\
  creatingProjects st' = creatingProjects st /\
  Forall2 (fun c c' =>
      if truthy_opt (currentConversationId st) && conv_is (currentConversationId st) c
      then same_conversation (toggled projectId) c c'
      else c' = c)
    (conversations st) (conversations st').
Proof.
  unfold handleToggleProjectSelection.
  destruct (truthy_opt (currentConversationId st)) eqn:Hcur; simpl.
  - rewrite Hcur; simpl. split; [|repeat split].
    + destruct st as [convs cur inp ld cp]; unfold setConversations; simpl. f_equal.
      apply in_conversation_involutive. intros ms.
      apply on_proposals_involutive, toggle_map_involutive.
    + unfold in_conversation. apply Forall2_fmap_r, Forall_Forall2_diag, Forall_forall.
      intros c _. unfold compose.
      destruct (conv_is (currentConversationId st) c); [|done].
      unfold same_conversation; simpl. repeat split.
      apply same_message_on_proposals, toggled_spec.
  - rewrite Hcur; simpl. repeat split. apply Forall_Forall2_diag, Forall_forall. done.
Qed.

End GoalChatSelection.

(** ** Goal conversations: which actions create projects *)

Section GoalChatCreation.
Import Js Client GoalChat Frame.

Lemma effect_calls e w : calls (effect e w).2 = calls w.
Proof. done. Qed.

Lemma await_calls {T} (c : ApiCall T) w : calls (await c w).2 = calls w ++ [mkCall c].
Proof. unfold await. by destruct (remote w T (calls w) c). Qed.

Lemma await_result {T} (c : ApiCall T) w : (await c w).1 = (remote w T (calls w) c).2.
Proof. unfold await. by destruct (remote w T (calls w) c). Qed.

Lemma create_each_calls selectedProjects createdProjects w :
  calls (create_each selectedProjects createdProjects w).2
  = calls w ++ map create_call selectedProjects.
Proof.
  revert createdProjects w.
  induction selectedProjects as [|project rest IH]; intros createdProjects w; simpl.
  - by rewrite app_nil_r.
  - unfold bind.
    pose proof (await_calls (projectsApi_create (create_data project)) w) as Hc.
    destruct (await (projectsApi_create (create_data project)) w) as [r w1].
    simpl in Hc. destruct r; rewrite IH, Hc, <- app_assoc; done.
Qed.

Lemma handleSubmit_calls st w :
  calls (handleSubmit st w).2 = calls w \/
  calls (handleSubmit st w).2
  = calls w ++ [mkCall (chatApi_sendMessage (trim (input st)) None)].
Proof.
  unfold handleSubmit.
  destruct (negb (truthy (trim (input st))) || loading st); [by left|right].
  unfold bind, Date_now.
  pose proof (await_calls (chatApi_sendMessage (trim (input st)) None) w) as Hc.
  destruct (await (chatApi_sendMessage (trim (input st)) None) w) as [r w1].
  by destruct r.
Qed.

Lemma handleSubmit_storage st w :
  localStorage (handleSubmit st w).2 = localStorage w /\
  effects (handleSubmit st w).2 = effects w.
Proof.
  unfold handleSubmit.
  destruct (negb (truthy (trim (input st))) || loading st); [done|].
  unfold bind, Date_now, await.
  destruct (remote w ChatResponse (calls w) (chatApi_sendMessage _ None)) as [elapsed r].
  by destruct r.
Qed.

Lemma handleEditProjects_calls editPrompt st w :
  calls (handleEditProjects editPrompt st w).2 = calls w \/
  calls (handleEditProjects editPrompt st w).2
  = calls w ++ [mkCall (chatApi_sendMessage editPrompt
                          (Some (map to_proposed (allProjects st))))].
Proof.
  unfold handleEditProjects.
  destruct (currentConversationId st) as [cid|]; [|by left].
  destruct (negb (truthy (trim editPrompt)) || negb (truthy cid)); [by left|right].
  unfold bind, Date_now.
  pose proof (await_calls
    (chatApi_sendMessage editPrompt (Some (map to_proposed (allProjects st)))) w) as Hc.
  destruct (await (chatApi_sendMessage editPrompt _) w) as [r w1].
  by destruct r.
Qed.

Lemma handleMoveSelectedProjects_calls st w :
  calls (handleMoveSelectedProjects st w).2
  = calls w ++ map create_call (filter (fun p => selected p = true) (allProjects st)).
Proof.
  unfold handleMoveSelectedProjects.
  destruct (Nat.eqb_spec (length (filter (fun p => selected p = true) (allProjects st))) 0)
    as [Hlen|Hlen].
  - apply nil_length_inv in Hlen. rewrite Hlen. simpl. by rewrite app_nil_r.
  - unfold bind.
    pose proof (create_each_calls
      (filter (fun p => selected p = true) (allProjects st)) [] w) as Hc.
    destruct (create_each _ [] w) as [createdProjects w1]. done.
Qed.

(** C1.  Whatever the user does on the goal-conversation page and however
    the server answers, the calls the action adds contain a
    [projectsApi.create] only for the move-selected action, which makes
    one such call per proposal of the current conversation that is selected
    when it starts, in order; submitting a chat message adds at most the one
    [chatApi.sendMessage] call, also when the response carries proposals,
    and touches neither [localStorage] nor the screen outside the component
    state. *)
Theorem proposals_created_only_on_move (a : Action) (st : State) (w : World) :
  exists added,
    calls (dispatch a st w).2 = calls w ++ added /\
    match a with
    | MoveSelectedProjects =>
        added = map create_call (filter (fun p => selected p = true) (allProjects st))
    | Submit =>
        (added = [] \/ added = [mkCall (chatApi_sendMessage (trim (input st)) None)]) /\
        localStorage (dispatch a st w).2 = localStorage w /\
        effects (dispatch a st w).2 = effects w
    | _ => Forall (fun c => is_create c = false) added
    end.
Proof.
  destruct a; simpl.
  - exists []. by rewrite app_nil_r.
  - exists []. by rewrite app_nil_r.
  - destruct (handleSubmit_calls st w) as [Hc|Hc].
    + exists []. rewrite app_nil_r. split; [done|]. split; [auto|].
      apply handleSubmit_storage.
    + eexists. split; [exact Hc|]. split; [auto|]. apply handleSubmit_storage.
  - exists []. rewrite app_nil_r. by destruct (conversations st !! i).
  - exists []. by rewrite app_nil_r.
  - exists []. by rewrite app_nil_r.
  - exists []. by rewrite app_nil_r.
  - eexists. split; [apply handleMoveSelectedProjects_calls|done].
  - destruct (handleEditProjects_calls editPrompt st w) as [->| ->].
    + exists []. by rewrite app_nil_r.
    + eexists. split; [done|]. by repeat constructor.
Qed.

End GoalChatCreation.

(** ** Goal conversations: the current conversation is a listed one *)

Section GoalChatReachable.
Import Js Client GoalChat Frame.

Lemma in_conversation_ids id f convs :
  map conv_id (in_conversation id f convs) = map conv_id convs.
Proof.
  unfold in_conversation. rewrite map_map. apply map_ext. intros c.
  by destruct (conv_is id c).
Qed.

Lemma well_formed_transfer st st' :
  well_formed st ->
  currentConversationId st' = currentConversationId st ->
  map conv_id (conversations st') = map conv_id (conversations st) ->
  well_formed st'.
Proof.
  intros Hwf Hcur Hids cid Hcid Hne. rewrite Hcur in Hcid.
  destruct (Hwf cid Hcid Hne) as (conv & Hin & Hid).
  assert (Hmem : cid ∈ map conv_id (conversations st')).
  { rewrite Hids, <- Hid. by apply list_elem_of_fmap_2. }
  apply list_elem_of_fmap in Hmem as (conv' & -> & Hin'). eauto.
Qed.

Lemma well_formed_initial : well_formed initial.
Proof. intros cid Hcid. discriminate. Qed.

Lemma optimistic_well_formed text now st :
  well_formed st -> well_formed (optimistic text now st).
Proof.
  intros Hwf. unfold optimistic, target_conversation; simpl.
  destruct (truthy_opt (currentConversationId st)) eqn:Hcur.
  - apply (well_formed_transfer st); [done|done|]. simpl. apply in_conversation_ids.
  - intros cid Hcid _. simpl in *. injection Hcid as <-.
    eexists. split.
    + apply list_elem_of_fmap. eexists. split; [done|].
      apply elem_of_app. right. apply list_elem_of_singleton. done.
    + simpl. by rewrite String.eqb_refl.
Qed.

Lemma handleSubmit_well_formed st w :
  well_formed st -> well_formed (handleSubmit st w).1.
Proof.
  intros Hwf. unfold handleSubmit.
  destruct (negb (truthy (trim (input st))) || loading st); [done|].
  unfold bind, Date_now, await.
  destruct (remote w ChatResponse (calls w) (chatApi_sendMessage _ None)) as [elapsed r].
  pose proof (optimistic_well_formed (trim (input st)) (clock w) st Hwf) as Hopt.
  destruct r; simpl.
  - apply (well_formed_transfer (optimistic (trim (input st)) (clock w) st));
      [done|done|]. simpl. apply in_conversation_ids.
  - apply (well_formed_transfer (optimistic (trim (input st)) (clock w) st));
      [done|done|]. simpl. apply in_conversation_ids.
Qed.

Lemma handleMoveSelectedProjects_well_formed st w :
  well_formed st -> well_formed (handleMoveSelectedProjects st w).1.
Proof.
  intros Hwf. unfold handleMoveSelectedProjects.
  destruct (Nat.eqb _ 0); [done|]. unfold bind.
  destruct (create_each _ [] w) as [createdProjects w1]. simpl.
  apply (well_formed_transfer st); [done| |].
  - by destruct (truthy_opt (currentConversationId st)).
  - destruct (truthy_opt (currentConversationId st)); [|done].
    simpl. apply in_conversation_ids.
Qed.

Lemma handleEditProjects_well_formed editPrompt st w :
  well_formed st -> well_formed (handleEditProjects editPrompt st w).1.
Proof.
  intros Hwf. unfold handleEditProjects.
  destruct (currentConversationId st) as [cid|] eqn:Hcur; [|done].
  destruct (negb (truthy (trim editPrompt)) || negb (truthy cid)); [done|].
  unfold bind, Date_now, await.
  destruct (remote w ChatResponse (calls w) _) as [elapsed [chatResponse|e]]; simpl.
  - apply (well_formed_transfer st); [done|done|]. simpl. apply in_conversation_ids.
  - by apply (well_formed_transfer st).
Qed.

(** Whatever the user does, the current conversation stays one of the
    listed conversations. *)
Lemma well_formed_preserved (a : Action) (st : State) (w : World) :
  well_formed st -> well_formed (dispatch a st w).1.
Proof.
  intros Hwf. destruct a; simpl.
  - by apply (well_formed_transfer st).
  - by apply (well_formed_transfer st).
  - by apply handleSubmit_well_formed.
  - destruct (conversations st !! i) as [conv|] eqn:Hi; [|done].
    intros cid Hcid _. simpl in *. injection Hcid as <-.
    exists conv. split; [|done]. by eapply list_elem_of_lookup_2.
  - intros cid Hcid. discriminate.
  - unfold handleProjectFieldChange.
    destruct (negb (truthy_opt (currentConversationId st))); [done|].
    apply (well_formed_transfer st); [done|done|]. simpl. apply in_conversation_ids.
  - unfold handleToggleProjectSelection.
    destruct (negb (truthy_opt (currentConversationId st))); [done|].
    apply (well_formed_transfer st); [done|done|]. simpl. apply in_conversation_ids.
  - by apply handleMoveSelectedProjects_well_formed.
  - by apply handleEditProjects_well_formed.
Qed.

End GoalChatReachable.

(** ** Optimistic chat messages *)

Section Optimistic.
Import Js Client Frame.

Lemma updated_in_place_map {A} (id_of : A -> string) tempId f (l : list A) :
  updated_in_place id_of tempId f l
    (map (fun m => if String.eqb (id_of m) tempId then f m else m) l).
Proof.
  split; [apply length_map|].
  intros i m Hm. by rewrite list_lookup_fmap, Hm.
Qed.

Lemma updated_in_place_last {A} (id_of : A -> string) tempId f (old new : list A) x :
  id_of x = tempId ->
  updated_in_place id_of tempId f (old ++ [x]) new ->
  new !! length old = Some (f x) /\ length new = S (length old).
Proof.
  intros Hid [Hlen Hupd]. split.
  - rewrite (Hupd (length old) x).
    + by rewrite Hid, String.eqb_refl.
    + by rewrite lookup_app_r, Nat.sub_diag.
  - rewrite Hlen, length_app. simpl. lia.
Qed.

Lemma updated_in_place_other {A} (id_of : A -> string) tempId f (old new : list A) i m :
  updated_in_place id_of tempId f old new ->
  old !! i = Some m -> id_of m <> tempId -> new !! i = Some m.
Proof.
  intros [_ Hupd] Hm Hid. rewrite (Hupd i m Hm).
  destruct (String.eqb_spec (id_of m) tempId); done.
Qed.

Lemma Chat_handleSubmit_run st w :
  truthy (trim (Chat.input st)) = true -> Chat.loading st = false ->
  let text := trim (Chat.input st) in
  let tempId := pretty (clock w) in
  let pending := Chat.optimistic tempId text (clock w) st in
  calls (Chat.handleSubmit st w).2 = calls w ++ [mkCall (chatApi_sendMessage text None)] /\
  (Chat.handleSubmit st w).1 =
    match (remote w _ (calls w) (chatApi_sendMessage text None)) with
    | (elapsed, Resolved chatResponse) =>
        Chat.on_resolved tempId chatResponse (clock w + elapsed) pending
    | (_, Rejected _) => Chat.on_rejected tempId pending
    end.
Proof.
  intros Hin Hld. simpl. unfold Chat.handleSubmit. rewrite Hin, Hld. simpl.
  unfold bind, Date_now, await.
  destruct (remote w ChatResponse (calls w) (chatApi_sendMessage _ None)) as [elapsed r].
  destruct r; done.
Qed.

Lemma GoalChat_handleSubmit_run st w :
  truthy (trim (GoalChat.input st)) = true -> GoalChat.loading st = false ->
  let text := trim (GoalChat.input st) in
  let cid := GoalChat.target_conversation (clock w) st in
  let tempId := "msg-" +:+ pretty (clock w) in
  let pending := GoalChat.optimistic text (clock w) st in
  calls (GoalChat.handleSubmit st w).2
  = calls w ++ [mkCall (chatApi_sendMessage text None)] /\
  (GoalChat.handleSubmit st w).1 =
    match (remote w _ (calls w) (chatApi_sendMessage text None)) with
    | (elapsed, Resolved chatResponse) =>
        GoalChat.on_resolved cid tempId chatResponse (clock w + elapsed) pending
    | (_, Rejected _) => GoalChat.on_rejected cid tempId pending
    end.
Proof.
  intros Hin Hld. simpl. unfold GoalChat.handleSubmit. rewrite Hin, Hld. simpl.
  unfold bind, Date_now, await.
  destruct (remote w ChatResponse (calls w) (chatApi_sendMessage _ None)) as [elapsed r].
  destruct r; done.
Qed.

Lemma settled_in_spec cid tempId f convs :
  settled_in cid tempId f convs
    (GoalChat.in_conversation (Some cid) (GoalChat.update_by_id tempId f) convs).
Proof.
  unfold settled_in, GoalChat.in_conversation.
  apply Forall2_fmap_r, Forall_Forall2_diag, Forall_forall. intros c _.
  unfold compose, GoalChat.conv_is.
  destruct (String.eqb (GoalChat.conv_id c) cid); simpl; repeat split.
  - apply length_map.
  - intros i m Hm. unfold GoalChat.update_by_id. by rewrite list_lookup_fmap, Hm.
Qed.

Lemma in_conversation_member cid g convs conv :
  conv ∈ convs -> GoalChat.conv_id conv = cid ->
  GoalChat.with_messages (g (GoalChat.messages conv)) conv
    ∈ GoalChat.in_conversation (Some cid) g convs.
Proof.
  intros Hin Hid. unfold GoalChat.in_conversation.
  apply list_elem_of_fmap. exists conv. split; [|done].
  unfold GoalChat.conv_is. by rewrite Hid, String.eqb_refl.
Qed.

Lemma optimistic_conversations text now st :
  GoalChat.conversations (GoalChat.optimistic text now st)
  = GoalChat.in_conversation (Some (GoalChat.target_conversation now st))
      (fun ms => ms ++ [GoalChat.provisional ("msg-" +:+ pretty now) text now])
      (if truthy_opt (GoalChat.currentConversationId st)
       then GoalChat.conversations st
       else GoalChat.conversations st
            ++ [ {| GoalChat.conv_id := GoalChat.target_conversation now st;
                    GoalChat.conv_title := substring0 50 text;
                    GoalChat.messages := [];
                    GoalChat.createdAt := ISOString now |} ]).
Proof.
  unfold GoalChat.optimistic, GoalChat.target_conversation; simpl.
  destruct (truthy_opt (GoalChat.currentConversationId st)); done.
Qed.

Lemma target_conversation_member now text st :
  well_formed st ->
  exists conv,
    conv ∈ (if truthy_opt (GoalChat.currentConversationId st)
            then GoalChat.conversations st
            else GoalChat.conversations st
                 ++ [ {| GoalChat.conv_id := GoalChat.target_conversation now st;
                         GoalChat.conv_title := substring0 50 text;
                         GoalChat.messages := [];
                         GoalChat.createdAt := ISOString now |} ]) /\
    GoalChat.conv_id conv = GoalChat.target_conversation now st.
Proof.
  intros Hwf. unfold GoalChat.target_conversation.
  destruct (truthy_opt (GoalChat.currentConversationId st)) eqn:Hcur.
  - apply truthy_opt_true in Hcur as (cid & Hcid & Hne).
    destruct (Hwf cid Hcid Hne) as (conv & Hin & Hid).
    exists conv. rewrite Hcid. done.
  - eexists. split; [apply elem_of_app; right; apply list_elem_of_singleton; done|done].
Qed.

(** C3.  A submitted chat message is appended as a provisional message,
    with the user's text and an empty response, under a temporary id; the
    handler makes that one [chatApi.sendMessage] call and no other; when it
    settles, the messages carrying the temporary id (the provisional one
    among them) are updated in place, to the AI response if it resolved and
    to the fixed apology if it rejected, while every other message, the
    length of the list and the order stay as they were.  First for the
    single-thread chat, then for the goal conversations, where the list is
    the one of the conversation the message goes to. *)
Theorem provisional_message_settled_in_place :
  (forall (st : Chat.State) (w : World),
     truthy (trim (Chat.input st)) = true -> Chat.loading st = false ->
     let text := trim (Chat.input st) in
     let tempId := pretty (clock w) in
     let prov := {| cm_id := tempId; cm_message := text; cm_response := "";
                    cm_timestamp := ISOString (clock w) |} in
     let pending := Chat.optimistic tempId text (clock w) st in
     let final := (Chat.handleSubmit st w).1 in
     Chat.messages pending = Chat.messages st ++ [prov] /\
     calls (Chat.handleSubmit st w).2
     = calls w ++ [mkCall (chatApi_sendMessage text None)] /\
     exists f,
       updated_in_place cm_id tempId f (Chat.messages pending) (Chat.messages final) /\
       Chat.messages final !! length (Chat.messages st) = Some (f prov) /\
       length (Chat.messages final) = S (length (Chat.messages st)) /\
       match (remote w _ (calls w) (chatApi_sendMessage text None)).2 with
       | Resolved chatResponse =>
           forall m, cm_message (f m) = cm_message m /\
                     cm_response (f m) = response chatResponse /\
                     cm_timestamp (f m) = cm_timestamp m
       | Rejected _ =>
           forall m, f m = {| cm_id := cm_id m; cm_message := cm_message m;
                              cm_response :=
                                "Sorry, I encountered an error. Please try again.";
                              cm_timestamp := cm_timestamp m |}
       end) /\
  (forall (st : GoalChat.State) (w : World),
     truthy (trim (GoalChat.input st)) = true -> GoalChat.loading st = false ->
     well_formed st ->
     let text := trim (GoalChat.input st) in
     let cid := GoalChat.target_conversation (clock w) st in
     let tempId := "msg-" +:+ pretty (clock w) in
     let prov := {| GoalChat.msg_id := tempId; GoalChat.message := text;
                    GoalChat.msg_response := "";
                    GoalChat.timestamp := ISOString (clock w);
                    GoalChat.proposedProjects := None;
                    GoalChat.requiresConfirmation := None |} in
     let pending := GoalChat.optimistic text (clock w) st in
     let final := (GoalChat.handleSubmit st w).1 in
     updated_in_place GoalChat.conv_id cid
       (fun c => GoalChat.with_messages (GoalChat.messages c ++ [prov]) c)
       (if truthy_opt (GoalChat.currentConversationId st)
        then GoalChat.conversations st
        else GoalChat.conversations st
             ++ [ {| GoalChat.conv_id := cid;
                     GoalChat.conv_title := substring0 50 text;
                     GoalChat.messages := [];
                     GoalChat.createdAt := ISOString (clock w) |} ])
       (GoalChat.conversations pending) /\
     (exists conv, conv ∈ GoalChat.conversations pending /\
        GoalChat.conv_id conv = cid /\ last (GoalChat.messages conv) = Some prov) /\
     calls (GoalChat.handleSubmit st w).2
     = calls w ++ [mkCall (chatApi_sendMessage text None)] /\
     exists f,
       settled_in cid tempId f
         (GoalChat.conversations pending) (GoalChat.conversations final) /\
       (exists conv, conv ∈ GoalChat.conversations final /\
          GoalChat.conv_id conv = cid /\
          last (GoalChat.messages conv) = Some (f prov)) /\
       match (remote w _ (calls w) (chatApi_sendMessage text None)).2 with
       | Resolved chatResponse =>
           forall m, GoalChat.message (f m) = GoalChat.message m /\
                     GoalChat.msg_response (f m) = response chatResponse /\
                     GoalChat.timestamp (f m) = GoalChat.timestamp m
       | Rejected _ =>
           forall m, f m = {| GoalChat.msg_id := GoalChat.msg_id m;
                              GoalChat.message := GoalChat.message m;
                              GoalChat.msg_response :=
                                "Sorry, I encountered an error. Please try again.";
                              GoalChat.timestamp := GoalChat.timestamp m;
                              GoalChat.proposedProjects := GoalChat.proposedProjects m;
                              GoalChat.requiresConfirmation :=
                                GoalChat.requiresConfirmation m |}
       end).
Proof.
  split.
  - intros st w Hin Hld text tempId prov pending final.
    destruct (Chat_handleSubmit_run st w Hin Hld) as [Hcalls Hfinal].
    fold text tempId pending final in Hcalls, Hfinal.
    split; [done|]. split; [done|].
    assert (Hsettle : forall f,
      Chat.messages final = Chat.update_by_id tempId f (Chat.messages pending) ->
      updated_in_place cm_id tempId f (Chat.messages pending) (Chat.messages final) /\
      Chat.messages final !! length (Chat.messages st) = Some (f prov) /\
      length (Chat.messages final) = S (length (Chat.messages st))).
    { intros f ->.
      pose proof (updated_in_place_map cm_id tempId f (Chat.messages pending)) as Hupd.
      split; [done|].
      by apply (updated_in_place_last cm_id tempId f (Chat.messages st) _ prov). }
    destruct (remote w ChatResponse (calls w) (chatApi_sendMessage text None))
      as [elapsed [chatResponse|e]]; simpl.
    + destruct (Hsettle (Chat.resolve_message ("msg-" +:+ pretty (clock w + elapsed)%N)
                           (response chatResponse))) as (H1 & H2 & H3);
        [by rewrite Hfinal|].
      eexists. split; [exact H1|]. split; [exact H2|]. split; [exact H3|]. done.
    + destruct (Hsettle (Chat.fail_message Chat.error_text)) as (H1 & H2 & H3);
        [by rewrite Hfinal|].
      eexists. split; [exact H1|]. split; [exact H2|]. split; [exact H3|]. done.
  - intros st w Hin Hld Hwf text cid tempId prov pending final.
    destruct (GoalChat_handleSubmit_run st w Hin Hld) as [Hcalls Hfinal].
    fold text cid tempId pending final in Hcalls, Hfinal.
    pose proof (optimistic_conversations text (clock w) st) as Hpending.
    fold pending cid tempId in Hpending.
    change (GoalChat.provisional tempId text (clock w)) with prov in Hpending.
    destruct (target_conversation_member (clock w) text st Hwf) as (conv & Hconv & Hid).
    fold cid in Hconv, Hid.
    assert (Hprov : exists conv', conv' ∈ GoalChat.conversations pending /\
              GoalChat.conv_id conv' = cid /\
              last (GoalChat.messages conv') = Some prov).
    { exists (GoalChat.with_messages (GoalChat.messages conv ++ [prov]) conv).
      split; [|split; [done|apply last_snoc]].
      rewrite Hpending.
      by apply (in_conversation_member cid (fun ms => ms ++ [prov])). }
    split.
    { rewrite Hpending. unfold GoalChat.in_conversation, GoalChat.conv_is.
      apply updated_in_place_map. }
    split; [done|]. split; [done|].
    assert (Hsettle : forall f,
      GoalChat.conversations final
      = GoalChat.in_conversation (Some cid) (GoalChat.update_by_id tempId f)
          (GoalChat.conversations pending) ->
      settled_in cid tempId f
        (GoalChat.conversations pending) (GoalChat.conversations final) /\
      (exists conv', conv' ∈ GoalChat.conversations final /\
         GoalChat.conv_id conv' = cid /\
         last (GoalChat.messages conv') = Some (f prov))).
    { intros f ->. split; [apply settled_in_spec|].
      destruct Hprov as (conv' & Hin' & Hid' & Hlast).
      exists (GoalChat.with_messages
                (GoalChat.update_by_id tempId f (GoalChat.messages conv')) conv').
      split; [by apply in_conversation_member|]. split; [done|]. simpl.
      unfold GoalChat.update_by_id. rewrite fmap_last, Hlast. simpl.
      by rewrite String.eqb_refl. }
    destruct (remote w ChatResponse (calls w) (chatApi_sendMessage text None))
      as [elapsed [chatResponse|e]]; simpl.
    + destruct (Hsettle
        (GoalChat.resolve_message ("msg-" +:+ pretty (clock w + elapsed)%N) chatResponse
           (imap (GoalChat.editable
                    ("proj-" +:+ ("msg-" +:+ pretty (clock w + elapsed)%N)) cid)
                 (default [] (proposed_projects chatResponse)))))
        as (H1 & H2); [by rewrite Hfinal|].
      eexists. split; [exact H1|]. split; [exact H2|]. done.
    + destruct (Hsettle GoalChat.fail_message) as (H1 & H2); [by rewrite Hfinal|].
      eexists. split; [exact H1|]. split; [exact H2|]. done.
Qed.

End Optimistic.

(** ** The project workspace: plans and clarifying questions *)

Section Plans.
Import Js Client Home Frame.

(** C2.  [handleGeneratePlan] makes one [generatePlan] call; if the result
    asks for clarification, or the call fails, the selected project and the
    projects list are left as they were, and if it does not, the plan of the
    selected project and of its entries in the list becomes the returned
    text, nothing else of them changing.  [handleSendMessage], when it
    continues a plan generation, leaves both unchanged on a clarifying
    result and makes no further call; only on a final result does it reload
    the project from the server. *)
Theorem plan_replaced_only_when_final :
  (forall (st : State) (w : World) (sel : Project),
     selectedProject st = Some sel -> chatLoading st = false ->
     let st' := (handleGeneratePlan st w).1 in
     calls (handleGeneratePlan st w).2
     = calls w ++ [mkCall (projectsApi_generatePlan (project_id sel) None)] /\
     match (remote w _ (calls w) (projectsApi_generatePlan (project_id sel) None)).2 with
     | Resolved result =>
         let planned (p : Project) :=
           {| project_id := project_id p; title := title p;
              description := description p; due_date := due_date p;
              plan := Some (result_plan result);
              created_at := created_at p; updated_at := updated_at p;
              todos := todos p |} in
         if needs_clarification result
         then selectedProject st' = selectedProject st /\ projects st' = projects st
         else selectedProject st' = Some (planned sel) /\
              updated_in_place project_id (project_id sel) planned
                (projects st) (projects st')
     | Rejected _ => selectedProject st' = selectedProject st /\ projects st' = projects st
     end) /\
  (forall (st : State) (w : World) (sel : Project),
     selectedProject st = Some sel -> truthy (trim (chatInput st)) = true ->
     chatLoading st = false -> planGenerating st = true ->
     let st' := (handleSendMessage st w).1 in
     let c := projectsApi_generatePlan (project_id sel) (Some (trim (chatInput st))) in
     exists rest,
       calls (handleSendMessage st w).2 = calls w ++ mkCall c :: rest /\
       match (remote w _ (calls w) c).2 with
       | Resolved result =>
           if needs_clarification result
           then rest = [] /\
                selectedProject st' = selectedProject st /\ projects st' = projects st
           else rest = [mkCall (projectsApi_get (project_id sel))]
       | Rejected _ =>
           rest = [] /\
           selectedProject st' = selectedProject st /\ projects st' = projects st
       end).
Proof.
  split.
  - intros st w sel Hsel Hld. simpl. unfold handleGeneratePlan.
    rewrite Hsel, Hld. unfold bind, Date_now, await.
    destruct (remote w PlanResult (calls w) (projectsApi_generatePlan (project_id sel) None))
      as [elapsed [result|e]]; simpl; [|done].
    split; [done|].
    destruct (needs_clarification result); simpl; [done|].
    split; [done|]. apply updated_in_place_map.
  - intros st w sel Hsel Hin Hld Hpg. simpl. unfold handleSendMessage.
    rewrite Hsel, Hin, Hld. simpl. rewrite Hpg, orb_true_r. simpl.
    unfold bind, Date_now, await.
    destruct (remote w PlanResult (calls w)
                (projectsApi_generatePlan (project_id sel) (Some (trim (chatInput st)))))
      as [elapsed [result|e]]; simpl.
    + destruct (needs_clarification result); simpl.
      * exists []. done.
      * unfold bind, await; simpl.
        destruct (remote w Project _ (projectsApi_get (project_id sel)))
          as [elapsed' [data|e]]; simpl.
        -- eexists. split; [by rewrite <- app_assoc|done].
        -- eexists. split; [by rewrite <- app_assoc|done].
    + exists []. done.
Qed.

End Plans.

(** ** The OAuth callback page *)

Section OAuth.
Import Js Client OAuthCallback.

(** C5.  A parameter is carried by the callback URL, as the page reads it,
    when [searchParams.get] gives a string that passes the page's
    truthiness test.  The completion endpoint is called exactly when the
    URL carries a code and a state and no error, and the one call then has
    that code and state; in every other case the page makes no call and
    ends in the error status. *)
Theorem oauth_completion_guarded (searchParams : SearchParams) (st : State) (w : World) :
  let st' := (onCallback searchParams st w).1 in
  let w' := (onCallback searchParams st w).2 in
  match given (get "code" searchParams), given (get "state" searchParams),
        given (get "error" searchParams) with
  | Some code, Some state, None =>
      calls w' = calls w
        ++ [mkCall (settingsApi_completeGoogleCalendarOAuth code state
                      (origin w +:+ "/settings/oauth/callback"))]
  | _, _, _ => calls w' = calls w /\ status st' = error
  end.
Proof.
  simpl. unfold onCallback, given, truthy_opt.
  destruct (get "error" searchParams) as [e|]; [destruct (truthy e) eqn:He|].
  - by destruct (get "code" searchParams) as [c|]; [destruct (truthy c)|];
      (destruct (get "state" searchParams) as [s'|]; [destruct (truthy s')|]).
  - destruct (get "code" searchParams) as [c|]; [destruct (truthy c)|]; simpl;
      (destruct (get "state" searchParams) as [s'|]; [destruct (truthy s') eqn:Hs|]);
      simpl; try done.
    unfold bind, location_origin, await.
    by destruct (remote w OAuthResult (calls w) _) as [elapsed [res|err]].
  - destruct (get "code" searchParams) as [c|]; [destruct (truthy c)|]; simpl;
      (destruct (get "state" searchParams) as [s'|]; [destruct (truthy s') eqn:Hs|]);
      simpl; try done.
    unfold bind, location_origin, await.
    by destruct (remote w OAuthResult (calls w) _) as [elapsed [res|err]].
Qed.

End OAuth.

(** ** The auth context *)

Section Auth.
Import Js Client AuthContext.

(** C6.  [isAuthenticated] holds exactly when a user is set; [logout]
    removes the stored token and clears the user; and on mount with a
    stored token (one that passes the provider's [if (token)]), a rejected
    verification removes the token and leaves the user unset. *)
Theorem auth_context_invariants :
  (forall st : State, isAuthenticated st = true <-> exists u, user st = Some u) /\
  (forall (st : State) (w : World),
     localStorage (logout st w).2 !! "token" = None /\
     user (logout st w).1 = None /\
     isAuthenticated (logout st w).1 = false) /\
  (forall (w : World) (token : string) (e : Exn),
     given (localStorage w !! "token") = Some token ->
     (remote w _ (calls w) authApi_verifyToken).2 = Rejected e ->
     localStorage (onMount initial w).2 !! "token" = None /\
     user (onMount initial w).1 = None /\
     isAuthenticated (onMount initial w).1 = false /\
     calls (onMount initial w).2 = calls w ++ [mkCall authApi_verifyToken]).
Proof.
  split; [|split].
  - intros [[u|] ld]; unfold isAuthenticated; simpl.
    + split; eauto.
    + split; [done|]. by intros [u ?].
  - intros st w. unfold logout, bind, removeItem; simpl.
    split; [apply lookup_delete_eq|done].
  - intros w token e Htok Hrej. unfold onMount, bind, getItem; simpl.
    unfold given in Htok. unfold truthy_opt.
    destruct (localStorage w !! "token") as [t|]; [|done].
    destruct (truthy t); [|done].
    unfold await. destruct (remote w User (calls w) authApi_verifyToken) as [elapsed r].
    simpl in Hrej. subst r. simpl. split; [apply lookup_delete_eq|done].
Qed.

End Auth.

(** ** The password form *)

Section Password.
Import Js Client Settings.

(** C9.  The password form calls the update-password endpoint exactly when
    the new password equals its confirmation and has at least 6 characters;
    otherwise it makes no call, shows an error message and leaves the three
    password fields (and the loading flag) as they were. *)
Theorem password_update_guarded (st : State) (w : World) :
  let st' := (handlePasswordUpdate st w).1 in
  let w' := (handlePasswordUpdate st w).2 in
  (newPassword st = confirmPassword st -> 6 <= String.length (newPassword st) ->
     calls w' = calls w
       ++ [mkCall (settingsApi_updatePassword (currentPassword st) (newPassword st))]) /\
  (newPassword st <> confirmPassword st \/ String.length (newPassword st) < 6 ->
     calls w' = calls w /\
     error st' = (if String.eqb (newPassword st) (confirmPassword st)
                  then "New password must be at least 6 characters long"
                  else "New passwords do not match") /\
     error st' <> "" /\
     success st' = "" /\
     currentPassword st' = currentPassword st /\
     newPassword st' = newPassword st /\
     confirmPassword st' = confirmPassword st /\
     loading st' = loading st).
Proof.
  simpl. unfold handlePasswordUpdate. simpl. split.
  - intros Heq Hlen. apply String.eqb_eq in Heq. rewrite Heq. simpl.
    apply Nat.ltb_ge in Hlen. rewrite Hlen.
    unfold bind, await.
    destruct (remote w string (calls w) _) as [elapsed [res|e]]; done.
  - intros Hbad.
    destruct (String.eqb_spec (newPassword st) (confirmPassword st)) as [Heq|Hne]; simpl.
    + destruct Hbad as [Hne|Hlen]; [done|].
      apply Nat.ltb_lt in Hlen. rewrite Hlen. done.
    + done.
Qed.

End Password.

(** ** The request helper *)

Section Request.
Import Js Api.

Lemma get_property_error v :
  v <> JNull -> get_property v "error" = Resolved (error_field v).
Proof. by destruct v. Qed.

Lemma settle_not_ok response :
  ok response = false ->
  settle response =
    match json_ response with
    | Rejected _ => Rejected (Error "Request failed")
    | Resolved JNull => Rejected (TypeError (null_read_message "error"))
    | Resolved v =>
        if truthy_json (error_field v)
        then Rejected (new_Error (default JNull (error_field v)))
        else Rejected (Error ("HTTP error! status: " +:+ pretty (status response)))
    end.
Proof.
  intros Hok. unfold settle. rewrite Hok. simpl.
  destruct (json_ response) as [v|e]; [|done].
  destruct v; done.
Qed.

Lemma settle_ok response : ok response = true -> settle response = json_ response.
Proof. intros Hok. unfold settle. by rewrite Hok. Qed.

(** C4, as the helper has it.  Once [fetch] has resolved: on a response
    that is not ok the helper rejects and returns nothing; the error is
    [Error('Request failed')] when the body is not JSON; when the body is
    JSON other than [null], it is [new Error] of the body's [error] field
    if that field is truthy, and [Error('HTTP error! status: <code>')] if
    it is not.  [new Error] of a non-empty string is the [Error] with that
    message; of any other truthy value it is the [Error] whose message is
    the value converted to a string, unless that conversion throws, and
    then the helper rejects with what it throws.  On an ok response the
    helper settles as [response.json()] does: it returns the parsed body,
    and rejects if the body is not JSON.  Both revisions of the helper
    agree. *)
Theorem request_settles (env : Env) (endpoint : string) (options : RequestInit)
    (sent : HttpRequest) (response : Response) :
  build env endpoint options = Resolved sent ->
  fetch env sent = Resolved response ->
  let r := request env endpoint options in
  (ok response = false ->
     is_resolved r = false /\
     (forall e, json_ response = Rejected e -> r = Rejected (Error "Request failed")) /\
     (forall v, json_ response = Resolved v -> v <> JNull ->
        (forall s, error_field v = Some (JStr s) -> s <> "" -> r = Rejected (Error s)) /\
        (forall p, error_field v = Some p -> truthy_json (Some p) = true ->
           r = match ToString p with
               | Resolved text => Rejected (Error text)
               | Rejected e => Rejected e
               end) /\
        (truthy_json (error_field v) = false ->
           r = Rejected (Error ("HTTP error! status: " +:+ pretty (status response)))))) /\
  (ok response = true ->
     r = json_ response /\
     (forall v, json_ response = Resolved v -> r = Resolved v)) /\
  (forall sent', build_legacy env endpoint options = Resolved sent' ->
     fetch env sent' = Resolved response ->
     request_legacy env endpoint options = r).
Proof.
  intros Hbuild Hfetch. simpl. unfold request, request_legacy.
  rewrite Hbuild. cbn [and_then]. rewrite Hfetch. cbn [and_then].
  split; [|split].
  - intros Hok. rewrite (settle_not_ok _ Hok).
    split; [|split].
    + destruct (json_ response) as [[]|]; simpl; try done;
        match goal with |- context [if ?b then _ else _] => by destruct b end.
    + by intros e ->.
    + intros v -> Hv.
      assert (Htruthy : forall p, error_field v = Some p -> truthy_json (Some p) = true ->
                match v with
                | JNull => Rejected (TypeError (null_read_message "error"))
                | _ => if truthy_json (error_field v)
                       then Rejected (new_Error (default JNull (error_field v)))
                       else Rejected (Error ("HTTP error! status: "
                                             +:+ pretty (status response)))
                end = match ToString p with
                      | Resolved text => Rejected (A := json) (Error text)
                      | Rejected e => Rejected e
                      end).
      { intros p Hp Ht. unfold new_Error.
        destruct v; try done; rewrite Hp, Ht; simpl; by destruct (ToString p). }
      split; [|split].
      * intros s Hs Hne. rewrite (Htruthy (JStr s) Hs); [done|]. simpl.
        by apply truthy_true.
      * exact Htruthy.
      * intros Hf. destruct v; try done; by rewrite Hf.
  - intros Hok. rewrite (settle_ok _ Hok). split; [done|]. by intros v ->.
  - intros sent' -> Hfetch'. cbn [and_then]. by rewrite Hfetch'.
Qed.

End Request.

(** ** The Authorization header *)

Section Authorization.
Import Js Api.

Local Open Scope settled_scope.

Lemma Headers_set_accepted name value v h :
  header_value name value = Some v ->
  Headers_set name value h = Resolved (<[toLowerCase name := v]> h).
Proof. intros Hv. unfold Headers_set. by rewrite Hv. Qed.

Lemma Headers_set_refused name value h :
  header_value name value = None ->
  exists m, Headers_set name value h = Rejected (TypeError m).
Proof. intros Hv. unfold Headers_set, invalid_header. rewrite Hv. by eexists. Qed.





(** What [Object_set] and the spread keep: a property of every entry. *)
Lemma Object_define_Forall (P : string * string -> Prop) name value o :
  P (name, value) -> Forall P o -> Forall P (Object_define name value o).
Proof.
  intros Hnew Ho. induction Ho as [|kv o Hkv Ho IH]; simpl; [by repeat constructor|].
  destruct (comes_before name kv.1); by repeat constructor.
Qed.

Lemma Object_set_Forall (P : string * string -> Prop) name value o :
  P (name, value) -> Forall P o -> Forall P (Object_set name value o).
Proof.
  intros Hnew Ho. unfold Object_set. destruct (Object_has name o).
  - apply Forall_fmap. eapply Forall_impl; [exact Ho|]. intros kv Hkv. simpl.
    by destruct (String.eqb kv.1 name).
  - by apply Object_define_Forall.
Qed.

Lemma spread_Forall (P : string * string -> Prop) base entries :
  Forall P base -> Forall P entries -> Forall P (spread base entries).
Proof.
  unfold spread. intros Hbase Hentries. revert base Hbase.
  induction Hentries as [|kv entries Hkv _ IH]; intros base Hbase; simpl; [done|].
  apply IH. apply Object_set_Forall; [by destruct kv|done].
Qed.

Lemma Object_has_false name o :
  Forall (fun kv => kv.1 <> name) o -> Object_has name o = false.
Proof.
  unfold Object_has. induction 1 as [|kv o Hkv _ IH]; simpl; [done|].
  rewrite IH. by destruct (String.eqb_spec kv.1 name).
Qed.

Lemma Object_define_last name value o :
  array_index name = None -> Object_define name value o = o ++ [(name, value)].
Proof.
  intros Hname. induction o as [|kv o IH]; simpl; [done|].
  unfold comes_before. rewrite Hname. by rewrite IH.
Qed.

Lemma client_call_no_headers call : client_call call -> init_headers call.2 = [].
Proof. by destruct 1. Qed.

Lemma wire_client_call {T} (c : Client.ApiCall T) call :
  wire c = Some call -> client_call call.
Proof. destruct c; simpl; intros [= <-]; constructor. Qed.

(** The headers after the Content-Type step. *)
Lemma content_type_step (b : option json) (h : Headers) :
  (if negb (Headers_has "Content-Type" h) && bool_decide (is_Some b)
   then Headers_set "Content-Type" "application/json" h
   else Resolved h)
  = Resolved (if negb (Headers_has "Content-Type" h) && bool_decide (is_Some b)
              then <["content-type" := "application/json"]> h else h).
Proof. by destruct (_ && _). Qed.

(** [build], step by step. *)
Lemma build_spec env endpoint options h0 :
  Headers_new (init_headers options) = Resolved h0 ->
  let h1 := if negb (Headers_has "Content-Type" h0)
               && bool_decide (is_Some (body options))
            then <["content-type" := "application/json"]> h0 else h0 in
  let sent h := {| url := API_BASE_URL env +:+ endpoint; req_method := method options;
                   req_headers := h; req_body := body options |} in
  build env endpoint options
  = match given (storage env !! "token") with
    | None => Resolved (sent h1)
    | Some t =>
        match header_value "Authorization" ("Bearer " +:+ t) with
        | Some v => Resolved (sent (<["authorization" := v]> h1))
        | None =>
            Rejected (invalid_header "Failed to execute 'set' on 'Headers'" "Authorization")
        end
    end.
Proof.
  intros Hnew. cbv zeta. unfold build. rewrite Hnew. cbn [and_then].
  rewrite content_type_step. cbn [and_then]. unfold given.
  destruct (storage env !! "token") as [t|]; [|done].
  destruct (truthy t); [|done]. unfold Headers_set.
  by destruct (header_value "Authorization" ("Bearer " +:+ t)).
Qed.

Lemma build_refused env endpoint options e :
  Headers_new (init_headers options) = Rejected e ->
  build env endpoint options = Rejected e.
Proof. intros Hnew. unfold build. by rewrite Hnew. Qed.


(** The object literal of the earlier revision, step by step. *)
Lemma build_legacy_headers_spec env options :
  Forall (fun kv => toLowerCase kv.1 <> "authorization") (init_headers options) ->
  build_legacy_headers env options
  = spread [("Content-Type", "application/json")] (init_headers options)
    ++ match given (storage env !! "token") with
       | Some t => [("Authorization", "Bearer " +:+ t)]
       | None => []
       end.
Proof.
  intros Hinit. unfold build_legacy_headers, given.
  destruct (storage env !! "token") as [t|]; [|by rewrite app_nil_r].
  destruct (truthy t); [|by rewrite app_nil_r].
  unfold Object_set. rewrite Object_has_false; [by apply Object_define_last|].
  apply spread_Forall; [by repeat constructor|].
  eapply Forall_impl; [exact Hinit|]. intros kv Hkv Heq. apply Hkv. by rewrite Heq.
Qed.





End Authorization.

(** ** Projects on the server *)

Section Projects.
Import Js Api Backend.

Lemma strip_prefix_app p s : strip_prefix p (p +:+ s) = Some s.
Proof. induction p as [|a p IH]; simpl; [done|]. by rewrite Ascii.eqb_refl. Qed.

Lemma str_field_project_data t d dd :
  str_field "title" (project_data t d dd) = t /\
  str_field "description" (project_data t d dd) = d /\
  str_field "due_date" (project_data t d dd) = dd /\
  str_field "plan" (project_data t d dd) = None.
Proof.
  destruct t, d, dd; unfold project_data, obj, str_field; simpl;
    repeat split; by simplify_map_eq.
Qed.

Lemma str_field_project_json id row :
  str_field "id" (project_json id row) = Some id /\
  str_field "title" (project_json id row) = Some (sp_title row) /\
  str_field "description" (project_json id row) = sp_description row /\
  str_field "due_date" (project_json id row) = sp_due_date row /\
  str_field "plan" (project_json id row) = sp_plan row.
Proof.
  destruct row as [o t [d|] [dd|] [pl|] c u]; unfold project_json, obj, str_field; simpl;
    repeat split; by simplify_map_eq.
Qed.

(** The request a client call makes from a browser that holds a token the
    [Headers] object keeps as it is. *)
Lemma build_browser s token call :
  token <> "" ->
  header_value "Authorization" ("Bearer " +:+ token) = Some ("Bearer " +:+ token) ->
  init_headers call.2 = [] ->
  build (browser (Some token) s) call.1 call.2
  = Resolved {| url := "/api" +:+ call.1;
                req_method := method call.2;
                req_headers :=
                  <["authorization" := "Bearer " +:+ token]>
                    (if bool_decide (is_Some (body call.2))
                     then {[ "content-type" := "application/json" ]} else ∅);
                req_body := body call.2 |}.
Proof.
  intros Hne Hvalue Hinit.
  rewrite (build_spec _ _ _ ∅) by (by rewrite Hinit).
  cbn [browser storage]. rewrite lookup_singleton_eq. unfold given.
  apply truthy_true in Hne. rewrite Hne, Hvalue.
  by destruct (bool_decide (is_Some (body call.2))).
Qed.

Lemma authenticate_sent s token user u m h b :
  sessions s !! token = Some user ->
  authenticate s {| url := u; req_method := m;
                    req_headers := <["authorization" := "Bearer " +:+ token]> h;
                    req_body := b |} = Some user.
Proof.
  intros Hsession. unfold authenticate, Headers_get. cbn [req_headers].
  change (toLowerCase "Authorization") with "authorization".
  by rewrite lookup_insert_eq, strip_prefix_app.
Qed.

Lemma serve_create s token user t d dd h :
  sessions s !! token = Some user ->
  serve s {| url := "/api" +:+ (projectsApi_create t d dd).1;
             req_method := method (projectsApi_create t d dd).2;
             req_headers := <["authorization" := "Bearer " +:+ token]> h;
             req_body := body (projectsApi_create t d dd).2 |}
  = (reply 201 (project_json (create user t d dd s).1.1 (create user t d dd s).1.2),
     (create user t d dd s).2).
Proof.
  intros Hsession. unfold serve.
  rewrite (authenticate_sent s token user _ _ _ _ Hsession).
  cbn [url req_method req_body projectsApi_create fst snd with_body method body].
  change ("/api" +:+ "/projects") with ("/api/projects" +:+ "").
  rewrite strip_prefix_app.
  destruct (str_field_project_data (Some t) d dd) as (-> & -> & -> & _). done.
Qed.

Lemma serve_get s token user id h :
  sessions s !! token = Some user ->
  serve s {| url := "/api" +:+ (projectsApi_get id).1;
             req_method := method (projectsApi_get id).2;
             req_headers := <["authorization" := "Bearer " +:+ token]> h;
             req_body := body (projectsApi_get id).2 |}
  = (match get user id s with
     | Some row => reply 200 (project_json id row)
     | None => error_reply 404 "Project not found"
     end, s).
Proof.
  intros Hsession. unfold serve.
  rewrite (authenticate_sent s token user _ _ _ _ Hsession).
  cbn [url req_method req_body projectsApi_get fst snd GET method body].
  change ("/api" +:+ ("/projects/" +:+ id)) with ("/api/projects" +:+ String "/" id).
  rewrite strip_prefix_app. by destruct (get user id s).
Qed.

Lemma serve_update s token user id t d dd h :
  sessions s !! token = Some user ->
  serve s {| url := "/api" +:+ (projectsApi_update id t d dd).1;
             req_method := method (projectsApi_update id t d dd).2;
             req_headers := <["authorization" := "Bearer " +:+ token]> h;
             req_body := body (projectsApi_update id t d dd).2 |}
  = match update user id
            {| p_title := t; p_description := d; p_due_date := dd; p_plan := None |} s with
    | Some (row, s') => (reply 200 (project_json id row), s')
    | None => (error_reply 404 "Project not found", s)
    end.
Proof.
  intros Hsession. unfold serve.
  rewrite (authenticate_sent s token user _ _ _ _ Hsession).
  cbn [url req_method req_body projectsApi_update fst snd with_body method body].
  change ("/api" +:+ ("/projects/" +:+ id)) with ("/api/projects" +:+ String "/" id).
  rewrite strip_prefix_app. unfold patch_of.
  destruct (str_field_project_data t d dd) as (-> & -> & -> & ->). done.
Qed.

Lemma get_after_create user t d dd s :
  get user (create user t d dd s).1.1 (create user t d dd s).2
  = Some (create user t d dd s).1.2.
Proof.
  unfold get, create; simpl. rewrite lookup_insert_eq. simpl.
  by rewrite String.eqb_refl.
Qed.

Lemma get_after_update user id p s row s' :
  update user id p s = Some (row, s') -> get user id s' = Some row.
Proof.
  unfold update. destruct (get user id s) as [row0|] eqn:Hget; [|done].
  intros [= <- <-]. unfold get in *; simpl. rewrite lookup_insert_eq. simpl.
  destruct (rows s !! id) as [r|]; [|done].
  destruct (String.eqb (owner r) user) eqn:Ho; [|done].
  injection Hget as ->. by rewrite Ho.
Qed.

Lemma settle_reply code v :
  N.leb 200 code && N.leb code 299 = true -> settle (reply code v) = Resolved v.
Proof. intros Hok. unfold settle, ok, reply; cbn [status json_]. by rewrite Hok. Qed.

Lemma roundtrip_create s token user t d dd :
  sessions s !! token = Some user -> token <> "" ->
  header_value "Authorization" ("Bearer " +:+ token) = Some ("Bearer " +:+ token) ->
  roundtrip (Some token) (projectsApi_create t d dd) s
  = (Resolved (project_json (create user t d dd s).1.1 (create user t d dd s).1.2),
     (create user t d dd s).2).
Proof.
  intros Hsession Hne Hvalue. unfold roundtrip, request.
  rewrite (build_browser s token _ Hne Hvalue) by done.
  cbn [and_then browser fetch].
  rewrite (serve_create s token user t d dd _ Hsession). cbn [fst snd and_then].
  by rewrite settle_reply.
Qed.

Lemma roundtrip_get s token user id row :
  sessions s !! token = Some user -> token <> "" ->
  header_value "Authorization" ("Bearer " +:+ token) = Some ("Bearer " +:+ token) ->
  get user id s = Some row ->
  roundtrip (Some token) (projectsApi_get id) s = (Resolved (project_json id row), s).
Proof.
  intros Hsession Hne Hvalue Hget. unfold roundtrip, request.
  rewrite (build_browser s token _ Hne Hvalue) by done.
  cbn [and_then browser fetch].
  rewrite (serve_get s token user id _ Hsession), Hget. cbn [fst snd and_then].
  by rewrite settle_reply.
Qed.

Lemma roundtrip_update s token user id t d dd row s' :
  sessions s !! token = Some user -> token <> "" ->
  header_value "Authorization" ("Bearer " +:+ token) = Some ("Bearer " +:+ token) ->
  update user id {| p_title := t; p_description := d; p_due_date := dd; p_plan := None |} s
  = Some (row, s') ->
  roundtrip (Some token) (projectsApi_update id t d dd) s
  = (Resolved (project_json id row), s').
Proof.
  intros Hsession Hne Hvalue Hupd. unfold roundtrip, request.
  rewrite (build_browser s token _ Hne Hvalue) by done.
  cbn [and_then browser fetch].
  rewrite (serve_update s token user id t d dd _ Hsession), Hupd. cbn [fst snd and_then].
  by rewrite settle_reply.
Qed.

(** C8.  Against the project store, for a signed-in user whose token the
    browser sends as it is stored: a project created through
    [projectsApi.create] and then fetched through [projectsApi.get] comes
    back with the title, description and due date it was created with; and
    after [projectsApi.update], every field of the project that the update
    does not carry is what it was before, the fields it carries being the
    new values. *)
Theorem project_fields_round_trip :
  (forall (s : Store) (token user title : string) (description due_date : option string),
     sessions s !! token = Some user -> token <> "" ->
     header_value "Authorization" ("Bearer " +:+ token) = Some ("Bearer " +:+ token) ->
     let created := roundtrip (Some token) (projectsApi_create title description due_date) s in
     exists project id,
       created.1 = Resolved project /\ str_field "id" project = Some id /\
       exists fetched,
         (roundtrip (Some token) (projectsApi_get id) created.2).1 = Resolved fetched /\
         str_field "title" fetched = Some title /\
         str_field "description" fetched = description /\
         str_field "due_date" fetched = due_date) /\
  (forall (s : Store) (token user id : string) (row : StoredProject)
          (title description due_date : option string),
     sessions s !! token = Some user -> token <> "" ->
     header_value "Authorization" ("Bearer " +:+ token) = Some ("Bearer " +:+ token) ->
     get user id s = Some row ->
     let updated :=
       roundtrip (Some token) (projectsApi_update id title description due_date) s in
     (roundtrip (Some token) (projectsApi_get id) s).1 = Resolved (project_json id row) /\
     exists row',
       updated.1 = Resolved (project_json id row') /\
       (roundtrip (Some token) (projectsApi_get id) updated.2).1
       = Resolved (project_json id row') /\
       owner row' = owner row /\
       sp_title row' = default (sp_title row) title /\
       sp_description row'
       = match description with Some d => Some d | None => sp_description row end /\
       sp_due_date row'
       = match due_date with Some d => Some d | None => sp_due_date row end /\
       sp_plan row' = sp_plan row /\
       sp_created_at row' = sp_created_at row /\
       sp_updated_at row' = sp_updated_at row).
Proof.
  split.
  - intros s token user t d dd Hsession Hne Hvalue. cbv zeta.
    rewrite (roundtrip_create s token user t d dd Hsession Hne Hvalue). cbn [fst snd].
    set (id := (create user t d dd s).1.1). set (row := (create user t d dd s).1.2).
    destruct (str_field_project_json id row) as (Hid & Ht & Hd & Hdd & _).
    eexists _, id. split; [done|]. split; [done|].
    exists (project_json id row). split.
    + rewrite (roundtrip_get _ token user id row); [done|done|done|done|].
      apply get_after_create.
    + subst row. rewrite Ht, Hd, Hdd. done.
  - intros s token user id row t d dd Hsession Hne Hvalue Hget. cbv zeta.
    split; [by rewrite (roundtrip_get s token user id row)|].
    destruct (update user id
                {| p_title := t; p_description := d; p_due_date := dd; p_plan := None |} s)
      as [[row' s']|] eqn:Hupd.
    + rewrite (roundtrip_update s token user id t d dd row' s' Hsession Hne Hvalue Hupd).
      cbn [fst snd]. exists row'. split; [done|]. split.
      * rewrite (roundtrip_get s' token user id row'); [done| |done|done|].
        -- unfold update in Hupd. rewrite Hget in Hupd. by injection Hupd as _ <-.
        -- by apply (get_after_update user id _ s _ _ Hupd).
      * unfold update in Hupd. rewrite Hget in Hupd. injection Hupd as <- _. done.
    + unfold update in Hupd. by rewrite Hget in Hupd.
Qed.

End Projects.

(** ** The theorems at sample inputs *)

Section Samples.
Import Js Client Frame.

Lemma provisional_message_settled_in_place_witness :
  (truthy (trim (Chat.input Example.chat_state)) = true /\
   Chat.loading Example.chat_state = false /\
   calls (Chat.handleSubmit Example.chat_state Example.world).2
   = [mkCall (chatApi_sendMessage "plan my week" None)] /\
   length (Chat.messages (Chat.handleSubmit Example.chat_state Example.world).1) = 2) /\
  (truthy (trim (GoalChat.input Example.goal_state)) = true /\
   GoalChat.loading Example.goal_state = false /\
   well_formed Example.goal_state /\
   calls (GoalChat.handleSubmit Example.goal_state Example.world).2
   = [mkCall (chatApi_sendMessage "I want to travel" None)]).
Proof.
  destruct provisional_message_settled_in_place as [HChat HGoal].
  split.
  - assert (H1 : truthy (trim (Chat.input Example.chat_state)) = true) by reflexivity.
    assert (H2 : Chat.loading Example.chat_state = false) by reflexivity.
    destruct (HChat Example.chat_state Example.world H1 H2)
      as (_ & Hcalls & f & _ & _ & Hlen & _).
    split; [exact H1|]. split; [exact H2|]. split; [exact Hcalls|exact Hlen].
  - assert (H1 : truthy (trim (GoalChat.input Example.goal_state)) = true) by reflexivity.
    assert (H2 : GoalChat.loading Example.goal_state = false) by reflexivity.
    assert (H3 : well_formed Example.goal_state).
    { intros cid Hcid _. injection Hcid as <-.
      eexists. split; [apply list_elem_of_here|reflexivity]. }
    destruct (HGoal Example.goal_state Example.world H1 H2 H3) as (_ & _ & Hcalls & _).
    split; [exact H1|]. split; [exact H2|]. split; [exact H3|exact Hcalls].
Defined.

Lemma plan_replaced_only_when_final_witness :
  Home.selectedProject Example.home_state = Some (Example.project "p1" "Learn Go") /\
  Home.chatLoading Example.home_state = false /\
  truthy (trim (Home.chatInput Example.home_state)) = true /\
  Home.planGenerating Example.home_state = true /\
  calls (Home.handleGeneratePlan Example.home_state Example.world).2
  = [mkCall (projectsApi_generatePlan "p1" None)] /\
  plan <$> Home.selectedProject (Home.handleGeneratePlan Example.home_state Example.world).1
  = Some (Some "1. Start") /\
  Home.projects (Home.handleSendMessage Example.home_state Example.world).1
  = Home.projects Example.home_state.
Proof.
  destruct plan_replaced_only_when_final as [HGenerate HSend].
  assert (H1 : Home.selectedProject Example.home_state
               = Some (Example.project "p1" "Learn Go")) by reflexivity.
  assert (H2 : Home.chatLoading Example.home_state = false) by reflexivity.
  assert (H3 : truthy (trim (Home.chatInput Example.home_state)) = true) by reflexivity.
  assert (H4 : Home.planGenerating Example.home_state = true) by reflexivity.
  destruct (HGenerate Example.home_state Example.world _ H1 H2) as [Hcalls Hplan].
  destruct (HSend Example.home_state Example.world _ H1 H3 H2 H4)
    as (rest & _ & Hkept).
  cbn in Hplan. destruct Hplan as [Hsel _].
  cbn in Hkept. destruct Hkept as (_ & _ & Hprojects).
  split; [exact H1|]. split; [exact H2|]. split; [exact H3|]. split; [exact H4|].
  split; [exact Hcalls|]. split; [exact (f_equal (fmap plan) Hsel) | exact Hprojects].
Defined.

Lemma request_settles_witness :
  let body := Api.JObj {[ "error" := Api.JStr "Project not found" ]} in
  let env := Example.env 404 (Resolved body) in
  exists sent,
    Api.build env "/projects/9" Api.GET = Resolved sent /\
    Api.fetch env sent = Resolved {| Api.status := 404; Api.json_ := Resolved body |} /\
    Api.request env "/projects/9" Api.GET = Rejected (Error "Project not found").
Proof.
  cbv zeta.
  set (body := Api.JObj {[ "error" := Api.JStr "Project not found" ]}).
  eexists. split; [reflexivity|]. split; [reflexivity|].
  destruct (request_settles (Example.env 404 (Resolved body)) "/projects/9" Api.GET
              _ {| Api.status := 404; Api.json_ := Resolved body |} eq_refl eq_refl)
    as (Hnot_ok & _ & _).
  destruct (Hnot_ok eq_refl) as (_ & _ & Hbody).
  destruct (Hbody body eq_refl) as (Hstr & _ & _); [discriminate|].
  apply Hstr; [reflexivity|discriminate].
Defined.

(** The helper on a response that is not ok and whose body is the JSON
    [null], and on an ok response whose body is not JSON (an empty body,
    say): the first is a [TypeError], not the status message, and the second
    is a rejection, not a returned value. *)
Lemma request_null_body_counterexample :
  let bad := Example.env 500 (Resolved Api.JNull) in
  let empty := Example.env 204 (Rejected (SyntaxError "Unexpected end of JSON input")) in
  Api.ok {| Api.status := 500; Api.json_ := Resolved Api.JNull |} = false /\
  Api.request bad "/projects" Api.GET
  = Rejected (TypeError "Cannot read properties of null (reading 'error')") /\
  Api.request bad "/projects" Api.GET <> Rejected (Error "HTTP error! status: 500") /\
  Api.ok {| Api.status := 204;
            Api.json_ := Rejected (SyntaxError "Unexpected end of JSON input") |} = true /\
  is_resolved (Api.request empty "/projects/9" (snd (Api.projectsApi_delete "9"))) = false.
Proof. cbv zeta. repeat split; try reflexivity. discriminate. Qed.

Lemma oauth_completion_guarded_witness :
  calls (OAuthCallback.onCallback [("code", "abc"); ("state", "xyz")]
           OAuthCallback.initial Example.world).2
  = [mkCall (settingsApi_completeGoogleCalendarOAuth "abc" "xyz"
               "http://localhost:5173/settings/oauth/callback")] /\
  calls (OAuthCallback.onCallback [("error", "access_denied"); ("state", "xyz")]
           OAuthCallback.initial Example.world).2 = [] /\
  OAuthCallback.status
    (OAuthCallback.onCallback [("error", "access_denied"); ("state", "xyz")]
       OAuthCallback.initial Example.world).1 = OAuthCallback.error.
Proof.
  split.
  - exact (oauth_completion_guarded [("code", "abc"); ("state", "xyz")]
             OAuthCallback.initial Example.world).
  - exact (oauth_completion_guarded [("error", "access_denied"); ("state", "xyz")]
             OAuthCallback.initial Example.world).
Defined.

Lemma auth_context_invariants_witness :
  given (localStorage Example.world !! "token") = Some "t0" /\
  (remote Example.world _ (calls Example.world) authApi_verifyToken).2
  = Rejected (Error "Invalid token") /\
  localStorage (AuthContext.onMount AuthContext.initial Example.world).2 !! "token" = None /\
  AuthContext.user (AuthContext.onMount AuthContext.initial Example.world).1 = None.
Proof.
  destruct auth_context_invariants as (_ & _ & Hmount).
  assert (H1 : given (localStorage Example.world !! "token") = Some "t0") by reflexivity.
  assert (H2 : (remote Example.world _ (calls Example.world) authApi_verifyToken).2
               = Rejected (Error "Invalid token")) by reflexivity.
  destruct (Hmount Example.world "t0" (Error "Invalid token") H1 H2)
    as (Htoken & Huser & _).
  split; [exact H1|]. split; [exact H2|]. split; [exact Htoken|exact Huser].
Defined.



Lemma project_fields_round_trip_witness :
  Backend.sessions Example.store !! "t0" = Some "u1" /\
  Api.header_value "Authorization" ("Bearer " +:+ "t0") = Some ("Bearer " +:+ "t0") /\
  Backend.get "u1" "7" Example.store
  = Some {| Backend.owner := "u1"; Backend.sp_title := "Learn Go";
            Backend.sp_description := Some "Read a book";
            Backend.sp_due_date := None; Backend.sp_plan := None;
            Backend.sp_created_at := 900; Backend.sp_updated_at := 900 |} /\
  (exists fetched,
     (Backend.roundtrip (Some "t0") (Api.projectsApi_get "8")
        (Backend.roundtrip (Some "t0")
           (Api.projectsApi_create "Run 5k" None (Some "2026-01-31")) Example.store).2).1
     = Resolved fetched /\
     Backend.str_field "title" fetched = Some "Run 5k" /\
     Backend.str_field "due_date" fetched = Some "2026-01-31") /\
  (exists row',
     (Backend.roundtrip (Some "t0") (Api.projectsApi_get "7")
        (Backend.roundtrip (Some "t0")
           (Api.projectsApi_update "7" (Some "Learn Rust") None None) Example.store).2).1
     = Resolved (Backend.project_json "7" row') /\
     Backend.sp_title row' = "Learn Rust" /\
     Backend.sp_description row' = Some "Read a book").
Proof.
  destruct project_fields_round_trip as [Hcreate Hupdate].
  assert (H1 : Backend.sessions Example.store !! "t0" = Some "u1") by reflexivity.
  assert (H2 : "t0" <> "") by discriminate.
  assert (H3 : Api.header_value "Authorization" ("Bearer " +:+ "t0")
               = Some ("Bearer " +:+ "t0")) by reflexivity.
  split; [exact H1|]. split; [exact H3|]. split; [reflexivity|]. split.
  - destruct (Hcreate Example.store "t0" "u1" "Run 5k" None (Some "2026-01-31") H1 H2 H3)
      as (project & id & Hproject & Hid & fetched & Hfetched & Ht & _ & Hdd).
    assert (id = "8") as ->.
    { vm_compute in Hproject. injection Hproject as <-.
      vm_compute in Hid. by injection Hid as <-. }
    exists fetched. split; [exact Hfetched|]. split; [exact Ht|exact Hdd].
  - destruct (Hupdate Example.store "t0" "u1" "7" _ (Some "Learn Rust") None None H1 H2
                H3 eq_refl) as (_ & row' & _ & Hfetched & _ & Ht & Hd & _).
    exists row'. split; [exact Hfetched|]. split; [exact Ht|exact Hd].
Defined.

Lemma password_update_guarded_witness :
  (Settings.newPassword (Example.password_form "secret1" "secret1")
   = Settings.confirmPassword (Example.password_form "secret1" "secret1") /\
   6 <= String.length (Settings.newPassword (Example.password_form "secret1" "secret1")) /\
   calls (Settings.handlePasswordUpdate
            (Example.password_form "secret1" "secret1") Example.world).2
   = [mkCall (settingsApi_updatePassword "old-secret" "secret1")]) /\
  (String.length (Settings.newPassword (Example.password_form "abc" "abc")) < 6 /\
   calls (Settings.handlePasswordUpdate
            (Example.password_form "abc" "abc") Example.world).2 = [] /\
   Settings.error (Settings.handlePasswordUpdate
                     (Example.password_form "abc" "abc") Example.world).1
   = "New password must be at least 6 characters long").
Proof.
  split.
  - destruct (password_update_guarded (Example.password_form "secret1" "secret1")
                Example.world) as [Hcall _].
    assert (H1 : Settings.newPassword (Example.password_form "secret1" "secret1")
                 = Settings.confirmPassword (Example.password_form "secret1" "secret1"))
      by reflexivity.
    assert (H2 : 6 <= String.length
                        (Settings.newPassword (Example.password_form "secret1" "secret1")))
      by (simpl; lia).
    split; [exact H1|]. split; [exact H2|]. exact (Hcall H1 H2).
  - destruct (password_update_guarded (Example.password_form "abc" "abc")
                Example.world) as [_ Hnone].
    assert (H1 : String.length (Settings.newPassword (Example.password_form "abc" "abc")) < 6)
      by (simpl; lia).
    destruct (Hnone (or_intror H1)) as (Hcalls & Herror & _).
    split; [exact H1|]. split; [exact Hcalls|exact Herror].
Defined.

End Samples.

(** * Further properties of the code *)

(** ** Goal conversations: sessions *)

Section Sessions.
Import Js Client GoalChat Frame Session.

Lemma continues_refl c : continues c c.
Proof. by repeat split. Qed.

Lemma continues_trans c1 c2 c3 : continues c1 c2 -> continues c2 c3 -> continues c1 c3.
Proof.
  intros (Hi & Ht & Hc & Hp) (Hi' & Ht' & Hc' & Hp'). repeat split; try congruence.
  by etrans.
Qed.

Lemma history_kept_refl convs : history_kept convs convs.
Proof.
  exists convs, []. split; [by rewrite app_nil_r|].
  apply Forall_Forall2_diag, Forall_forall. intros c _. apply continues_refl.
Qed.

Lemma history_kept_trans l1 l2 l3 :
  history_kept l1 l2 -> history_kept l2 l3 -> history_kept l1 l3.
Proof.
  intros (k1 & o1 & -> & H1) (k2 & o2 & -> & H2).
  apply Forall2_app_inv_l in H2 as (k2a & k2b & Ha & Hb & ->).
  exists k2a, (k2b ++ o2). split; [by rewrite app_assoc|].
  clear Hb. revert k2a Ha. induction H1 as [|c1 c2 l1 k1 Hc _ IH]; intros k2a Ha.
  - by apply Forall2_nil_inv_l in Ha as ->.
  - apply Forall2_cons_inv_l in Ha as (c3 & k3 & Hc' & Hk & ->).
    constructor; [by eapply continues_trans|by apply IH].
Qed.

Lemma history_kept_opened convs conv : history_kept convs (convs ++ [conv]).
Proof.
  exists convs, [conv]. split; [done|].
  apply Forall_Forall2_diag, Forall_forall. intros c _. apply continues_refl.
Qed.

(** A list update that keeps what the user typed, possibly adding to it. *)
Lemma in_conversation_kept id f convs :
  (forall ms, map entry ms `prefix_of` map entry (f ms)) ->
  history_kept convs (in_conversation id f convs).
Proof.
  intros Hf. exists (in_conversation id f convs), []. split; [by rewrite app_nil_r|].
  unfold in_conversation. apply Forall2_fmap_r, Forall_Forall2_diag, Forall_forall.
  intros c _. unfold compose. destruct (conv_is id c); [|apply continues_refl].
  repeat split. simpl. apply Hf.
Qed.

Lemma on_proposals_entries g ms : map entry (on_proposals g ms) = map entry ms.
Proof. unfold on_proposals. rewrite map_map. by apply map_ext. Qed.

Lemma update_by_id_entries tempId f ms :
  (forall m, entry (f m) = entry m) ->
  map entry (update_by_id tempId f ms) = map entry ms.
Proof.
  intros Hf. unfold update_by_id. rewrite map_map. apply map_ext. intros m.
  by destruct (String.eqb (msg_id m) tempId).
Qed.

Lemma optimistic_kept text now st :
  history_kept (conversations st) (conversations (optimistic text now st)).
Proof.
  rewrite optimistic_conversations.
  eapply history_kept_trans; [|apply in_conversation_kept].
  - destruct (truthy_opt (currentConversationId st));
      [apply history_kept_refl | apply history_kept_opened].
  - intros ms. rewrite map_app. by apply prefix_app_r.
Qed.

Lemma dispatch_kept a st w :
  history_kept (conversations st) (conversations (dispatch a st w).1).
Proof.
  destruct a; simpl; try apply history_kept_refl.
  - unfold handleSubmit.
    destruct (negb (truthy (trim (input st))) || loading st); [apply history_kept_refl|].
    unfold bind, Date_now, await.
    destruct (remote w ChatResponse (calls w) (chatApi_sendMessage _ None)) as [elapsed r].
    eapply history_kept_trans; [apply (optimistic_kept (trim (input st)) (clock w))|].
    destruct r; simpl; apply in_conversation_kept; intros ms;
      by rewrite update_by_id_entries.
  - destruct (conversations st !! i); apply history_kept_refl.
  - unfold handleProjectFieldChange.
    destruct (negb (truthy_opt (currentConversationId st))); [apply history_kept_refl|].
    simpl. apply in_conversation_kept. intros ms. by rewrite on_proposals_entries.
  - unfold handleToggleProjectSelection.
    destruct (negb (truthy_opt (currentConversationId st))); [apply history_kept_refl|].
    simpl. apply in_conversation_kept. intros ms. by rewrite on_proposals_entries.
  - unfold handleMoveSelectedProjects.
    destruct (Nat.eqb _ 0); [apply history_kept_refl|]. unfold bind.
    destruct (create_each _ [] w) as [createdProjects w1]. simpl.
    destruct (truthy_opt (currentConversationId st)); [|apply history_kept_refl].
    simpl. apply in_conversation_kept. intros ms. by rewrite on_proposals_entries.
  - unfold handleEditProjects.
    destruct (currentConversationId st) as [cid|]; [|apply history_kept_refl].
    destruct (negb (truthy (trim editPrompt)) || negb (truthy cid));
      [apply history_kept_refl|].
    unfold bind, Date_now, await.
    destruct (remote w ChatResponse (calls w) _) as [elapsed [chatResponse|e]]; simpl;
      [|apply history_kept_refl].
    apply in_conversation_kept. intros ms. rewrite map_app. by apply prefix_app_r.
Qed.

(** X1.  In every session that starts from the page's initial state, after
    any sequence of user actions and whatever the server answers, the
    current conversation id, when there is one, is the id of a conversation
    in the list. *)
Theorem session_current_conversation_listed (actions : list Action) (w : World) :
  well_formed (run actions initial w).1.
Proof.
  assert (Hgen : forall st w', well_formed st -> well_formed (run actions st w').1).
  { induction actions as [|a rest IH]; intros st w' Hwf; simpl; [done|].
    unfold bind. pose proof (well_formed_preserved a st w' Hwf) as Hstep.
    destruct (dispatch a st w') as [st' w'']. by apply IH. }
  apply Hgen, well_formed_initial.
Qed.

(** X2.  No sequence of user actions removes, reorders or renames a
    conversation, or removes, reorders or rewrites what the user typed in
    one: every conversation of the state before is still there afterwards,
    at the same place, with the same id, title and creation time, and its
    user messages with their time stamps are the first ones of the later
    conversation. *)
Theorem session_history_kept (actions : list Action) (st : State) (w : World) :
  history_kept (conversations st) (conversations (run actions st w).1).
Proof.
  revert st w. induction actions as [|a rest IH]; intros st w; simpl.
  - apply history_kept_refl.
  - unfold bind. pose proof (dispatch_kept a st w) as Hstep.
    destruct (dispatch a st w) as [st' w']. simpl in Hstep.
    eapply history_kept_trans; [exact Hstep|apply IH].
Qed.

End Sessions.

(** ** Goal conversations: the proposals on the screen *)

Section Proposals.
Import Js Client GoalChat Frame.

Lemma find_map_stable {A} (P : A -> bool) (h : A -> A) (l : list A) :
  (forall x, P (h x) = P x) -> find P (map h l) = h <$> find P l.
Proof.
  intros Hh. induction l as [|x l IH]; simpl; [done|].
  rewrite Hh. by destruct (P x).
Qed.

Lemma conv_is_in_conversation cur cur' f c :
  conv_is cur (if conv_is cur' c then with_messages (f (messages c)) c else c)
  = conv_is cur c.
Proof. by destruct (conv_is cur' c). Qed.

(** The proposals shown after the proposals of the current conversation
    were rewritten message by message by [g], when [G] is what [g] does to
    the shown list. *)
Lemma allProjects_on_proposals g G st :
  g [] = [] -> G [] = [] ->
  (forall a b, G (a ++ b) = G a ++ G b) ->
  (forall ps, map (with_conversationId (default "" (currentConversationId st))) (g ps)
              = G (map (with_conversationId (default "" (currentConversationId st))) ps)) ->
  allProjects (setConversations
                 (in_conversation (currentConversationId st) (on_proposals g)) st)
  = G (allProjects st).
Proof.
  intros Hg HG Happ Hmap. unfold allProjects, currentConversation. simpl.
  unfold in_conversation. rewrite find_map_stable by (intros c; apply conv_is_in_conversation).
  destruct (find (conv_is (currentConversationId st)) (conversations st)) as [conv|] eqn:Hfind;
    simpl; [|done].
  apply find_some in Hfind as [_ ->]. simpl.
  induction (messages conv) as [|msg ms IH]; simpl; [done|].
  rewrite Happ, <- IH, <- Hmap. f_equal.
  destruct (proposedProjects msg); simpl; [done|by rewrite Hg].
Qed.

Lemma create_each_created selectedProjects createdProjects w :
  length createdProjects <= length (create_each selectedProjects createdProjects w).1
  /\ length (create_each selectedProjects createdProjects w).1
     <= length createdProjects + length selectedProjects.
Proof.
  revert createdProjects w.
  induction selectedProjects as [|project rest IH]; intros createdProjects w; simpl.
  - lia.
  - unfold bind.
    destruct (await (projectsApi_create (create_data project)) w) as [[created|e] w1].
    + specialize (IH (createdProjects ++ [created]) w1). rewrite length_app in IH.
      simpl in IH. lia.
    + specialize (IH createdProjects w1). lia.
Qed.

Lemma create_each_all_rejected selectedProjects createdProjects w :
  (forall cs d, is_resolved (remote w Project cs (projectsApi_create d)).2 = false) ->
  (create_each selectedProjects createdProjects w).1 = createdProjects.
Proof.
  revert w. induction selectedProjects as [|project rest IH]; intros w Hrej; simpl; [done|].
  unfold bind, await. specialize (Hrej (calls w) (create_data project)) as Hnow.
  destruct (remote w Project (calls w) (projectsApi_create (create_data project)))
    as [elapsed [created|e]]; [done|].
  apply IH. intros cs d. apply Hrej.
Qed.

Lemma handleMoveSelectedProjects_effects st w :
  let chosen := filter (fun p => selected p = true) (allProjects st) in
  effects (handleMoveSelectedProjects st w).2
  = effects w
    ++ [Alert (if Nat.eqb (length chosen) 0
               then "Please select at least one project to move"
               else "✅ Successfully created "
                    +:+ pretty (length (create_each chosen [] w).1) +:+ " project(s)!")].
Proof.
  simpl. unfold handleMoveSelectedProjects.
  destruct (Nat.eqb _ 0); [done|]. unfold bind.
  assert (Hfx : forall l acc w0, effects (create_each l acc w0).2 = effects w0).
  { induction l as [|p l IH]; intros acc w0; simpl; [done|]. unfold bind, await.
    destruct (remote w0 Project (calls w0) _) as [elapsed [created|e]];
      by rewrite IH. }
  specialize (Hfx (filter (fun p => selected p = true) (allProjects st)) [] w).
  destruct (create_each _ [] w) as [createdProjects w1]. simpl in *. by rewrite Hfx.
Qed.

Lemma none_selected (l : list EditableProject) :
  filter (fun p => selected p = true) l = [] ->
  filter (fun p => selected p = false) l = l.
Proof.
  induction l as [|p l IH]; [done|]. rewrite !filter_cons.
  destruct (selected p); repeat case_decide; try done. intros Hnil. by rewrite IH.
Qed.

Lemma filter_with_conversationId (b : bool) d (ps : list EditableProject) :
  map (with_conversationId d) (filter (fun p => selected p = b) ps)
  = filter (fun p => selected p = b) (map (with_conversationId d) ps).
Proof.
  induction ps as [|p ps IH]; [done|]. simpl. rewrite !filter_cons. simpl.
  case_decide; simpl; by rewrite IH.
Qed.

Lemma allProjects_other_state st st' :
  conversations st' = conversations st ->
  currentConversationId st' = currentConversationId st ->
  allProjects st' = allProjects st.
Proof. unfold allProjects, currentConversation. by intros -> ->. Qed.

Lemma filter_seq_shift (P : nat -> Prop) `{!forall i, Decision (P i)} start n :
  length (filter P (seq (S start) n))
  = length (filter (fun i => P (S i)) (seq start n)).
Proof.
  revert start. induction n as [|n IH]; intros start; [done|]. simpl.
  rewrite !filter_cons. destruct (decide (P (S start))); simpl; by rewrite IH.
Qed.

Lemma succeeds_next w w1 p rest i :
  remote w1 = remote w -> calls w1 = calls w ++ [create_call p] ->
  Creation.succeeds w (p :: rest) (S i) = Creation.succeeds w1 rest i.
Proof.
  intros Hremote Hcalls. unfold Creation.succeeds. simpl.
  by rewrite Hremote, Hcalls, <- app_assoc.
Qed.

Lemma create_each_all_resolved selectedProjects createdProjects w :
  (forall cs d, is_resolved (remote w Project cs (projectsApi_create d)).2 = true) ->
  length (create_each selectedProjects createdProjects w).1
  = length createdProjects + length selectedProjects.
Proof.
  revert createdProjects w.
  induction selectedProjects as [|project rest IH]; intros createdProjects w Hall; simpl;
    [lia|].
  unfold bind, await. specialize (Hall (calls w) (create_data project)) as Hnow.
  destruct (remote w Project (calls w) (projectsApi_create (create_data project)))
    as [elapsed [created|e]]; [|done].
  rewrite IH by (intros cs d; apply Hall). rewrite length_app. simpl. lia.
Qed.

(** The projects [create_each] collects are as many as the server
    accepts. *)
Lemma create_each_successes selectedProjects createdProjects w :
  length (create_each selectedProjects createdProjects w).1
  = length createdProjects + Creation.successes w selectedProjects.
Proof.
  revert createdProjects w.
  induction selectedProjects as [|project rest IH]; intros createdProjects w.
  { unfold Creation.successes. simpl. lia. }
  set (w1 := {| localStorage := localStorage w;
                clock := (clock w
                          + (remote w Project (calls w)
                               (projectsApi_create (create_data project))).1)%N;
                origin := origin w; remote := remote w;
                calls := calls w ++ [create_call project];
                effects := effects w |}).
  assert (Hrest : Creation.successes w (project :: rest)
                  = (if Creation.succeeds w (project :: rest) 0 then 1 else 0)
                    + Creation.successes w1 rest).
  { unfold Creation.successes. cbn [length seq]. rewrite filter_cons.
    destruct (decide (Creation.succeeds w (project :: rest) 0 = true)) as [Hyes|Hno];
      [rewrite Hyes|apply not_true_is_false in Hno; rewrite Hno];
      cbn [length]; rewrite (filter_seq_shift _ 0);
      rewrite (list_filter_iff _ (fun i => Creation.succeeds w1 rest i = true))
        by (intros i; by rewrite (succeeds_next w w1 project rest i eq_refl eq_refl));
      done. }
  rewrite Hrest. subst w1.
  unfold Creation.succeeds at 1. cbn [lookup list_lookup take map].
  rewrite app_nil_r. simpl. unfold bind, await.
  destruct (remote w Project (calls w) (projectsApi_create (create_data project)))
    as [elapsed [created|e]]; cbn [fst snd is_resolved].
  - rewrite IH, length_app. simpl. unfold create_call. lia.
  - rewrite IH. unfold create_call. lia.
Qed.

(** X3.  After the move-selected action on a current conversation, the
    proposals left on the screen are exactly the ones that were not
    selected, in their order, whether the creation of the selected ones
    succeeded or not; the action ends with one alert, which counts the
    creations the server accepted: every selected proposal if it accepted
    them all, none if it rejected them all. *)
Theorem move_selected_drops_selected (st : State) (w : World) :
  truthy_opt (currentConversationId st) = true ->
  let chosen := filter (fun p => selected p = true) (allProjects st) in
  let st' := (handleMoveSelectedProjects st w).1 in
  let created := length (create_each chosen [] w).1 in
  allProjects st' = filter (fun p => selected p = false) (allProjects st) /\
  Forall (fun p => selected p = false) (allProjects st') /\
  created = Creation.successes w chosen /\
  created <= length chosen /\
  ((forall cs d, is_resolved (remote w Project cs (projectsApi_create d)).2 = true) ->
   created = length chosen) /\
  ((forall cs d, is_resolved (remote w Project cs (projectsApi_create d)).2 = false) ->
   created = 0) /\
  effects (handleMoveSelectedProjects st w).2
  = effects w
    ++ [Alert (if Nat.eqb (length chosen) 0
               then "Please select at least one project to move"
               else "✅ Successfully created " +:+ pretty (Creation.successes w chosen)
                    +:+ " project(s)!")].
Proof.
  intros Hcur. cbv zeta.
  assert (Hleft : allProjects (handleMoveSelectedProjects st w).1
                  = filter (fun p => selected p = false) (allProjects st)).
  { unfold handleMoveSelectedProjects.
    destruct (Nat.eqb_spec (length (filter (fun p => selected p = true) (allProjects st))) 0)
      as [Hnone|Hsome].
    - simpl. apply nil_length_inv in Hnone. by rewrite none_selected.
    - unfold bind. destruct (create_each _ [] w) as [createdProjects w1]. simpl.
      rewrite Hcur.
      rewrite (allProjects_other_state
                 (setConversations
                    (in_conversation (currentConversationId st)
                       (on_proposals (filter (fun p => selected p = false)))) st))
        by done.
      apply (allProjects_on_proposals (filter (fun p => selected p = false))
               (filter (fun p => selected p = false))); try done.
      + intros a b. apply filter_app.
      + intros ps.
        apply filter_with_conversationId. }
  split; [exact Hleft|]. split.
  { rewrite Hleft. apply Forall_forall. intros p Hp.
    by apply list_elem_of_filter in Hp as [? _]. }
  split; [apply (create_each_successes _ [] w)|].
  split; [apply (create_each_created _ [] w)|]. split.
  { intros Hall. by rewrite create_each_all_resolved. }
  split.
  { intros Hrej. by rewrite create_each_all_rejected. }
  rewrite handleMoveSelectedProjects_effects.
  by rewrite (create_each_successes _ [] w).
Qed.

Lemma move_selected_drops_selected_witness :
  truthy_opt (currentConversationId Example.goal_state) = true /\
  map ep_title
    (allProjects (handleMoveSelectedProjects Example.goal_state Scenario.library).1)
  = ["Swim"] /\
  effects (handleMoveSelectedProjects Example.goal_state Scenario.library).2
  = [Alert "✅ Successfully created 1 project(s)!"] /\
  effects (handleMoveSelectedProjects Example.goal_state Example.world).2
  = [Alert "✅ Successfully created 0 project(s)!"].
Proof.
  assert (H : truthy_opt (currentConversationId Example.goal_state) = true) by reflexivity.
  destruct (move_selected_drops_selected Example.goal_state Scenario.library H)
    as (Hleft & _ & _ & _ & _ & _ & Hone).
  destruct (move_selected_drops_selected Example.goal_state Example.world H)
    as (_ & _ & _ & _ & _ & _ & Hnone).
  split; [exact H|]. split; [exact (f_equal (map ep_title) Hleft)|].
  split; [exact Hone|exact Hnone].
Defined.

End Proposals.

(** ** Goal conversations: editing and selecting proposals *)

Section EditingProposals.
Import Js Client GoalChat Frame Editing.

Lemma in_conversation_compose cur f g convs :
  in_conversation cur f (in_conversation cur g convs)
  = in_conversation cur (fun ms => f (g ms)) convs.
Proof.
  unfold in_conversation. rewrite map_map. apply map_ext. intros c.
  destruct (conv_is cur c) eqn:E; [|by rewrite E].
  replace (conv_is cur (with_messages (g (messages c)) c)) with (conv_is cur c) by done.
  by rewrite E.
Qed.

Lemma on_proposals_compose g1 g2 ms :
  on_proposals g1 (on_proposals g2 ms) = on_proposals (fun ps => g1 (g2 ps)) ms.
Proof.
  unfold on_proposals. rewrite map_map. apply map_ext. intros m.
  unfold with_proposedProjects; simpl. f_equal. by destruct (proposedProjects m).
Qed.

Lemma in_conversation_ext cur f g convs :
  (forall ms, f ms = g ms) -> in_conversation cur f convs = in_conversation cur g convs.
Proof.
  intros Hfg. unfold in_conversation. apply map_ext. intros c. by rewrite Hfg.
Qed.

Lemma on_proposals_ext g1 g2 ms :
  (forall ps, g1 ps = g2 ps) -> on_proposals g1 ms = on_proposals g2 ms.
Proof.
  intros Hg. unfold on_proposals. apply map_ext. intros m. f_equal.
  destruct (proposedProjects m); simpl; by rewrite ?Hg.
Qed.

(** Two rewritings of the proposals of the current conversation, one after
    the other. *)
Lemma rewrite_proposals_twice st h1 h2 :
  setConversations
    (in_conversation (currentConversationId st) (on_proposals (map h1)))
    (setConversations
       (in_conversation (currentConversationId st) (on_proposals (map h2))) st)
  = setConversations
      (in_conversation (currentConversationId st)
         (on_proposals (map (fun p => h1 (h2 p))))) st.
Proof.
  destruct st as [convs cur inp ld cp]. unfold setConversations; simpl. f_equal.
  rewrite in_conversation_compose. apply in_conversation_ext. intros ms.
  rewrite on_proposals_compose. apply on_proposals_ext. intros ps.
  by rewrite map_map.
Qed.

Lemma rewrite_proposals_ext st h1 h2 :
  (forall p, h1 p = h2 p) ->
  setConversations
    (in_conversation (currentConversationId st) (on_proposals (map h1))) st
  = setConversations
      (in_conversation (currentConversationId st) (on_proposals (map h2))) st.
Proof.
  intros Hh. unfold setConversations. f_equal.
  apply in_conversation_ext. intros ms. apply on_proposals_ext. intros ps.
  by apply map_ext.
Qed.

Lemma edited_spec projectId field value p :
  edited projectId field value p
    (if String.eqb (ep_id p) projectId then set_field field value p else p).
Proof.
  unfold edited. destruct (String.eqb (ep_id p) projectId); destruct p, field; simpl; done.
Qed.

(** X4.  Editing a field of a proposal changes that field of the proposals
    with that id in the current conversation to the new value and nothing
    else: ids, selection, the other fields, every other proposal, message
    and conversation, and the rest of the page state are as before.  Doing
    the same edit again changes nothing more. *)
Theorem field_change_frame (projectId : string) (field : Field) (value : string)
    (st : State) :
  let st' := handleProjectFieldChange projectId field value st in
  handleProjectFieldChange projectId field value st' = st' /\
  currentConversationId st' = currentConversationId st /\
  input st' = input st /\
  loading st' = loading st /\
  creatingProjects st' = creatingProjects st /\
  Forall2 (fun c c' =>
      if truthy_opt (currentConversationId st) && conv_is (currentConversationId st) c
      then same_conversation (edited projectId field value) c c'
      else c' = c)
    (conversations st) (conversations st').
Proof.
  unfold handleProjectFieldChange.
  destruct (truthy_opt (currentConversationId st)) eqn:Hcur; simpl.
  - rewrite Hcur; simpl. split; [|repeat split].
    + rewrite (rewrite_proposals_twice st). apply rewrite_proposals_ext. intros p.
      destruct (String.eqb (ep_id p) projectId) eqn:E.
      * replace (ep_id (set_field field value p)) with (ep_id p) by (by destruct p).
        rewrite E. by destruct p, field.
      * by rewrite E.
    + unfold in_conversation. apply Forall2_fmap_r, Forall_Forall2_diag, Forall_forall.
      intros c _. unfold compose.
      destruct (conv_is (currentConversationId st) c); [|done].
      unfold same_conversation; simpl. repeat split.
      apply same_message_on_proposals, edited_spec.
  - rewrite Hcur; simpl. repeat split. apply Forall_Forall2_diag, Forall_forall. done.
Qed.

(** X5.  Selecting and editing do not get in each other's way: toggling a
    proposal and editing a field, of the same or of another proposal, give
    the same state in either order; and the list of proposals on the screen
    after either is the list before with that one change applied to the
    proposals of that id. *)
Theorem toggle_and_edit_commute (toggledId editedId : string) (field : Field)
    (value : string) (st : State) :
  handleToggleProjectSelection toggledId
    (handleProjectFieldChange editedId field value st)
  = handleProjectFieldChange editedId field value
      (handleToggleProjectSelection toggledId st) /\
  (truthy_opt (currentConversationId st) = true ->
   allProjects (handleToggleProjectSelection toggledId st)
   = map (fun p => if String.eqb (ep_id p) toggledId then toggle_selected p else p)
       (allProjects st) /\
   allProjects (handleProjectFieldChange editedId field value st)
   = map (fun p => if String.eqb (ep_id p) editedId then set_field field value p else p)
       (allProjects st)).
Proof.
  split.
  - unfold handleToggleProjectSelection, handleProjectFieldChange.
    destruct (truthy_opt (currentConversationId st)) eqn:Hcur; simpl; rewrite Hcur; simpl;
      [|done].
    rewrite !(rewrite_proposals_twice st). apply rewrite_proposals_ext. intros p.
    destruct (String.eqb (ep_id p) editedId) eqn:Ee;
      destruct (String.eqb (ep_id p) toggledId) eqn:Et;
      repeat match goal with
      | |- context [ep_id (set_field ?f ?v ?q)] =>
          replace (ep_id (set_field f v q)) with (ep_id q) by (by destruct q)
      | |- context [ep_id (toggle_selected ?q)] =>
          replace (ep_id (toggle_selected q)) with (ep_id q) by (by destruct q)
      end; rewrite ?Ee, ?Et; try done; by destruct p, field.
  - intros Hcur. unfold handleToggleProjectSelection, handleProjectFieldChange.
    rewrite Hcur. simpl. split.
    + apply (allProjects_on_proposals _ (map _)); try done.
      * intros a b. apply map_app.
      * intros ps. rewrite !map_map. apply map_ext. intros p.
        change (ep_id (with_conversationId (default "" (currentConversationId st)) p))
          with (ep_id p).
        by destruct (String.eqb (ep_id p) toggledId); destruct p.
    + apply (allProjects_on_proposals _ (map _)); try done.
      * intros a b. apply map_app.
      * intros ps. rewrite !map_map. apply map_ext. intros p.
        change (ep_id (with_conversationId (default "" (currentConversationId st)) p))
          with (ep_id p).
        by destruct (String.eqb (ep_id p) editedId); destruct p, field.
Qed.

Lemma toggle_and_edit_commute_witness :
  truthy_opt (currentConversationId Example.goal_state) = true /\
  map selected (allProjects (handleToggleProjectSelection "proj-msg-1-1" Example.goal_state))
  = [true; true].
Proof.
  assert (H : truthy_opt (currentConversationId Example.goal_state) = true) by reflexivity.
  destruct (toggle_and_edit_commute "proj-msg-1-1" "proj-msg-1-0" F_title "Run 10k"
              Example.goal_state) as [_ Hview].
  destruct (Hview H) as [Htoggle _].
  split; [exact H|]. exact (f_equal (map selected) Htoggle).
Defined.

End EditingProposals.

(** ** Blank input *)

Section BlankInput.
Import Js Client Blank.

Lemma chars_rev_app s t :
  String.list_ascii_of_string (String.rev_app s t)
  = rev (String.list_ascii_of_string s) ++ String.list_ascii_of_string t.
Proof.
  revert t. induction s as [|a s IH]; intros t; simpl; [done|].
  rewrite IH. simpl. by rewrite <- app_assoc.
Qed.

Lemma chars_rev s :
  String.list_ascii_of_string (String.rev s) = rev (String.list_ascii_of_string s).
Proof. unfold String.rev. rewrite chars_rev_app. simpl. by rewrite app_nil_r. Qed.

Lemma chars_nil s : String.list_ascii_of_string s = [] <-> s = "".
Proof. destruct s; simpl; split; congruence. Qed.

Lemma trimStart_blank s : trimStart s = "" <-> blank s.
Proof.
  unfold blank. induction s as [|a s IH]; simpl.
  - split; [constructor|done].
  - destruct (is_white_space a) eqn:Ha.
    + rewrite IH. split; [by constructor|by inversion 1].
    + split; [done|]. inversion 1; congruence.
Qed.

Lemma trimStart_head s :
  trimStart s = "" \/ exists a r, trimStart s = String a r /\ is_white_space a = false.
Proof.
  induction s as [|a s IH]; simpl; [by left|].
  destruct (is_white_space a) eqn:Ha; [done|]. right. eauto.
Qed.

Lemma trimEnd_blank s : trimEnd s = "" <-> blank s.
Proof.
  unfold trimEnd. rewrite <- chars_nil, chars_rev.
  split.
  - intros Hnil. apply (f_equal length) in Hnil. rewrite length_rev in Hnil.
    apply nil_length_inv in Hnil.
    apply chars_nil, trimStart_blank in Hnil. unfold blank in *.
    rewrite chars_rev in Hnil. rewrite Forall_forall in *. intros c Hc.
    apply Hnil. rewrite list_elem_of_In in *. by apply in_rev in Hc.
  - intros Hblank.
    assert (Hrev : blank (String.rev s)).
    { unfold blank in *. rewrite chars_rev. rewrite Forall_forall in *. intros c Hc.
      apply Hblank. rewrite list_elem_of_In in *. by apply in_rev. }
    apply trimStart_blank in Hrev. by rewrite Hrev.
Qed.

Lemma trim_blank s : trim s = "" <-> blank s.
Proof.
  unfold trim. rewrite trimEnd_blank. split.
  - intros Hb. destruct (trimStart_head s) as [Hnil|(a & r & Heq & Ha)].
    + by apply trimStart_blank.
    + rewrite Heq in Hb. unfold blank in Hb. simpl in Hb. inversion Hb; congruence.
  - intros Hb. apply trimStart_blank in Hb. rewrite Hb. constructor.
Qed.

Lemma truthy_trim_blank s : truthy (trim s) = false <-> blank s.
Proof. by rewrite truthy_false, trim_blank. Qed.

(** X6.  Submitting does nothing at all when the input is blank (empty or
    white space only) or a request is already in flight: no call, no change
    of state, no effect.  Otherwise exactly one message is sent, the trimmed
    input.  This holds for the single-thread chat, for the goal
    conversations and for the chat of the project workspace (which also
    needs a selected project, and sends to the plan endpoint while a plan is
    being generated). *)
Theorem blank_submit_ignored :
  (forall (st : Chat.State) (w : World),
     (blank (Chat.input st) \/ Chat.loading st = true ->
      Chat.handleSubmit st w = (st, w)) /\
     (~ blank (Chat.input st) -> Chat.loading st = false ->
      calls (Chat.handleSubmit st w).2
      = calls w ++ [mkCall (chatApi_sendMessage (trim (Chat.input st)) None)])) /\
  (forall (st : GoalChat.State) (w : World),
     (blank (GoalChat.input st) \/ GoalChat.loading st = true ->
      GoalChat.handleSubmit st w = (st, w)) /\
     (~ blank (GoalChat.input st) -> GoalChat.loading st = false ->
      calls (GoalChat.handleSubmit st w).2
      = calls w ++ [mkCall (chatApi_sendMessage (trim (GoalChat.input st)) None)])) /\
  (forall (st : Home.State) (w : World),
     (Home.selectedProject st = None \/ blank (Home.chatInput st)
      \/ Home.chatLoading st = true ->
      Home.handleSendMessage st w = (st, w)) /\
     (forall sel, Home.selectedProject st = Some sel ->
      ~ blank (Home.chatInput st) -> Home.chatLoading st = false ->
      exists rest,
        calls (Home.handleSendMessage st w).2
        = calls w
          ++ (if Home.planGenerating st
              then mkCall (projectsApi_generatePlan (project_id sel)
                             (Some (trim (Home.chatInput st))))
              else mkCall (projectsApi_sendChatMessage (project_id sel)
                             (trim (Home.chatInput st))))
          :: rest)).
Proof.
  split; [|split].
  - intros st w. split.
    + intros Hskip. unfold Chat.handleSubmit.
      destruct Hskip as [Hb| ->]; [|by rewrite orb_true_r].
      apply truthy_trim_blank in Hb. by rewrite Hb.
    + intros Hb Hld. apply Chat_handleSubmit_run; [|done].
      destruct (truthy (trim (Chat.input st))) eqn:Ht; [done|].
      by apply truthy_trim_blank in Ht.
  - intros st w. split.
    + intros Hskip. unfold GoalChat.handleSubmit.
      destruct Hskip as [Hb| ->]; [|by rewrite orb_true_r].
      apply truthy_trim_blank in Hb. by rewrite Hb.
    + intros Hb Hld. apply GoalChat_handleSubmit_run; [|done].
      destruct (truthy (trim (GoalChat.input st))) eqn:Ht; [done|].
      by apply truthy_trim_blank in Ht.
  - intros st w. split.
    + intros Hskip. unfold Home.handleSendMessage.
      destruct (Home.selectedProject st) as [sel|]; [|done].
      destruct Hskip as [Hn|[Hb| ->]]; [done| |by rewrite orb_true_r].
      apply truthy_trim_blank in Hb. by rewrite Hb.
    + intros sel Hsel Hb Hld. unfold Home.handleSendMessage. rewrite Hsel, Hld.
      destruct (truthy (trim (Home.chatInput st))) eqn:Ht;
        [|by apply truthy_trim_blank in Ht].
      simpl. unfold bind, Date_now.
      destruct (Home.planGenerating st) eqn:Hpg; rewrite ?orb_true_r, ?orb_false_r; simpl.
      * unfold await at 1.
        destruct (remote w PlanResult (calls w) _) as [elapsed [result|e]]; simpl.
        -- destruct (needs_clarification result); simpl.
           ++ by exists [].
           ++ unfold bind, await. simpl.
              destruct (remote w Project _ _) as [elapsed' [data|e]]; simpl;
                eexists; by rewrite <- app_assoc.
        -- by exists [].
      * rewrite andb_false_r. unfold await at 1.
        destruct (remote w ProjectChatResponse (calls w) _) as [elapsed [chatResponse|e]];
          simpl.
        -- destruct (plan_updated chatResponse); simpl.
           ++ unfold bind, await. simpl.
              destruct (remote w Project _ _) as [elapsed' [data|e]]; simpl;
                eexists; by rewrite <- app_assoc.
           ++ by exists [].
        -- by exists [].
Qed.

Lemma blank_submit_ignored_witness :
  blank "  " /\ ~ blank (Chat.input Example.chat_state) /\
  Chat.loading Example.chat_state = false /\
  calls (Chat.handleSubmit Example.chat_state Example.world).2
  = [mkCall (chatApi_sendMessage "plan my week" None)] /\
  GoalChat.handleSubmit (GoalChat.setInput "  " Example.goal_state) Example.world
  = (GoalChat.setInput "  " Example.goal_state, Example.world).
Proof.
  destruct blank_submit_ignored as (HChat & HGoal & _).
  assert (H1 : blank "  ") by (repeat constructor).
  assert (H2 : ~ blank (Chat.input Example.chat_state)).
  { intros Hb. inversion Hb as [|c l _ Hb1]. inversion Hb1 as [|c1 l1 _ Hb2].
    inversion Hb2 as [|c2 l2 Hc _]. discriminate Hc. }
  assert (H3 : Chat.loading Example.chat_state = false) by reflexivity.
  split; [exact H1|]. split; [exact H2|]. split; [exact H3|]. split.
  - exact (proj2 (HChat Example.chat_state Example.world) H2 H3).
  - exact (proj1 (HGoal (GoalChat.setInput "  " Example.goal_state) Example.world)
             (or_introl H1)).
Defined.

End BlankInput.

(** ** Goal conversations: what a submission stores *)

Section Stored.
Import Js Client GoalChat Frame Blank.

Lemma substring0_length n s : String.length (substring0 n s) <= n.
Proof.
  unfold substring0. revert s. induction n as [|n IH]; intros [|a s]; simpl; try lia.
  specialize (IH s). lia.
Qed.

Lemma editable_proposals id_prefix cid (l : list ProposedProject) :
  let ps := imap (editable id_prefix cid) l in
  map to_proposed ps = l /\
  Forall (fun p => selected p = false /\ conversationId p = cid) ps /\
  NoDup (map ep_id ps).
Proof.
  simpl. split; [|split].
  - apply list_eq. intros i. rewrite list_lookup_fmap, list_lookup_imap.
    destruct (l !! i) as [[t d dd]|]; done.
  - apply Forall_forall. intros p Hp.
    apply list_elem_of_lookup in Hp as [i Hi]. rewrite list_lookup_imap in Hi.
    destruct (l !! i); simplify_eq/=. done.
  - change (map ep_id (imap (editable id_prefix cid) l))
      with (ep_id <$> imap (editable id_prefix cid) l).
    rewrite fmap_imap.
    rewrite (imap_ext _ (fun i _ => id_prefix +:+ "-" +:+ pretty i)) by done.
    rewrite imap_seq_0. apply NoDup_fmap_2_strong; [|apply NoDup_seq].
    intros i j _ _ Heq. by apply (inj _), (inj _), (inj pretty) in Heq.
Qed.

(** The state a submission that passed the guard ends in. *)
Lemma handleSubmit_final st w :
  truthy (trim (input st)) = true -> loading st = false ->
  let text := trim (input st) in
  let cid := target_conversation (clock w) st in
  let tempId := "msg-" +:+ pretty (clock w) in
  exists f,
    (handleSubmit st w).1
    = setLoading false
        (setConversations (in_conversation (Some cid) (update_by_id tempId f))
           (optimistic text (clock w) st)) /\
    match remote w _ (calls w) (chatApi_sendMessage text None) with
    | (elapsed, Resolved chatResponse) =>
        let finalId := "msg-" +:+ pretty (clock w + elapsed)%N in
        f = resolve_message finalId chatResponse
              (imap (editable ("proj-" +:+ finalId) cid)
                 (default [] (proposed_projects chatResponse)))
    | (_, Rejected _) => f = fail_message
    end.
Proof.
  intros Hin Hld. cbv zeta.
  destruct (GoalChat_handleSubmit_run st w Hin Hld) as [_ Hfinal]. rewrite Hfinal.
  destruct (remote w ChatResponse (calls w) (chatApi_sendMessage _ None))
    as [elapsed [chatResponse|e]]; eexists; split; done.
Qed.

(** X7.  When a submitted message is answered, the proposals of the answer
    are stored with the answered message, which is the last one of its
    conversation: the same titles, descriptions and due dates in the same
    order, all of them unselected, all tagged with the conversation, and
    with ids that differ from one another.  With no proposals in the answer
    the message carries none. *)
Theorem answered_proposals_stored (st : State) (w : World) (elapsed : N)
    (chatResponse : ChatResponse) :
  ~ blank (input st) -> loading st = false -> well_formed st ->
  remote w _ (calls w) (chatApi_sendMessage (trim (input st)) None)
  = (elapsed, Resolved chatResponse) ->
  let cid := target_conversation (clock w) st in
  exists conv msg,
    conv ∈ conversations (handleSubmit st w).1 /\
    conv_id conv = cid /\
    last (messages conv) = Some msg /\
    message msg = trim (input st) /\
    msg_response msg = response chatResponse /\
    let stored := default [] (proposedProjects msg) in
    map to_proposed stored = default [] (proposed_projects chatResponse) /\
    Forall (fun p => selected p = false /\ conversationId p = cid) stored /\
    NoDup (map ep_id stored) /\
    (proposedProjects msg = None <-> default [] (proposed_projects chatResponse) = []).
Proof.
  intros Hb Hld Hwf Hremote. cbv zeta.
  assert (Hin : truthy (trim (input st)) = true).
  { destruct (truthy (trim (input st))) eqn:Ht; [done|]. by apply truthy_trim_blank in Ht. }
  destruct (handleSubmit_final st w Hin Hld) as (f & Hfinal & Hf).
  rewrite Hremote in Hf. cbv zeta in Hf.
  destruct (target_conversation_member (clock w) (trim (input st)) st Hwf)
    as (conv & Hconv & Hid).
  set (cid := target_conversation (clock w) st) in *.
  set (prov := provisional ("msg-" +:+ pretty (clock w)) (trim (input st)) (clock w)).
  exists (with_messages
            (update_by_id ("msg-" +:+ pretty (clock w)) f (messages conv ++ [prov])) conv),
         (f prov).
  split.
  { rewrite Hfinal. cbn [conversations setLoading setConversations].
    rewrite optimistic_conversations. fold cid prov.
    apply (in_conversation_member cid _ _
             (with_messages (messages conv ++ [prov]) conv)); [|done].
    by apply (in_conversation_member cid (fun ms => ms ++ [prov])). }
  split; [done|]. split.
  { simpl. unfold update_by_id. rewrite map_app. simpl. rewrite String.eqb_refl.
    apply last_snoc. }
  rewrite Hf. simpl. split; [done|]. split; [done|].
  pose proof (editable_proposals
                ("proj-" +:+ ("msg-" +:+ pretty (clock w + elapsed)%N)) cid
                (default [] (proposed_projects chatResponse))) as (Hmap & Hall & Hnodup).
  rewrite length_imap.
  destruct (default [] (proposed_projects chatResponse)) as [|p ps] eqn:Hps; simpl.
  - repeat split; try done.
    all: constructor.
  - repeat split; try done.
Qed.

Lemma answered_proposals_stored_witness :
  ~ blank (input Example.goal_state) /\
  loading Example.goal_state = false /\
  well_formed Example.goal_state /\
  exists conv msg,
    conv ∈ conversations (handleSubmit Example.goal_state Example.world).1 /\
    last (messages conv) = Some msg /\
    map to_proposed (default [] (proposedProjects msg))
    = default [] (proposed_projects Example.chat_response).
Proof.
  assert (H1 : ~ blank (input Example.goal_state)).
  { intros Hb. inversion Hb as [|c l Hc _]. discriminate Hc. }
  assert (H2 : loading Example.goal_state = false) by reflexivity.
  assert (H3 : well_formed Example.goal_state).
  { intros cid Hcid _. injection Hcid as <-.
    eexists. split; [apply list_elem_of_here|reflexivity]. }
  destruct (answered_proposals_stored Example.goal_state Example.world 120
              Example.chat_response H1 H2 H3 eq_refl)
    as (conv & msg & Hin & _ & Hlast & _ & _ & Hstored & _).
  split; [exact H1|]. split; [exact H2|]. split; [exact H3|].
  exists conv, msg. split; [exact Hin|]. split; [exact Hlast|exact Hstored].
Defined.

(** X8.  A submission that passes the guard clears the input and, when it
    has settled, the loading flag.  With a current conversation it goes
    there and the list of conversations keeps its length; without one it
    opens a conversation at the end of the list, makes it current, names it
    after the clock, titles it with the first 50 characters of the message,
    and that conversation holds the one message. *)
Theorem submit_opens_conversation (st : State) (w : World) :
  ~ blank (input st) -> loading st = false ->
  let final := (handleSubmit st w).1 in
  input final = "" /\
  loading final = false /\
  creatingProjects final = creatingProjects st /\
  if truthy_opt (currentConversationId st)
  then currentConversationId final = currentConversationId st /\
       length (conversations final) = length (conversations st)
  else currentConversationId final = Some ("conv-" +:+ pretty (clock w)) /\
       length (conversations final) = S (length (conversations st)) /\
       exists conv,
         last (conversations final) = Some conv /\
         conv_id conv = "conv-" +:+ pretty (clock w) /\
         conv_title conv = substring0 50 (trim (input st)) /\
         String.length (conv_title conv) <= 50 /\
         createdAt conv = ISOString (clock w) /\
         map message (messages conv) = [trim (input st)].
Proof.
  intros Hb Hld. cbv zeta.
  assert (Hin : truthy (trim (input st)) = true).
  { destruct (truthy (trim (input st))) eqn:Ht; [done|]. by apply truthy_trim_blank in Ht. }
  destruct (handleSubmit_final st w Hin Hld) as (f & Hfinal & Hf).
  assert (Hmsg : forall m, message (f m) = message m).
  { destruct (remote w ChatResponse (calls w) _) as [elapsed [chatResponse|e]];
      by rewrite Hf. }
  rewrite Hfinal.
  cbn [conversations input loading creatingProjects currentConversationId
       setLoading setConversations].
  rewrite optimistic_conversations.
  assert (Hopt : input (optimistic (trim (input st)) (clock w) st) = "" /\
            creatingProjects (optimistic (trim (input st)) (clock w) st)
            = creatingProjects st /\
            currentConversationId (optimistic (trim (input st)) (clock w) st)
            = if truthy_opt (currentConversationId st)
              then currentConversationId st
              else Some ("conv-" +:+ pretty (clock w))).
  { unfold optimistic, target_conversation. simpl.
    by destruct (truthy_opt (currentConversationId st)). }
  destruct Hopt as (-> & -> & ->).
  unfold target_conversation.
  destruct (truthy_opt (currentConversationId st)) eqn:Hcur.
  - repeat split. unfold in_conversation. by rewrite !length_map.
  - repeat split.
    + unfold in_conversation. rewrite !length_map, length_app. simpl. lia.
    + unfold in_conversation.
      change (map ?g (map ?h ?l)) with (g <$> (h <$> l)).
      rewrite !fmap_last, last_snoc.
      cbn [fmap option_fmap option_map conv_is conv_id with_messages messages].
      rewrite String.eqb_refl.
      cbn [conv_is conv_id with_messages messages conv_title createdAt].
      rewrite String.eqb_refl.
      eexists. split; [reflexivity|].
      cbn [conv_id conv_title createdAt messages with_messages].
      repeat split; [apply substring0_length|].
      unfold update_by_id. simpl. rewrite String.eqb_refl. simpl. by rewrite Hmsg.
Qed.

Lemma submit_opens_conversation_witness :
  ~ blank (input (setInput "I want to read more" initial)) /\
  loading (setInput "I want to read more" initial) = false /\
  currentConversationId
    (handleSubmit (setInput "I want to read more" initial) Example.world).1
  = Some "conv-1700000000000".
Proof.
  assert (H1 : ~ blank (input (setInput "I want to read more" initial))).
  { intros Hb. inversion Hb as [|c l Hc _]. discriminate Hc. }
  assert (H2 : loading (setInput "I want to read more" initial) = false) by reflexivity.
  destruct (submit_opens_conversation (setInput "I want to read more" initial)
              Example.world H1 H2) as (_ & _ & _ & Hopen).
  split; [exact H1|]. split; [exact H2|]. exact (proj1 Hopen).
Defined.

End Stored.

(** ** Goal conversations: the edit request *)

Section EditRequest.
Import Js Client GoalChat Frame Blank.

Lemma with_conversationId_editable id_prefix cid (l : list ProposedProject) :
  map (with_conversationId cid) (imap (editable id_prefix cid) l)
  = imap (editable id_prefix cid) l.
Proof.
  apply list_eq. intros i. rewrite list_lookup_fmap, !list_lookup_imap.
  by destruct (l !! i).
Qed.

Lemma allProjects_appended cid (m : Message) st :
  currentConversationId st = Some cid ->
  allProjects (setConversations (in_conversation (Some cid) (fun ms => ms ++ [m])) st)
  = match currentConversation st with
    | Some _ =>
        allProjects st ++ map (with_conversationId cid) (default [] (proposedProjects m))
    | None => []
    end.
Proof.
  intros Hcur. unfold allProjects, currentConversation. simpl. rewrite Hcur.
  unfold in_conversation.
  rewrite find_map_stable
    by (intros c; apply (conv_is_in_conversation _ _ (fun ms => ms ++ [m]))).
  destruct (find (conv_is (Some cid)) (conversations st)) as [conv|] eqn:Hfind; [|done].
  apply find_some in Hfind as [_ Hc].
  cbn [fmap option_fmap option_map]. rewrite Hc. cbn [with_messages messages].
  rewrite flat_map_app. simpl. by rewrite app_nil_r.
Qed.

(** X9.  An edit request with a blank prompt or without a current
    conversation only raises the alert: no call, no change of state.
    Otherwise the prompt is sent as typed, once, together with the title,
    description and due date of every proposal on display.  When the call
    fails the conversations stay as they were; when it is answered the
    proposals of the answer are displayed after the ones that were on
    display, which all remain.  In both cases the loading flag ends cleared
    and no alert is raised. *)
Theorem edit_request_appends (editPrompt : string) (st : State) (w : World) :
  let final := (handleEditProjects editPrompt st w).1 in
  let out := (handleEditProjects editPrompt st w).2 in
  (blank editPrompt \/ given (currentConversationId st) = None ->
   final = st /\ calls out = calls w /\
   effects out = effects w ++ [Alert "Please enter an edit request"]) /\
  (forall cid,
     ~ blank editPrompt -> given (currentConversationId st) = Some cid ->
     let sent := chatApi_sendMessage editPrompt (Some (map to_proposed (allProjects st))) in
     calls out = calls w ++ [mkCall sent] /\
     effects out = effects w /\
     loading final = false /\
     currentConversationId final = currentConversationId st /\
     match remote w _ (calls w) sent with
     | (elapsed, Resolved chatResponse) =>
         allProjects final
         = match currentConversation st with
           | Some _ =>
               allProjects st
               ++ imap (editable ("proj-" +:+ pretty (clock w + elapsed)%N) cid)
                       (default [] (proposed_projects chatResponse))
           | None => []
           end
     | (_, Rejected _) => conversations final = conversations st
     end).
Proof.
  cbv zeta. unfold handleEditProjects, given. split.
  - intros Hguard.
    destruct (currentConversationId st) as [cid|]; [|done].
    assert (Hg : negb (truthy (trim editPrompt)) || negb (truthy cid) = true).
    { destruct Hguard as [Hb|Hc].
      - apply truthy_trim_blank in Hb. by rewrite Hb.
      - destruct (truthy cid); [done|]. apply orb_true_r. }
    by rewrite Hg.
  - intros cid Hb Hcur.
    destruct (currentConversationId st) as [cid'|] eqn:Hid; [|done].
    destruct (truthy cid') eqn:Hc; [|done]. injection Hcur as ->.
    assert (Hin : truthy (trim editPrompt) = true).
    { destruct (truthy (trim editPrompt)) eqn:Ht; [done|]. by apply truthy_trim_blank in Ht. }
    rewrite Hin. simpl. unfold bind, await, Date_now.
    destruct (remote w ChatResponse (calls w) _) as [elapsed [chatResponse|e]]; simpl.
    + repeat split; try done.
      change (allProjects ?s) with
        (allProjects (setConversations
           (in_conversation (Some cid)
              (fun ms => ms ++ [
                {| msg_id := "msg-" +:+ pretty (clock w + elapsed)%N;
                   message := editPrompt;
                   msg_response := response chatResponse;
                   timestamp := ISOString (clock w + elapsed)%N;
                   proposedProjects :=
                     Some (imap (editable ("proj-" +:+ pretty (clock w + elapsed)%N) cid)
                             (default [] (proposed_projects chatResponse)));
                   requiresConfirmation :=
                     Some (negb (Nat.eqb
                       (length (imap (editable ("proj-" +:+ pretty (clock w + elapsed)%N) cid)
                             (default [] (proposed_projects chatResponse)))) 0)) |}]))
           st)) at 1.
      rewrite (allProjects_appended cid _ st Hid). simpl.
      by rewrite with_conversationId_editable.
    + repeat split; done.
Qed.

Lemma edit_request_appends_witness :
  ~ blank "make it two weeks" /\
  given (currentConversationId Example.goal_state) = Some "conv-1" /\
  loading (handleEditProjects "make it two weeks" Example.goal_state Example.world).1
  = false.
Proof.
  assert (H1 : ~ blank "make it two weeks").
  { intros Hb. inversion Hb as [|c l Hc _]. discriminate Hc. }
  assert (H2 : given (currentConversationId Example.goal_state) = Some "conv-1")
    by reflexivity.
  destruct (proj2 (edit_request_appends "make it two weeks" Example.goal_state
                     Example.world) "conv-1" H1 H2) as (_ & _ & Hl & _).
  split; [exact H1|]. split; [exact H2|exact Hl].
Defined.

End EditRequest.

(** ** Signing in and out *)

Section SignIn.
Import Js Client AuthContext.




(** X11.  The effect run on mount always ends with the loading flag
    cleared.  Without a stored token (none, or an empty one) it makes no
    call and leaves the user and the storage as they were; with one it asks
    the server to verify it, once, and when the server confirms, the user
    of the answer is set and the token stays stored.  So a reload after a
    successful sign-in with a non-empty token asks for verification. *)
Theorem mount_restores_session (st : State) (w : World) :
  let st' := (onMount st w).1 in
  let w' := (onMount st w).2 in
  loading st' = false /\
  match given (localStorage w !! "token") with
  | None => calls w' = calls w /\ user st' = user st /\ localStorage w' = localStorage w
  | Some _ =>
      calls w' = calls w ++ [mkCall authApi_verifyToken] /\
      match (remote w _ (calls w) authApi_verifyToken).2 with
      | Resolved userData =>
          user st' = Some userData /\ isAuthenticated st' = true /\
          localStorage w' = localStorage w
      | Rejected _ => user st' = user st /\ localStorage w' = delete "token" (localStorage w)
      end
  end /\
  forall email password res,
    (remote w _ (calls w) (authApi_login email password)).2 = Resolved res ->
    auth_token res <> "" ->
    let signed_in := (login email password st w).2 in
    calls (onMount initial signed_in).2
    = calls w ++ [mkCall (authApi_login email password); mkCall authApi_verifyToken].
Proof.
  cbv zeta. split; [|split].
  - unfold onMount, bind, getItem, await; simpl.
    destruct (truthy_opt _); [|done].
    by destruct (remote w User (calls w) authApi_verifyToken) as [elapsed [u|e]].
  - unfold onMount, bind, getItem, given, truthy_opt, await; simpl.
    destruct (localStorage w !! "token") as [t|]; [|done].
    destruct (truthy t); [|done].
    by destruct (remote w User (calls w) authApi_verifyToken) as [elapsed [u|e]].
  - intros email password res Hres Hne.
    unfold login, bind, await.
    destruct (remote w AuthResult (calls w) (authApi_login email password))
      as [elapsed r]. simpl in Hres. subst r.
    unfold setItem, ret. cbn [snd].
    unfold onMount, bind, getItem. cbn [localStorage]. rewrite lookup_insert_eq.
    apply truthy_true in Hne. unfold truthy_opt. rewrite Hne.
    unfold await. cbn [calls remote clock].
    destruct (remote w User _ authApi_verifyToken) as [elapsed' [u|e]]; simpl;
      by rewrite <- app_assoc.
Qed.

Lemma mount_restores_session_witness :
  calls (onMount initial
           (login "ada@example.org" "secret" initial Scenario.fresh).2).2
  = [mkCall (authApi_login "ada@example.org" "secret"); mkCall authApi_verifyToken].
Proof.
  refine (proj2 (proj2 (mount_restores_session initial Scenario.fresh))
            "ada@example.org" "secret" {| auth_user := Scenario.ada; auth_token := "t1" |}
            eq_refl _).
  discriminate.
Defined.

End SignIn.

(** ** The password form: how an accepted submission ends *)

Section PasswordOutcome.
Import Js Client Settings.

(** X12.  The password form never ends showing an error and a success
    message together.  A submission that passes the two checks ends with
    the loading flag cleared; when the server accepts it the success message
    is shown and the three fields are emptied, and when the call fails the
    message of the failure is shown as the error and the three fields keep
    what was typed. *)
Theorem password_update_outcome (st : State) (w : World) :
  let st' := (handlePasswordUpdate st w).1 in
  (error st' = "" \/ success st' = "") /\
  (newPassword st = confirmPassword st -> 6 <= String.length (newPassword st) ->
   loading st' = false /\
   match (remote w _ (calls w)
            (settingsApi_updatePassword (currentPassword st) (newPassword st))).2 with
   | Resolved _ =>
       success st' = "Password updated successfully!" /\ error st' = "" /\
       currentPassword st' = "" /\ newPassword st' = "" /\ confirmPassword st' = ""
   | Rejected err =>
       error st' = Js.message err /\ success st' = "" /\
       currentPassword st' = currentPassword st /\ newPassword st' = newPassword st /\
       confirmPassword st' = confirmPassword st
   end).
Proof.
  cbv zeta. unfold handlePasswordUpdate. simpl. split.
  - destruct (negb (String.eqb (newPassword st) (confirmPassword st))); [by right|].
    destruct (Nat.ltb (String.length (newPassword st)) 6); [by right|].
    unfold bind, await.
    destruct (remote w string (calls w) _) as [elapsed [res|e]]; simpl; [by left|by right].
  - intros Heq Hlen. apply String.eqb_eq in Heq. rewrite Heq. simpl.
    apply Nat.ltb_ge in Hlen. rewrite Hlen.
    unfold bind, await.
    by destruct (remote w string (calls w) _) as [elapsed [res|e]].
Qed.

Lemma password_update_outcome_witness :
  newPassword (Example.password_form "s3cret!" "s3cret!")
  = confirmPassword (Example.password_form "s3cret!" "s3cret!") /\
  6 <= String.length (newPassword (Example.password_form "s3cret!" "s3cret!")) /\
  loading (handlePasswordUpdate (Example.password_form "s3cret!" "s3cret!")
             Scenario.fresh).1 = false.
Proof.
  split; [reflexivity|]. split; [simpl; lia|].
  apply (proj2 (password_update_outcome (Example.password_form "s3cret!" "s3cret!")
                  Scenario.fresh)); [reflexivity|simpl; lia].
Defined.

End PasswordOutcome.

(** ** The OAuth callback page: where it sends the user *)

Section OAuthRedirect.
Import Js Client OAuthCallback.

(** X13.  The callback page never stays in the processing status, touches
    no stored value, and schedules exactly one redirect: to
    [/settings?connected=true] after 2 s when it ends in success, to
    [/settings] after 3 s otherwise.  It ends in success exactly when the
    URL carries a code and a state and no error and the completion call is
    answered; an error in the URL wins over a code and a state. *)
Theorem oauth_redirect_scheduled (searchParams : SearchParams) (st : State) (w : World) :
  let st' := (onCallback searchParams st w).1 in
  let w' := (onCallback searchParams st w).2 in
  status st' <> processing /\
  localStorage w' = localStorage w /\
  effects w'
  = effects w
    ++ [match status st' with
        | success => SetTimeout (NavigateTo "/settings?connected=true") 2000
        | _ => SetTimeout (NavigateTo "/settings") 3000
        end] /\
  (status st' = success <->
   exists code state,
     given (get "code" searchParams) = Some code /\
     given (get "state" searchParams) = Some state /\
     given (get "error" searchParams) = None /\
     is_resolved
       (remote w _ (calls w)
          (settingsApi_completeGoogleCalendarOAuth code state
             (origin w +:+ "/settings/oauth/callback"))).2 = true) /\
  (given (get "error" searchParams) <> None ->
   message st' = "Authentication failed. Please try again.").
Proof.
  cbv zeta. unfold onCallback, given, truthy_opt.
  destruct (get "error" searchParams) as [e|]; [destruct (truthy e) eqn:He|].
  - simpl. repeat split; try done. by intros (c & s' & _ & _ & Hc & _).
  - destruct (get "code" searchParams) as [c|]; [destruct (truthy c)|];
      (destruct (get "state" searchParams) as [s'|]; [destruct (truthy s')|]);
      cbn [negb orb];
      try (simpl; repeat split; try done;
           by intros (c' & s'' & Hc & Hs & _)).
    unfold bind, location_origin, await.
    destruct (remote w OAuthResult (calls w) _) as [elapsed [res|err]] eqn:Hr;
      simpl in Hr |- *.
    + repeat split; try done. intros _. exists c, s'. by rewrite Hr.
    + repeat split; try done.
      intros (c' & s'' & [= <-] & [= <-] & _ & Hres). by rewrite Hr in Hres.
  - destruct (get "code" searchParams) as [c|]; [destruct (truthy c)|];
      (destruct (get "state" searchParams) as [s'|]; [destruct (truthy s')|]);
      cbn [negb orb];
      try (simpl; repeat split; try done;
           by intros (c' & s'' & Hc & Hs & _)).
    unfold bind, location_origin, await.
    destruct (remote w OAuthResult (calls w) _) as [elapsed [res|err]] eqn:Hr;
      simpl in Hr |- *.
    + repeat split; try done. intros _. exists c, s'. by rewrite Hr.
    + repeat split; try done.
      intros (c' & s'' & [= <-] & [= <-] & _ & Hres). by rewrite Hr in Hres.
Qed.

Lemma oauth_redirect_scheduled_witness :
  given (get "error" [("error", "access_denied"); ("code", "4/0Ab"); ("state", "xyz")])
  <> None /\
  message (onCallback [("error", "access_denied"); ("code", "4/0Ab"); ("state", "xyz")]
             initial Example.world).1
  = "Authentication failed. Please try again.".
Proof.
  assert (H : given (get "error" [("error", "access_denied"); ("code", "4/0Ab");
                                  ("state", "xyz")]) <> None) by discriminate.
  split; [exact H|].
  destruct (oauth_redirect_scheduled
              [("error", "access_denied"); ("code", "4/0Ab"); ("state", "xyz")]
              initial Example.world) as (_ & _ & _ & _ & Hmsg).
  exact (Hmsg H).
Defined.

End OAuthRedirect.

(** ** The request helper: the Content-Type header *)

Section ContentType.
Import Js Api.

Lemma Headers_has_get name h :
  Headers_has name h = match Headers_get name h with Some _ => true | None => false end.
Proof.
  unfold Headers_has, Headers_get. destruct (h !! toLowerCase name) eqn:Hh.
  - by apply bool_decide_eq_true.
  - apply bool_decide_eq_false. by intros [? ?].
Qed.

Lemma client_call_body call :
  client_call call ->
  (body call.2 = None <-> method call.2 = None \/ method call.2 = Some "DELETE").
Proof. destruct 1; simpl; split; (done || (intros [?|?]; done) || by auto). Qed.

(** X14.  The current request helper keeps a Content-Type the caller
    supplies, in any letter case, and otherwise sends
    [Content-Type: application/json] exactly when the request has a body.
    For the functions of the client this means: with a body always, without
    one (the GET and DELETE calls) never.  The earlier revision sends the
    header on every call of the client, a body or not; the two revisions
    agree on the URL, the method and the body, and on whether a request can
    be built at all. *)
Theorem content_type_follows_body :
  (forall (env : Env) (endpoint : string) (options : RequestInit) (h0 : Headers)
          (sent : HttpRequest),
     Headers_new (init_headers options) = Resolved h0 ->
     build env endpoint options = Resolved sent ->
     Headers_get "Content-Type" (req_headers sent)
     = match Headers_get "Content-Type" h0 with
       | Some v => Some v
       | None => match body options with
                 | Some _ => Some "application/json"
                 | None => None
                 end
       end) /\
  (forall (env : Env) call,
     client_call call ->
     (body call.2 = None <-> method call.2 = None \/ method call.2 = Some "DELETE") /\
     Object_get "Content-Type" (build_legacy_headers env call.2)
     = Some "application/json" /\
     match build env call.1 call.2, build_legacy env call.1 call.2 with
     | Resolved sent, Resolved sent' =>
         Headers_get "Content-Type" (req_headers sent)
         = match body call.2 with
           | Some _ => Some "application/json"
           | None => None
           end /\
         Headers_get "Content-Type" (req_headers sent') = Some "application/json" /\
         url sent' = url sent /\
         req_method sent' = req_method sent /\
         req_body sent' = req_body sent
     | Rejected _, Rejected _ => True
     | _, _ => False
     end).
Proof.
  assert (Hgen : forall env endpoint options h0 sent,
     Headers_new (init_headers options) = Resolved h0 ->
     build env endpoint options = Resolved sent ->
     Headers_get "Content-Type" (req_headers sent)
     = match Headers_get "Content-Type" h0 with
       | Some v => Some v
       | None => match body options with
                 | Some _ => Some "application/json"
                 | None => None
                 end
       end).
  { intros env endpoint options h0 sent Hnew Hbuild.
    rewrite (build_spec env endpoint options h0 Hnew) in Hbuild.
    assert (Hct : Headers_get "Content-Type"
              (if negb (Headers_has "Content-Type" h0)
                  && bool_decide (is_Some (body options))
               then <["content-type" := "application/json"]> h0 else h0)
            = match Headers_get "Content-Type" h0 with
              | Some v => Some v
              | None => match body options with
                        | Some _ => Some "application/json"
                        | None => None
                        end
              end).
    { rewrite Headers_has_get.
      destruct (Headers_get "Content-Type" h0) as [v|] eqn:Hv; simpl; [done|].
      destruct (body options); simpl; [apply lookup_insert_eq|done]. }
    destruct (given (storage env !! "token")) as [t|].
    - destruct (header_value "Authorization" ("Bearer " +:+ t)) as [v|]; [|done].
      injection Hbuild as <-. cbn [req_headers]. rewrite <- Hct.
      unfold Headers_get. by rewrite lookup_insert_ne.
    - injection Hbuild as <-. exact Hct. }
  split; [exact Hgen|].
  intros env call Hcall.
  pose proof (client_call_no_headers call Hcall) as Hinit.
  split; [by apply client_call_body|].
  assert (Hobject : build_legacy_headers env call.2
                    = [("Content-Type", "application/json")]
                      ++ match given (storage env !! "token") with
                         | Some t => [("Authorization", "Bearer " +:+ t)]
                         | None => []
                         end).
  { rewrite build_legacy_headers_spec by (rewrite Hinit; constructor).
    by rewrite Hinit. }
  split; [by rewrite Hobject|].
  pose proof (Hgen env call.1 call.2 ∅) as Hcurrent. rewrite Hinit in Hcurrent.
  specialize (fun sent => Hcurrent sent eq_refl).
  rewrite (build_spec env call.1 call.2 ∅) in * by (by rewrite Hinit).
  unfold build_legacy. rewrite Hobject.
  destruct (given (storage env !! "token")) as [t|].
  - cbn [app Headers_fill and_then]. unfold Headers_append. cbn [fst snd].
    change (header_value "Content-Type" "application/json")
      with (Some "application/json").
    cbn [and_then]. rewrite lookup_empty. cbn [and_then].
    destruct (header_value "Authorization" ("Bearer " +:+ t)) as [v|]; [|done].
    rewrite lookup_insert_ne by done. cbn [and_then].
    split; [by rewrite (Hcurrent _ eq_refl)|]. split; [|done].
    unfold Headers_get. cbn [req_headers]. rewrite lookup_insert_ne by done.
    apply lookup_insert_eq.
  - split; [by rewrite (Hcurrent _ eq_refl)|]. done.
Qed.

Lemma content_type_follows_body_witness :
  let env := Example.env 200 (Resolved JNull) in
  let call := projectsApi_delete "7" in
  client_call call /\
  match build env call.1 call.2, build_legacy env call.1 call.2 with
  | Resolved sent, Resolved sent' =>
      Headers_get "Content-Type" (req_headers sent)
      = match body call.2 with
        | Some _ => Some "application/json"
        | None => None
        end /\
      Headers_get "Content-Type" (req_headers sent') = Some "application/json" /\
      url sent' = url sent /\
      req_method sent' = req_method sent /\
      req_body sent' = req_body sent
  | Rejected _, Rejected _ => True
  | _, _ => False
  end.
Proof.
  cbv zeta. split; [exact (cc_delete "7")|].
  exact (proj2 (proj2 (proj2 content_type_follows_body
                         (Example.env 200 (Resolved JNull))
                         (projectsApi_delete "7") (cc_delete "7")))).
Defined.

End ContentType.

(** ** The query strings of the calendar requests *)

Section UrlEncoding.
Import Js Api.

Local Abbreviation chars := String.list_ascii_of_string.

(** How often the character [c] occurs in [s]. *)
Local Abbreviation count c s := (length (filter (fun x : ascii => x = c%char) (chars s))).

Lemma chars_app s t : chars (s +:+ t) = chars s ++ chars t.
Proof. induction s as [|a s IH]; simpl; [done|]. by rewrite IH. Qed.

Lemma append_assoc s t u : (s +:+ t) +:+ u = s +:+ (t +:+ u).
Proof.
  induction s as [|a s IH]; [done|].
  change (String a ((s +:+ t) +:+ u) = String a (s +:+ (t +:+ u))). by rewrite IH.
Qed.

Lemma one_of_weaken short long c :
  (forall x, x ∈ chars short -> x ∈ chars long) ->
  one_of short c = true -> one_of long c = true.
Proof.
  unfold one_of. intros Hsub Hc.
  apply existsb_exists in Hc as (x & Hx & Heq). apply Ascii.eqb_eq in Heq. subst x.
  apply existsb_exists. exists c. split; [|apply Ascii.eqb_refl].
  apply list_elem_of_In, Hsub, list_elem_of_In, Hx.
Qed.

Lemma encode_chars (P : ascii -> Prop) keep space s :
  (forall c, keep c = true -> P c) -> Forall P (chars space) ->
  P "%"%char -> (forall n, P (hex_digit n)) ->
  Forall P (chars (encode keep space s)).
Proof.
  intros Hkeep Hspace Hpct Hhex. induction s as [|c s IH]; simpl; [constructor|].
  rewrite chars_app. apply Forall_app. split; [|exact IH].
  destruct (keep c) eqn:Hc; [by repeat constructor; apply Hkeep|].
  destruct (Ascii.eqb c " "); [exact Hspace|].
  unfold utf8. destruct (Nat.ltb _ 128); simpl; repeat constructor; auto.
Qed.

Lemma encode_kept keep space s :
  Forall (fun c => keep c = true) (chars s) -> encode keep space s = s.
Proof.
  induction s as [|c s IH]; simpl; [done|]. inversion 1 as [|? ? Hc Hs]; subst.
  rewrite Hc. simpl. by rewrite IH.
Qed.

Lemma count_app (c : ascii) s t : count c (s +:+ t) = count c s + count c t.
Proof. by rewrite chars_app, filter_app, length_app. Qed.

Lemma count_absent (P : ascii -> Prop) (c : ascii) l :
  ~ P c -> Forall P l -> length (filter (fun x => x = c) l) = 0.
Proof.
  intros Hc Hl. induction Hl as [|x l Hx _ IH]; [done|].
  rewrite filter_cons. destruct (decide (x = c)) as [->|]; [done|exact IH].
Qed.

(** What [URLSearchParams] and [encodeURIComponent] produce: letters,
    digits, the marks each leaves alone, [%] and, for the first, [+]. *)
Lemma form_urlencoded_chars s :
  Forall (fun c => is_alphanumeric c || one_of "*-._%+" c = true)
    (chars (form_urlencoded s)).
Proof.
  apply encode_chars.
  - intros c Hc. apply orb_true_iff in Hc as [->|Hc]; [done|].
    rewrite (one_of_weaken "*-._" "*-._%+" c); [apply orb_true_r| |done].
    intros x. simpl. rewrite !elem_of_cons, !elem_of_nil. tauto.
  - by repeat constructor.
  - done.
  - intros n. unfold hex_digit. do 16 (destruct n as [|n]; [reflexivity|]). by destruct n.
Qed.

Lemma encodeURIComponent_chars s :
  Forall (fun c => is_alphanumeric c || one_of "-_.!~*'()%" c = true)
    (chars (encodeURIComponent s)).
Proof.
  apply encode_chars.
  - intros c Hc. apply orb_true_iff in Hc as [->|Hc]; [done|].
    rewrite (one_of_weaken "-_.!~*'()" "-_.!~*'()%" c); [apply orb_true_r| |done].
    intros x. simpl. rewrite !elem_of_cons, !elem_of_nil. tauto.
  - by repeat constructor.
  - done.
  - intros n. unfold hex_digit. do 16 (destruct n as [|n]; [reflexivity|]). by destruct n.
Qed.

(** A character that encoding never produces occurs in a query string only
    as the [=] of a pair or the [&] between two pairs. *)
Lemma query_count (c : ascii) (params : list (string * string)) :
  is_alphanumeric c || one_of "*-._%+" c = false ->
  count c (URLSearchParams_toString params)
  = count c "=" * length params + count c "&" * pred (length params).
Proof.
  intros Hc. unfold URLSearchParams_toString.
  assert (Henc : forall s, count c (form_urlencoded s) = 0).
  { intros s. apply (count_absent _ c _ (fun H => eq_true_false_abs _ H Hc)
                       (form_urlencoded_chars s)). }
  assert (Hpair : forall kv : string * string,
            count c (form_urlencoded kv.1 +:+ "=" +:+ form_urlencoded kv.2)
            = count c "=").
  { intros kv. rewrite !count_app, !Henc. lia. }
  induction params as [|kv params IH]; [simpl; lia|].
  destruct params as [|kv' params].
  { change (String.concat "&" (map ?f [kv])) with (f kv).
    cbv beta. rewrite Hpair. simpl. lia. }
  change (String.concat "&" (map ?f (kv :: kv' :: params)))
    with (f kv +:+ "&" +:+ String.concat "&" (map f (kv' :: params))).
  cbv beta. rewrite (count_app _ (form_urlencoded kv.1 +:+ _)), (count_app _ "&").
  rewrite Hpair, IH. cbn [length pred]. nia.
Qed.

(** X15.  The two calendar requests have well-formed query strings whatever
    the code, the state and the redirect URI hold.  The completion request
    has one [?], three [=] and two [&], the authorization request with a
    redirect URI one [?] and one [=] and no [&], and neither has a [#]: a
    value cannot add a parameter or cut the query short.  A value of
    letters and digits is sent as it is.  Without a redirect URI, or with an
    empty one, the authorization request has no query at all.  Both are GET
    requests without a body. *)
Theorem oauth_query_well_formed (code state redirectUri : string) :
  let callback := settingsApi_completeGoogleCalendarOAuth code state redirectUri in
  let authorize := settingsApi_getGoogleCalendarAuthUrl (Some redirectUri) in
  (count "?" callback.1 = 1 /\ count "=" callback.1 = 3 /\
   count "&" callback.1 = 2 /\ count "#" callback.1 = 0) /\
  (redirectUri <> "" ->
   count "?" authorize.1 = 1 /\ count "=" authorize.1 = 1 /\
   count "&" authorize.1 = 0 /\ count "#" authorize.1 = 0) /\
  (Forall (fun c => is_alphanumeric c = true) (chars code) ->
   Forall (fun c => is_alphanumeric c = true) (chars state) ->
   Forall (fun c => is_alphanumeric c = true) (chars redirectUri) ->
   callback.1 = "/settings/google-calendar/callback?code=" +:+ code
                +:+ "&state=" +:+ state +:+ "&redirect_uri=" +:+ redirectUri /\
   (redirectUri <> "" ->
    authorize.1 = "/settings/google-calendar/authorize?redirect_uri=" +:+ redirectUri)) /\
  (settingsApi_getGoogleCalendarAuthUrl (Some "")).1
  = "/settings/google-calendar/authorize" /\
  (settingsApi_getGoogleCalendarAuthUrl None).1 = "/settings/google-calendar/authorize" /\
  callback.2 = GET /\ authorize.2 = GET.
Proof.
  cbv zeta. split; [|split; [|split]].
  - unfold settingsApi_completeGoogleCalendarOAuth. cbn [fst].
    rewrite !count_app, !query_count by reflexivity. by repeat split.
  - intros Hne. unfold settingsApi_getGoogleCalendarAuthUrl.
    apply truthy_true in Hne. rewrite Hne. cbn [fst].
    assert (Henc : forall c, is_alphanumeric c || one_of "-_.!~*'()%" c = false ->
                     count c (encodeURIComponent redirectUri) = 0).
    { intros c Hc. apply (count_absent _ c _ (fun H => eq_true_false_abs _ H Hc)
                            (encodeURIComponent_chars redirectUri)). }
    rewrite !count_app, !Henc by reflexivity. by repeat split.
  - intros Hcode Hstate Huri.
    assert (Hform : forall s, Forall (fun c => is_alphanumeric c = true) (chars s) ->
                      form_urlencoded s = s /\ encodeURIComponent s = s).
    { intros s Hs. split; apply encode_kept; (eapply Forall_impl; [exact Hs|]);
        intros c Hc; cbv beta; by rewrite Hc. }
    split.
    + unfold settingsApi_completeGoogleCalendarOAuth, URLSearchParams_toString.
      cbn [fst snd map String.concat].
      destruct (Hform code Hcode) as [-> _]. destruct (Hform state Hstate) as [-> _].
      destruct (Hform redirectUri Huri) as [-> _].
      change (form_urlencoded "code") with "code".
      change (form_urlencoded "state") with "state".
      change (form_urlencoded "redirect_uri") with "redirect_uri".
      by rewrite !append_assoc.
    + intros Hne. unfold settingsApi_getGoogleCalendarAuthUrl.
      apply truthy_true in Hne. rewrite Hne. cbn [fst].
      by destruct (Hform redirectUri Huri) as [_ ->].
  - done.
Qed.

Lemma oauth_query_well_formed_witness :
  "http://localhost:5173/settings/oauth/callback" <> "" /\
  count "&" (settingsApi_getGoogleCalendarAuthUrl
               (Some "http://localhost:5173/settings/oauth/callback")).1 = 0.
Proof.
  assert (H : "http://localhost:5173/settings/oauth/callback" <> "") by discriminate.
  split; [exact H|].
  destruct (proj1 (proj2 (oauth_query_well_formed "4/0Ab&x=1" "xyz"
                            "http://localhost:5173/settings/oauth/callback")) H)
    as (_ & _ & Hamp & _).
  exact Hamp.
Defined.

End UrlEncoding.

(** ** The project workspace: its chat and the plan flag *)

Section WorkspaceChat.
Import Js Client Home Blank.

Lemma update_by_id_fresh tempId f (old : list ChatMessage) (temp : ChatMessage) :
  Forall (fun m => cm_id m <> tempId) old -> cm_id temp = tempId ->
  Chat.update_by_id tempId f (old ++ [temp]) = old ++ [f temp].
Proof.
  intros Hold Hid. unfold Chat.update_by_id. rewrite map_app. simpl.
  rewrite Hid, String.eqb_refl. f_equal.
  induction Hold as [|m old Hm _ IH]; simpl; [done|].
  rewrite IH. by destruct (String.eqb_spec (cm_id m) tempId).
Qed.

Lemma loadProjectDetails_chat selected st w :
  chatMessages (loadProjectDetails selected st w).1 = chatMessages st /\
  chatInput (loadProjectDetails selected st w).1 = chatInput st /\
  chatLoading (loadProjectDetails selected st w).1 = chatLoading st /\
  planGenerating (loadProjectDetails selected st w).1 = planGenerating st.
Proof.
  unfold loadProjectDetails. destruct selected as [sel|]; [|done].
  unfold bind, await.
  by destruct (remote w Project (calls w) _) as [elapsed [data|e]].
Qed.

(** X16.  In the project workspace, [handleGeneratePlan] always ends with
    the plan flag and the loading flag cleared, also when the answer is a
    question; and a chat message sent while the plan flag is clear leaves it
    clear, goes to the chat endpoint, and is followed by a reload of the
    project exactly when the answer reports an updated plan.  Both handlers
    add one message to the chat, after the ones that were there (none of
    which bears the provisional id): the request text with the answer, or
    with an apology when the call fails. *)
Theorem plan_flag_cleared (st : State) (w : World) (sel : Project) :
  selectedProject st = Some sel -> chatLoading st = false ->
  Forall (fun m => cm_id m <> "temp-" +:+ pretty (clock w)) (chatMessages st) ->
  (let st' := (handleGeneratePlan st w).1 in
   planGenerating st' = false /\ chatLoading st' = false /\
   chatInput st' = chatInput st /\
   exists m,
     chatMessages st' = chatMessages st ++ [m] /\
     cm_message m = planRequestMessage /\
     cm_timestamp m = ISOString (clock w) /\
     cm_response m
     = match (remote w _ (calls w) (projectsApi_generatePlan (project_id sel) None)).2 with
       | Resolved result => result_plan result
       | Rejected _ => plan_error_text
       end) /\
  (~ blank (chatInput st) -> planGenerating st = false ->
   let st' := (handleSendMessage st w).1 in
   let text := trim (chatInput st) in
   let sent := projectsApi_sendChatMessage (project_id sel) text in
   planGenerating st' = false /\ chatLoading st' = false /\ chatInput st' = "" /\
   calls (handleSendMessage st w).2
   = calls w ++ mkCall sent
       :: match (remote w _ (calls w) sent).2 with
          | Resolved chatResponse =>
              if plan_updated chatResponse
              then [mkCall (projectsApi_get (project_id sel))] else []
          | Rejected _ => []
          end /\
   exists m,
     chatMessages st' = chatMessages st ++ [m] /\
     cm_message m = text /\
     cm_timestamp m = ISOString (clock w) /\
     cm_response m
     = match (remote w _ (calls w) sent).2 with
       | Resolved chatResponse => pc_response chatResponse
       | Rejected _ => Chat.error_text
       end).
Proof.
  intros Hsel Hld Hfresh. split.
  - cbv zeta. unfold handleGeneratePlan. rewrite Hsel, Hld.
    unfold bind, Date_now, await.
    destruct (remote w PlanResult (calls w) _) as [elapsed [result|e]]; simpl.
    + destruct (needs_clarification result); simpl;
        (repeat split; try done);
        eexists; (split; [by apply update_by_id_fresh|done]).
    + repeat split; try done.
      eexists; (split; [by apply update_by_id_fresh|done]).
  - intros Hb Hpg. cbv zeta.
    assert (Hin : truthy (trim (chatInput st)) = true).
    { destruct (truthy (trim (chatInput st))) eqn:Ht; [done|].
      by apply truthy_trim_blank in Ht. }
    destruct (handleSendMessage st w) as [st' w'] eqn:Hrun. cbn [fst snd].
    unfold handleSendMessage in Hrun. rewrite Hsel, Hin, Hld in Hrun.
    cbn [negb orb planGenerating setChatMessages setChatLoading setChatInput] in Hrun.
    rewrite Hpg, andb_false_r in Hrun.
    unfold bind, Date_now, await in Hrun.
    destruct (remote w ProjectChatResponse (calls w) _) as [elapsed [chatResponse|e]];
      cbn [snd].
    + destruct (plan_updated chatResponse).
      * match type of Hrun with
        | context [loadProjectDetails ?s ?t ?v] =>
            pose proof (loadProjectDetails_chat s t v) as (Hm & Hi & Hl & Hp);
            assert (Hcalls : calls (loadProjectDetails s t v).2
                             = calls v ++ [mkCall (projectsApi_get (project_id sel))])
              by (unfold loadProjectDetails, bind, await;
                  by destruct (remote v Project (calls v) _) as [el [data|err]]);
            destruct (loadProjectDetails s t v) as [st2 w2]
        end.
        simpl in Hm, Hi, Hl, Hp, Hcalls. injection Hrun as <- <-. simpl.
        rewrite Hm, Hi, Hp, Hcalls, <- app_assoc. repeat split; try done.
        eexists; (split; [by apply update_by_id_fresh|done]).
      * injection Hrun as <- <-. simpl. repeat split; try done.
        eexists; (split; [by apply update_by_id_fresh|done]).
    + injection Hrun as <- <-. simpl. repeat split; try done.
      eexists; (split; [by apply update_by_id_fresh|done]).
Qed.

Lemma plan_flag_cleared_witness :
  selectedProject Example.home_state = Some (Example.project "p1" "Learn Go") /\
  chatLoading Example.home_state = false /\
  planGenerating (handleGeneratePlan Example.home_state Example.world).1 = false.
Proof.
  split; [reflexivity|]. split; [reflexivity|].
  exact (proj1 (proj1 (plan_flag_cleared Example.home_state Example.world
                         (Example.project "p1" "Learn Go") eq_refl eq_refl
                         (List.Forall_nil _)))).
Defined.

End WorkspaceChat.

(** ** The project workspace: reloading a project *)

Section Reload.
Import Js Client Frame.

Lemma replace_in_place (data : Project) (l : list Project) :
  updated_in_place project_id (project_id data) (fun _ => data) l
    (Workspace.replace_project data l) /\
  map project_id (Workspace.replace_project data l) = map project_id l.
Proof.
  split; [apply updated_in_place_map|].
  unfold Workspace.replace_project. rewrite map_map. apply map_ext. intros p.
  by destruct (String.eqb_spec (project_id p) (project_id data)).
Qed.

(** X17.  Reloading the selected project asks the server for it by its id.
    When the server answers, its copy becomes the selected project and
    takes the place of every entry of the list that has the id of the copy;
    the list keeps its length, its order and its ids.  When the call fails
    the page stays as it was; without a selected project no call is made. *)
Theorem reload_replaces_in_place (st : Home.State) (w : World) :
  Home.loadProjectDetails None st w = (st, w) /\
  forall sel,
    let st' := (Home.loadProjectDetails (Some sel) st w).1 in
    calls (Home.loadProjectDetails (Some sel) st w).2
    = calls w ++ [mkCall (projectsApi_get (project_id sel))] /\
    match (remote w _ (calls w) (projectsApi_get (project_id sel))).2 with
    | Resolved data =>
        Home.selectedProject st' = Some data /\
        updated_in_place project_id (project_id data) (fun _ => data)
          (Home.projects st) (Home.projects st') /\
        map project_id (Home.projects st') = map project_id (Home.projects st) /\
        Home.chatMessages st' = Home.chatMessages st
    | Rejected _ => st' = st
    end.
Proof.
  split; [done|]. intros sel. cbv zeta.
  unfold Home.loadProjectDetails, bind, await.
  destruct (remote w Project (calls w) _) as [elapsed [data|e]]; simpl; [|done].
  destruct (replace_in_place data (Home.projects st)) as [Hupd Hids]. done.
Qed.

End Reload.

(** ** The project workspace: projects *)

Section WorkspaceProjects.
Import Js Client Browser Workspace Blank.

Lemma confirm_run text w :
  confirm text w
  = (answers w (events w) text,
     {| origin := origin w; remote := remote w; answers := answers w;
        calls := calls w;
        events := events w ++ [Confirm text (answers w (events w) text)];
        trace := trace w ++ [Shown (Confirm text (answers w (events w) text))] |}).
Proof. done. Qed.

Lemma elem_of_others projectId p (l : list Project) :
  p ∈ List.filter (other_than projectId) l <-> p ∈ l /\ project_id p <> projectId.
Proof.
  rewrite !list_elem_of_In, filter_In. unfold other_than.
  destruct (String.eqb_spec (project_id p) projectId); simpl; intuition congruence.
Qed.

Lemma find_other_head projectId (l : list Project) :
  find (other_than projectId) l = head (List.filter (other_than projectId) l).
Proof.
  induction l as [|p l IH]; [done|]. cbn [find List.filter].
  by destruct (other_than projectId p).
Qed.

(** X18.  Deleting a project asks for confirmation first.  Declined, it
    makes no call and changes nothing.  Confirmed, it makes the one delete
    call; when that fails the page stays as it was, and when it succeeds the
    list loses exactly the entries with that id, and the selection, if it
    was the deleted project, moves to the first remaining project of the
    list or is dropped when none remains.  So the selected project is never
    the deleted one, and a selection that was in the list is in the list
    afterwards. *)
Theorem delete_project_outcome (projectId : string) (st : State) (w : World) :
  let st' := (handleDeleteProject projectId st w).1 in
  let w' := (handleDeleteProject projectId st w).2 in
  let question := "Are you sure you want to delete this project?" in
  events w' = events w ++ [Confirm question (answers w (events w) question)] /\
  if answers w (events w) question
  then
    calls w' = calls w ++ [mkCall (projectsApi_delete projectId)] /\
    match remote w _ (calls w) (projectsApi_delete projectId) with
    | Resolved _ =>
        (forall p, p ∈ projects st' <-> p ∈ projects st /\ project_id p <> projectId) /\
        (forall p, selectedProject st' = Some p -> project_id p <> projectId) /\
        (forall sel, selectedProject st = Some sel -> project_id sel <> projectId ->
           selectedProject st' = Some sel) /\
        (forall sel, selectedProject st = Some sel -> project_id sel = projectId ->
           selectedProject st' = head (projects st')) /\
        ((forall sel, selectedProject st = Some sel ->
            exists p, p ∈ projects st /\ project_id p = project_id sel) ->
         forall sel', selectedProject st' = Some sel' ->
            exists p, p ∈ projects st' /\ project_id p = project_id sel')
    | Rejected _ => st' = st
    end
  else calls w' = calls w /\ st' = st.
Proof.
  cbv zeta. unfold handleDeleteProject, bind. rewrite confirm_run.
  destruct (answers w (events w) _); cbn [negb]; [|done].
  unfold await. cbn [remote calls events].
  destruct (remote w unit (calls w) (projectsApi_delete projectId)) as [[]|e]; [|done].
  pose proof (fun p => elem_of_others projectId p (projects st)) as Hmem.
  pose proof (find_other_head projectId (projects st)) as Hhead.
  destruct (selectedProject st) as [sel|] eqn:Hsel.
  - destruct (String.eqb_spec (project_id sel) projectId) as [Hid|Hid];
      (split; [done|]); (split; [done|]).
    + unfold selectedProject, projects in *. simpl. split; [exact Hmem|].
      assert (Hfound : forall p, find (other_than projectId) (Home.projects (page st))
                                 = Some p ->
                p ∈ List.filter (other_than projectId) (Home.projects (page st))).
      { intros p Hp. rewrite Hhead in Hp. by apply head_Some_elem_of. }
      split; [|split; [|split]].
      * intros p Hp. by apply Hfound, Hmem in Hp as [_ ?].
      * intros sel0 [= <-] Hne. done.
      * intros sel0 _ _. exact Hhead.
      * intros _ sel' Hsel'. exists sel'. split; [by apply Hfound|done].
    + unfold selectedProject, projects in *. simpl. rewrite Hsel.
      split; [exact Hmem|]. split; [|split; [|split]].
      * by intros p [= <-].
      * done.
      * by intros sel0 [= <-] Heq.
      * intros Hinv sel' [= <-]. destruct (Hinv sel eq_refl) as (p & Hp & Hpid).
        exists p. split; [|done]. apply Hmem. split; [done|]. by rewrite Hpid.
  - split; [done|]. split; [done|].
    unfold selectedProject, projects in *. simpl. rewrite Hsel.
    split; [exact Hmem|]. repeat split; done.
Qed.

Lemma delete_project_outcome_witness :
  selectedProject Scenario.workspace = Some Scenario.planned /\
  project_id Scenario.planned = "p1" /\
  selectedProject (handleDeleteProject "p1" Scenario.workspace Scenario.desk).1
  = head (projects (handleDeleteProject "p1" Scenario.workspace Scenario.desk).1).
Proof.
  split; [reflexivity|]. split; [reflexivity|].
  pose proof (delete_project_outcome "p1" Scenario.workspace Scenario.desk) as [_ H].
  change (Browser.answers Scenario.desk (Browser.events Scenario.desk)
            "Are you sure you want to delete this project?") with true in H.
  destruct H as [_ H].
  change (Browser.remote Scenario.desk unit (Browser.calls Scenario.desk)
            (projectsApi_delete "p1")) with (@Resolved unit tt) in H.
  destruct H as (_ & _ & _ & H & _).
  exact (H Scenario.planned eq_refl eq_refl).
Defined.

(** X19.  Creating a project does nothing when the title is blank.
    Otherwise it sends, once, the title and the description as typed and the
    due date if one was entered.  On success the new project is put first in
    the list and selected, the dialog is closed and its three fields are
    emptied; on failure the list, the selection, the dialog and its fields
    stay as they were.  The loading flag ends cleared either way. *)
Theorem create_project_outcome (st : State) (w : World) :
  let st' := (handleCreateProject st w).1 in
  let w' := (handleCreateProject st w).2 in
  (blank (projectTitle st) -> st' = st /\ w' = w) /\
  (~ blank (projectTitle st) ->
   let data := {| data_title := projectTitle st;
                  data_description := Some (projectDescription st);
                  data_due_date := given (Some (projectDueDate st)) |} in
   calls w' = calls w ++ [mkCall (projectsApi_create data)] /\
   events w' = events w /\
   loading st' = false /\
   match remote w _ (calls w) (projectsApi_create data) with
   | Resolved newProject =>
       projects st' = newProject :: projects st /\
       selectedProject st' = Some newProject /\
       showNewProjectModal st' = false /\
       projectTitle st' = "" /\ projectDescription st' = "" /\ projectDueDate st' = ""
   | Rejected _ =>
       page st' = page st /\
       showNewProjectModal st' = showNewProjectModal st /\
       projectTitle st' = projectTitle st /\
       projectDescription st' = projectDescription st /\
       projectDueDate st' = projectDueDate st
   end).
Proof.
  cbv zeta. unfold handleCreateProject. split.
  - intros Hb. apply truthy_trim_blank in Hb. by rewrite Hb.
  - intros Hb.
    assert (Hin : truthy (trim (projectTitle st)) = true).
    { destruct (truthy (trim (projectTitle st))) eqn:Ht; [done|].
      by apply truthy_trim_blank in Ht. }
    rewrite Hin. cbn [negb]. unfold bind, await. cbn [projectTitle projectDescription
      projectDueDate setLoading].
    by destruct (remote w Project (calls w) _) as [newProject|e].
Qed.

Lemma create_project_outcome_witness :
  ~ blank (projectTitle Scenario.workspace) /\
  loading (handleCreateProject Scenario.workspace Scenario.desk).1 = false.
Proof.
  assert (H : ~ blank (projectTitle Scenario.workspace)).
  { intros Hb. inversion Hb as [|c l Hc _]. discriminate Hc. }
  split; [exact H|].
  exact (proj1 (proj2 (proj2 (proj2 (create_project_outcome Scenario.workspace
                                       Scenario.desk) H)))).
Defined.

End WorkspaceProjects.

(** ** The project workspace: to-dos *)

Section WorkspaceTodos.
Import Js Client Browser Workspace Blank Frame.

(** X20.  Adding, toggling and deleting a to-do each make one call for the
    selected project and change only the selected project's copy of the
    to-dos: the list of projects is left as it was, so its entry for the
    project keeps the old to-dos.  Adding sends the text as typed, with the
    due date if one was entered, appends the server's item and empties the
    two inputs; toggling sends the negation of the item's flag and puts the
    server's item in the place of every to-do with that id; deleting drops
    exactly the to-dos with that id.  A failed call changes nothing, and so
    does a blank text or a missing selection, which make no call. *)
Theorem todo_changes_stay_local (st : State) (w : World) :
  (selectedProject st = None ->
   forall todo todoId,
     handleAddTodo st w = (st, w) /\ handleToggleTodo todo st w = (st, w) /\
     handleDeleteTodo todoId st w = (st, w)) /\
  (forall sel, selectedProject st = Some sel ->
   (blank (newTodoText st) -> handleAddTodo st w = (st, w)) /\
   (~ blank (newTodoText st) ->
    let c := projectsApi_addTodo (project_id sel) (newTodoText st)
               (given (Some (newTodoDueDate st))) in
    let st' := (handleAddTodo st w).1 in
    calls (handleAddTodo st w).2 = calls w ++ [mkCall c] /\
    projects st' = projects st /\
    match remote w _ (calls w) c with
    | Resolved newTodo =>
        selectedProject st' = Some (with_todos (todos sel ++ [newTodo]) sel) /\
        newTodoText st' = "" /\ newTodoDueDate st' = ""
    | Rejected _ => st' = st
    end) /\
   (forall todo,
    let c := projectsApi_updateTodo (project_id sel) (todo_id todo)
               (negb (completed todo)) in
    let st' := (handleToggleTodo todo st w).1 in
    calls (handleToggleTodo todo st w).2 = calls w ++ [mkCall c] /\
    projects st' = projects st /\
    match remote w _ (calls w) c with
    | Resolved updated =>
        exists ts,
          selectedProject st' = Some (with_todos ts sel) /\
          updated_in_place todo_id (todo_id todo) (fun _ => updated) (todos sel) ts
    | Rejected _ => st' = st
    end) /\
   (forall todoId,
    let c := projectsApi_deleteTodo (project_id sel) todoId in
    let st' := (handleDeleteTodo todoId st w).1 in
    calls (handleDeleteTodo todoId st w).2 = calls w ++ [mkCall c] /\
    projects st' = projects st /\
    match remote w _ (calls w) c with
    | Resolved _ =>
        exists ts,
          selectedProject st' = Some (with_todos ts sel) /\
          forall t, t ∈ ts <-> t ∈ todos sel /\ todo_id t <> todoId
    | Rejected _ => st' = st
    end)).
Proof.
  split.
  - intros Hsel todo todoId.
    unfold handleAddTodo, handleToggleTodo, handleDeleteTodo. by rewrite Hsel.
  - intros sel Hsel. split; [|split; [|split]].
    + intros Hb. unfold handleAddTodo. rewrite Hsel.
      apply truthy_trim_blank in Hb. by rewrite Hb.
    + intros Hb. cbv zeta. unfold handleAddTodo. rewrite Hsel.
      assert (Hin : truthy (trim (newTodoText st)) = true).
      { destruct (truthy (trim (newTodoText st))) eqn:Ht; [done|].
        by apply truthy_trim_blank in Ht. }
      rewrite Hin. cbn [negb]. unfold bind, await.
      by destruct (remote w TodoItem (calls w) _) as [newTodo|e].
    + intros todo. cbv zeta. unfold handleToggleTodo. rewrite Hsel.
      unfold bind, await.
      destruct (remote w TodoItem (calls w) _) as [updated|e]; [|done].
      repeat split. eexists. split; [reflexivity|]. apply updated_in_place_map.
    + intros todoId. cbv zeta. unfold handleDeleteTodo. rewrite Hsel.
      unfold bind, await.
      destruct (remote w unit (calls w) _) as [[]|e]; [|done].
      repeat split. eexists. split; [reflexivity|].
      intros t. rewrite !list_elem_of_In, filter_In.
      destruct (String.eqb_spec (todo_id t) todoId); simpl; intuition congruence.
Qed.

Lemma todo_changes_stay_local_witness :
  selectedProject Scenario.workspace = Some Scenario.planned /\
  ~ blank (newTodoText Scenario.workspace) /\
  projects (handleAddTodo Scenario.workspace Scenario.desk).1
  = projects Scenario.workspace.
Proof.
  assert (H : ~ blank (newTodoText Scenario.workspace)).
  { intros Hb. inversion Hb as [|c l Hc _]. discriminate Hc. }
  split; [reflexivity|]. split; [exact H|].
  destruct (proj2 (todo_changes_stay_local Scenario.workspace Scenario.desk)
              Scenario.planned eq_refl) as (_ & Hadd & _).
  exact (proj1 (proj2 (Hadd H))).
Defined.

End WorkspaceTodos.

(** ** The project workspace: the plan editor *)

Section PlanEditor.
Import Js Client Browser Workspace.

(** X21.  The plan editor opens only on a project with a plan that is not
    empty, and starts from that plan; cancelling closes it and discards the
    text; neither touches the projects.  Saving sends the edited text as the
    plan and nothing else of the project.  When the server answers, the
    editor closes, the answer becomes the selected project and the list
    keeps its ids; when the call fails, an alert is raised and the editor
    stays open with the text as it was. *)
Theorem plan_editor_outcome (st : State) (w : World) :
  (current_plan st = None -> handleEditPlan st = st) /\
  (forall text, current_plan st = Some text ->
     text <> "" /\
     planEditing (handleEditPlan st) = true /\
     editedPlan (handleEditPlan st) = text /\
     page (handleEditPlan st) = page st /\
     handleCancelEdit (handleEditPlan st) = handleCancelEdit st) /\
  (planEditing (handleCancelEdit st) = false /\
   editedPlan (handleCancelEdit st) = "" /\
   page (handleCancelEdit st) = page st) /\
  (selectedProject st = None -> handleSavePlan st w = (st, w)) /\
  (forall sel, selectedProject st = Some sel ->
     let c := projectsApi_update (project_id sel)
                {| patch_title := None; patch_description := None;
                   patch_due_date := None; patch_plan := Some (editedPlan st) |} in
     let st' := (handleSavePlan st w).1 in
     let w' := (handleSavePlan st w).2 in
     calls w' = calls w ++ [mkCall c] /\
     match remote w _ (calls w) c with
     | Resolved updated =>
         planEditing st' = false /\
         selectedProject st' = Some updated /\
         map project_id (projects st') = map project_id (projects st) /\
         events w' = events w
     | Rejected _ =>
         st' = st /\
         events w' = events w ++ [Alert "Failed to save plan. Please try again."]
     end).
Proof.
  split; [|split; [|split; [|split]]].
  - intros Hp. unfold handleEditPlan. by rewrite Hp.
  - intros text Hp. unfold handleEditPlan. rewrite Hp. repeat split.
    unfold current_plan, given in Hp.
    destruct (selectedProject st) as [sel|]; [|done].
    destruct (plan sel) as [s|]; [|done].
    destruct (truthy s) eqn:Hs; [|done]. injection Hp as <-. by apply truthy_true.
  - done.
  - intros Hsel. unfold handleSavePlan. by rewrite Hsel.
  - intros sel Hsel. cbv zeta. unfold handleSavePlan. rewrite Hsel.
    unfold bind, await.
    destruct (remote w Project (calls w) _) as [updated|e]; [|done].
    repeat split. unfold projects. simpl.
    apply (replace_in_place updated (Home.projects (page st))).
Qed.

Lemma plan_editor_outcome_witness :
  current_plan Scenario.workspace = Some "1. Read the tour" /\
  editedPlan (handleEditPlan Scenario.workspace) = "1. Read the tour".
Proof.
  split; [reflexivity|].
  destruct (proj1 (proj2 (plan_editor_outcome Scenario.workspace Scenario.desk))
              "1. Read the tour" eq_refl) as (_ & _ & H & _).
  exact H.
Defined.

End PlanEditor.

(** ** The project workspace: generating and scheduling to-dos *)

Section WorkspaceSchedule.
Import Js Client Browser Workspace.

Lemma message_or_given fallback e : fallback <> "" -> message_or fallback e <> "".
Proof.
  intros Hf. unfold message_or.
  destruct (truthy (Js.message e)) eqn:Hm; [by apply truthy_true|done].
Qed.

Lemma no_incomplete (ts : list TodoItem) :
  Nat.eqb (length (List.filter (fun t => negb (completed t)) ts)) 0
  = forallb completed ts.
Proof.
  induction ts as [|t ts IH]; simpl; [done|]. by destruct (completed t).
Qed.

Lemma loadProjectDetails_run sel st w :
  calls (loadProjectDetails (Some sel) st w).2
  = calls w ++ [mkCall (projectsApi_get (project_id sel))] /\
  events (loadProjectDetails (Some sel) st w).2 = events w /\
  trace (loadProjectDetails (Some sel) st w).2
  = trace w ++ [Called (mkCall (projectsApi_get (project_id sel)))] /\
  generatingTodos (loadProjectDetails (Some sel) st w).1 = generatingTodos st /\
  schedulingTodos (loadProjectDetails (Some sel) st w).1 = schedulingTodos st.
Proof.
  unfold loadProjectDetails, bind, await.
  by destruct (remote w Project (calls w) _) as [data|e].
Qed.

(** X22.  Scheduling the to-dos of the selected project raises an alert
    and makes no call when every to-do is completed (or there is none).
    Otherwise it calls the scheduling endpoint once; an answer is shown in
    an alert and then the project is reloaded, a failure is shown in an
    alert, with the message of the failure or a fixed text when that is
    empty, and nothing is reloaded.  Generating to-dos needs a plan that is
    not empty and makes no call without one; on an answer it reloads the
    project first and raises the alert after that.  Each run raises one
    alert, never an empty one on failure, and ends with its busy flag
    cleared. *)
Theorem schedule_todos_guarded (st : State) (w : World) (sel : Project) :
  selectedProject st = Some sel ->
  (schedulingTodos st = false ->
   let st' := (handleScheduleTodos st w).1 in
   let w' := (handleScheduleTodos st w).2 in
   if forallb completed (todos sel)
   then st' = st /\ calls w' = calls w /\
        events w' = events w ++ [Alert "No incomplete todos to schedule."] /\
        trace w' = trace w ++ [Shown (Alert "No incomplete todos to schedule.")]
   else schedulingTodos st' = false /\
        match remote w _ (calls w) (projectsApi_scheduleTodos (project_id sel)) with
        | Resolved result =>
            calls w' = calls w ++ [mkCall (projectsApi_scheduleTodos (project_id sel));
                                   mkCall (projectsApi_get (project_id sel))] /\
            events w' = events w ++ [Alert (notice_message result)] /\
            trace w'
            = trace w ++ [Called (mkCall (projectsApi_scheduleTodos (project_id sel)));
                          Shown (Alert (notice_message result));
                          Called (mkCall (projectsApi_get (project_id sel)))]
        | Rejected error =>
            calls w' = calls w ++ [mkCall (projectsApi_scheduleTodos (project_id sel))] /\
            page st' = page st /\
            exists text, events w' = events w ++ [Alert text] /\ text <> "" /\
              (Js.message error <> "" -> text = Js.message error) /\
              trace w'
              = trace w ++ [Called (mkCall (projectsApi_scheduleTodos (project_id sel)));
                            Shown (Alert text)]
        end) /\
  (generatingTodos st = false ->
   let st' := (handleGenerateTodos st w).1 in
   let w' := (handleGenerateTodos st w).2 in
   match current_plan st with
   | None => st' = st /\ w' = w
   | Some _ =>
       generatingTodos st' = false /\
       match remote w _ (calls w) (projectsApi_generateTodos (project_id sel)) with
       | Resolved result =>
           calls w' = calls w ++ [mkCall (projectsApi_generateTodos (project_id sel));
                                  mkCall (projectsApi_get (project_id sel))] /\
           events w' = events w ++ [Alert (notice_message result)] /\
           trace w'
           = trace w ++ [Called (mkCall (projectsApi_generateTodos (project_id sel)));
                         Called (mkCall (projectsApi_get (project_id sel)));
                         Shown (Alert (notice_message result))]
       | Rejected error =>
           calls w' = calls w ++ [mkCall (projectsApi_generateTodos (project_id sel))] /\
           page st' = page st /\
           exists text, events w' = events w ++ [Alert text] /\ text <> "" /\
             (Js.message error <> "" -> text = Js.message error) /\
             trace w'
             = trace w ++ [Called (mkCall (projectsApi_generateTodos (project_id sel)));
                           Shown (Alert text)]
       end
   end).
Proof.
  intros Hsel. split.
  - intros Hbusy. cbv zeta.
    destruct (handleScheduleTodos st w) as [st' w'] eqn:Hrun. cbn [fst snd].
    unfold handleScheduleTodos in Hrun. rewrite Hsel, Hbusy, no_incomplete in Hrun.
    destruct (forallb completed (todos sel)).
    { by injection Hrun as <- <-. }
    unfold bind at 1, await in Hrun.
    destruct (remote w Notice (calls w) _) as [result|error].
    + unfold bind at 1, alert, event in Hrun. cbn [fst snd] in Hrun.
      unfold bind in Hrun.
      match type of Hrun with
      | context [loadProjectDetails (Some sel) ?t ?v] =>
          pose proof (loadProjectDetails_run sel t v) as (Hc & He & Ht & _ & _);
          destruct (loadProjectDetails (Some sel) t v) as [st2 w2]
      end.
      cbn [fst snd calls events trace] in Hc, He, Ht. injection Hrun as <- <-.
      split; [done|]. split; [by rewrite Hc, <- app_assoc|]. split; [done|].
      by rewrite Ht, <- !app_assoc.
    + unfold bind, alert, event in Hrun. injection Hrun as <- <-.
      split; [done|]. split; [done|]. split; [done|].
      eexists. split; [reflexivity|]. split; [by apply message_or_given|].
      split; [|by cbn [trace]; rewrite <- app_assoc].
      intros Hm. unfold message_or. apply truthy_true in Hm. by rewrite Hm.
  - intros Hbusy. cbv zeta.
    destruct (handleGenerateTodos st w) as [st' w'] eqn:Hrun. cbn [fst snd].
    unfold handleGenerateTodos in Hrun. rewrite Hsel in Hrun.
    destruct (current_plan st) as [text|]; [|by injection Hrun as <- <-].
    rewrite Hbusy in Hrun.
    unfold bind at 1, await in Hrun.
    destruct (remote w Notice (calls w) _) as [result|error].
    + unfold bind at 1 in Hrun.
      match type of Hrun with
      | context [loadProjectDetails (Some sel) ?t ?v] =>
          pose proof (loadProjectDetails_run sel t v) as (Hc & He & Ht & _ & _);
          destruct (loadProjectDetails (Some sel) t v) as [st2 w2]
      end.
      cbn [fst snd calls events trace] in Hc, He, Ht.
      unfold bind, alert, event in Hrun. injection Hrun as <- <-.
      split; [done|]. split; [by rewrite Hc, <- app_assoc|].
      cbn [events trace]. split; [by rewrite He|].
      by rewrite Ht, <- !app_assoc.
    + unfold bind, alert, event in Hrun. injection Hrun as <- <-.
      split; [done|]. split; [done|]. split; [done|].
      eexists. split; [reflexivity|]. split; [by apply message_or_given|].
      split; [|by cbn [trace]; rewrite <- app_assoc].
      intros Hm. unfold message_or. apply truthy_true in Hm. by rewrite Hm.
Qed.

Lemma schedule_todos_guarded_witness :
  selectedProject Scenario.workspace = Some Scenario.planned /\
  schedulingTodos Scenario.workspace = false /\
  trace (handleScheduleTodos Scenario.workspace Scenario.desk).2
  = [Called (mkCall (projectsApi_scheduleTodos "p1"));
     Shown (Alert "Scheduled 1 task");
     Called (mkCall (projectsApi_get "p1"))].
Proof.
  split; [reflexivity|]. split; [reflexivity|].
  exact (proj2 (proj2 (proj2 (proj1 (schedule_todos_guarded Scenario.workspace
                                       Scenario.desk Scenario.planned eq_refl)
                                eq_refl)))).
Defined.

End WorkspaceSchedule.

(** ** The settings page: preferences *)

Section PreferenceEdits.
Import Js Browser Preferences.

(** X23.  Editing a preference changes one field of one category of the
    preferences held by the page and nothing else, and is dropped while the
    preferences have not been loaded.  Repeating an edit changes nothing
    more, and edits of different categories can be made in either order.
    Edits reach the server only with the save, which sends the preferences
    as edited, shows either the success message or the message of the
    failure, and keeps the preferences of the page as they are, whatever
    the server answers. *)
Theorem preference_edits_local (st : State) (c : Category) (fv : FieldValue) :
  (preferences st = None ->
   updatePreference c fv st = st /\
   forall w, handlePreferencesUpdate st w = (st, w)) /\
  (forall prefs, preferences st = Some prefs ->
   exists prefs',
     updatePreference c fv st = setPreferences (Some prefs') st /\
     (forall c', c' <> c -> category c' prefs' = category c' prefs) /\
     match fv with
     | weekdays v =>
         Api.weekdays (category c prefs') = Some v /\
         Api.weekends (category c prefs') = Api.weekends (category c prefs) /\
         Api.all_time (category c prefs') = Api.all_time (category c prefs)
     | weekends v =>
         Api.weekdays (category c prefs') = Api.weekdays (category c prefs) /\
         Api.weekends (category c prefs') = Some v /\
         Api.all_time (category c prefs') = Api.all_time (category c prefs)
     | all_time v =>
         Api.weekdays (category c prefs') = Api.weekdays (category c prefs) /\
         Api.weekends (category c prefs') = Api.weekends (category c prefs) /\
         Api.all_time (category c prefs') = v
     end /\
     updatePreference c fv (updatePreference c fv st) = updatePreference c fv st /\
     (forall c2 fv2, c2 <> c ->
        updatePreference c fv (updatePreference c2 fv2 st)
        = updatePreference c2 fv2 (updatePreference c fv st)) /\
     forall w,
       let edited := updatePreference c fv st in
       let st' := (handlePreferencesUpdate edited w).1 in
       calls (handlePreferencesUpdate edited w).2
       = calls w ++ [mkCall (settingsApi_updatePreferences prefs')] /\
       preferences st' = Some prefs' /\
       loading st' = false /\
       match remote w _ (calls w) (settingsApi_updatePreferences prefs') with
       | Resolved _ => success st' = "Preferences updated successfully!" /\ error st' = ""
       | Rejected err => error st' = Js.message err /\ success st' = ""
       end).
Proof.
  split.
  - intros Hp. unfold updatePreference, handlePreferencesUpdate. by rewrite Hp.
  - intros prefs Hp. unfold updatePreference. rewrite Hp.
    exists (with_category c (with_field fv (category c prefs)) prefs).
    split; [done|]. split; [|split; [|split; [|split]]].
    + intros c' Hne. by destruct c, c'.
    + by destruct c, fv.
    + simpl. by destruct c, fv.
    + intros c2 fv2 Hne. simpl. by destruct c, c2.
    + intros w. cbv zeta. unfold handlePreferencesUpdate. simpl.
      unfold bind, await.
      by destruct (remote w Api.UserPreferences (calls w) _) as [res|err].
Qed.

Lemma preference_edits_local_witness :
  preferences Scenario.settings = Some Scenario.prefs /\
  calls (handlePreferencesUpdate
           (updatePreference gym_activity (all_time true) Scenario.settings)
           Scenario.desk).2
  = [mkCall (settingsApi_updatePreferences
               {| Api.work_study := Api.work_study Scenario.prefs;
                  Api.gym_activity :=
                    {| Api.weekdays := None; Api.weekends := Some "10-14";
                       Api.all_time := true |};
                  Api.personal_goals := Api.personal_goals Scenario.prefs |})].
Proof.
  split; [reflexivity|].
  destruct (proj2 (preference_edits_local Scenario.settings gym_activity (all_time true))
              Scenario.prefs eq_refl) as (prefs' & Hedit & _ & _ & _ & _ & Hsave).
  injection Hedit as <-. exact (proj1 (Hsave Scenario.desk)).
Defined.

End PreferenceEdits.

(** ** The settings page: the calendar connection *)

Section Calendar.
Import Js Browser Preferences.

(** X24.  Connecting the calendar asks the server for an authorization
    URL, naming as redirect URI the callback path under the origin of the
    page, and the callback page later completes the connection with that
    same redirect URI.  When the server answers, the browser is sent to the
    URL of the answer and the page stays busy; when the call fails, the
    message of the failure is shown and the page stops being busy.
    Disconnecting asks for confirmation first and does nothing when it is
    declined; confirmed, it makes the disconnect call and, only when that
    succeeds, shows the success message and asks for the calendar status
    again. *)
Theorem calendar_redirect_consistent (st : State) (w : World) :
  (let redirectUri := origin w +:+ "/settings/oauth/callback" in
   let c := settingsApi_getGoogleCalendarAuthUrl (Some redirectUri) in
   let st' := (handleConnectGoogleCalendar st w).1 in
   let w' := (handleConnectGoogleCalendar st w).2 in
   calls w' = calls w ++ [mkCall c] /\
   match remote w _ (calls w) c with
   | Resolved res =>
       events w' = events w ++ [Assign (authorization_url res)] /\
       loading st' = true /\ error st' = "" /\ success st' = ""
   | Rejected err =>
       events w' = events w /\
       loading st' = false /\ error st' = Js.message err /\ success st' = ""
   end /\
   forall (page : Client.World) (searchParams : OAuthCallback.SearchParams)
          (cb : OAuthCallback.State) (code state : string),
     Client.origin page = origin w ->
     given (OAuthCallback.get "code" searchParams) = Some code ->
     given (OAuthCallback.get "state" searchParams) = Some state ->
     given (OAuthCallback.get "error" searchParams) = None ->
     Client.calls (OAuthCallback.onCallback searchParams cb page).2
     = Client.calls page
       ++ [Client.mkCall
             (Client.settingsApi_completeGoogleCalendarOAuth code state redirectUri)]) /\
  (let question := "Are you sure you want to disconnect Google Calendar?" in
   let st' := (handleDisconnect st w).1 in
   let w' := (handleDisconnect st w).2 in
   events w' = events w ++ [Confirm question (answers w (events w) question)] /\
   if answers w (events w) question
   then
     loading st' = false /\
     match remote w _ (calls w) settingsApi_disconnectGoogleCalendar with
     | Resolved _ =>
         calls w' = calls w ++ [mkCall settingsApi_disconnectGoogleCalendar;
                                mkCall settingsApi_getGoogleCalendarStatus] /\
         success st' = "Google Calendar disconnected successfully" /\ error st' = "" /\
         calendarStatus st'
         = match remote w _ (calls w ++ [mkCall settingsApi_disconnectGoogleCalendar])
                   settingsApi_getGoogleCalendarStatus with
           | Resolved status => Some status
           | Rejected _ => calendarStatus st
           end
     | Rejected err =>
         calls w' = calls w ++ [mkCall settingsApi_disconnectGoogleCalendar] /\
         error st' = Js.message err /\ success st' = "" /\
         calendarStatus st' = calendarStatus st
     end
   else calls w' = calls w /\ st' = st).
Proof.
  split.
  - cbv zeta. split; [|split].
    + unfold handleConnectGoogleCalendar, bind, location_origin, await.
      by destruct (remote w AuthorizationUrl (calls w) _) as [res|err].
    + unfold handleConnectGoogleCalendar, bind, location_origin, await.
      by destruct (remote w AuthorizationUrl (calls w) _) as [res|err].
    + intros page searchParams cb code state Horigin Hcode Hstate Herror.
      unfold OAuthCallback.onCallback, given, truthy_opt in *.
      destruct (OAuthCallback.get "error" searchParams) as [e|];
        [destruct (truthy e); [done|]|];
        (destruct (OAuthCallback.get "code" searchParams) as [c0|]; [|done]);
        (destruct (truthy c0); [|done]);
        (destruct (OAuthCallback.get "state" searchParams) as [s0|]; [|done]);
        (destruct (truthy s0); [|done]);
        injection Hcode as ->; injection Hstate as ->; simpl;
        unfold Client.bind, Client.location_origin, Client.await; rewrite Horigin;
        by destruct (Client.remote page Client.OAuthResult (Client.calls page) _)
          as [elapsed [res|err]].
  - cbv zeta.
    destruct (handleDisconnect st w) as [st' w'] eqn:Hrun. cbn [fst snd].
    unfold handleDisconnect, bind, confirm in Hrun.
    destruct (answers w (events w) _); cbn [negb] in Hrun;
      [|by injection Hrun as <- <-].
    unfold await at 1 in Hrun. cbn [remote calls events] in Hrun.
    destruct (remote w Notice (calls w) settingsApi_disconnectGoogleCalendar)
      as [res|err]; [|by injection Hrun as <- <-].
    unfold loadCalendarStatus, bind, await in Hrun. cbn [remote calls events] in Hrun.
    destruct (remote w GoogleCalendarStatus _ settingsApi_getGoogleCalendarStatus)
      as [status|err]; injection Hrun as <- <-; by rewrite <- app_assoc.
Qed.

Lemma calendar_redirect_consistent_witness :
  Client.origin Example.world = origin Scenario.desk /\
  Client.calls
    (OAuthCallback.onCallback [("code", "4/0Ab"); ("state", "xyz")]
       OAuthCallback.initial Example.world).2
  = [Client.mkCall
       (Client.settingsApi_completeGoogleCalendarOAuth "4/0Ab" "xyz"
          (origin Scenario.desk +:+ "/settings/oauth/callback"))].
Proof.
  split; [reflexivity|].
  exact (proj2 (proj2 (proj1 (calendar_redirect_consistent Scenario.settings
                                Scenario.desk)))
           Example.world [("code", "4/0Ab"); ("state", "xyz")] OAuthCallback.initial
           "4/0Ab" "xyz" eq_refl eq_refl eq_refl eq_refl).
Defined.

End Calendar.

(** ** The project workspace: clearing the chat *)

Section ClearChat.
Import Js Client Browser Workspace.

(** X25.  Clearing the chat of a project asks for confirmation and never
    contacts the server: confirmed, it empties the messages held by the
    page, declined, it leaves them, and nothing else of the page changes.
    So loading the chat history afterwards asks the server exactly as it
    would have before, and shows again whatever the server answers. *)
Theorem clear_chat_is_local (st : State) (w : World) (sel : Project) :
  selectedProject st = Some sel ->
  let question := "Clear chat history for this project? This cannot be undone." in
  let st1 := (handleClearChat st w).1 in
  let w1 := (handleClearChat st w).2 in
  calls w1 = calls w /\
  events w1 = events w ++ [Confirm question (answers w (events w) question)] /\
  chatMessages st1 = (if answers w (events w) question then [] else chatMessages st) /\
  projects st1 = projects st /\ selectedProject st1 = selectedProject st /\
  calls (loadChatHistory (Some sel) st1 w1).2
  = calls w ++ [mkCall (projectsApi_getChatHistory (project_id sel))] /\
  chatMessages (loadChatHistory (Some sel) st1 w1).1
  = match remote w _ (calls w) (projectsApi_getChatHistory (project_id sel)) with
    | Resolved history => history
    | Rejected _ => chatMessages st1
    end.
Proof.
  intros Hsel. cbv zeta.
  destruct (handleClearChat st w) as [st1 w1] eqn:Hrun. cbn [fst snd].
  unfold handleClearChat, bind, confirm in Hrun.
  destruct (answers w (events w) _); injection Hrun as <- <-;
    unfold loadChatHistory, bind, await; cbn [remote calls events];
    by destruct (remote w (list ChatMessage) (calls w) _) as [history|e].
Qed.

Lemma clear_chat_is_local_witness :
  selectedProject Scenario.workspace = Some Scenario.planned /\
  calls (handleClearChat Scenario.workspace Scenario.desk).2 = calls Scenario.desk.
Proof.
  split; [reflexivity|].
  exact (proj1 (clear_chat_is_local Scenario.workspace Scenario.desk Scenario.planned
                  eq_refl)).
Defined.

End ClearChat.
